(** * coala-poc-para: quorum signing and delegated access

    A shallow embedding of the parts of the repository that carry the
    protocol logic:

    - [Js]: the JavaScript values, exceptions and [Map] the code relies on;
    - [AddressCodec]: address normalisation ([getAddress] of viem);
    - [DelegationService]: lib/services/delegationService.ts;
    - [Store]: lib/store.ts (the delegated-access part of the in-memory
      store);
    - [DelegatedAccessesApi]: app/api/delegated-accesses/route.ts and
      app/api/delegated-accesses/[id]/route.ts;
    - [DynamicLabsService]: [triggerDelegation] of
      lib/services/dynamicLabsService.ts;
    - [PendingTransactions]: the sign and execute handlers of the
      PendingTransactions component;
    - [Samples]: small inputs on which the above is evaluated;
    - [DynamicLabsQueries], [JsText], [DynamicLabsUsers], [PolicyFormat]:
      the other methods of lib/services/dynamicLabsService.ts that are
      modelled ([getUserById], the two delegation queries,
      [convertPolicyToDynamicLabsFormat]);
    - [VaultStore]: the vaults of lib/store.ts and its listings of active
      delegated accesses;
    - [DelegateRoute]: app/api/vaults/[id]/delegate/route.ts;
    - [PendingView]: the conditions under which the component shows its
      buttons;
    - [Scenarios]: more sample inputs;
    - [SignatureBundler]: the assembling of the signature bundle, which the
      sources leave to the Safe SDK, as section 4.3 of the specification
      describes it.

    Definitions come first; the theorems follow in the second half. *)

From Stdlib Require Import List String Ascii Bool Arith ZArith Lia DecimalString.
From Stdlib Require Import Sorted.
Import ListNotations.
Local Open Scope list_scope.
Local Open Scope string_scope.

Set Implicit Arguments.

(* ===================================================================== *)
(** * Part I: definitions                                                 *)
(* ===================================================================== *)

(** ** JavaScript runtime: exceptions, JSON values, insertion-ordered Map *)

Module Js.

(** A thrown [Error]: its [name] and [message]. *)
Record JsError : Type := mkError { name : string; message : string }.

Definition Error (msg : string) : JsError := mkError "Error" msg.
Definition TypeError (msg : string) : JsError := mkError "TypeError" msg.

(** A computation that returns or throws. *)
Inductive result (A : Type) : Type :=
| Return (a : A)
| Throw (e : JsError).
Arguments Return {A} a.
Arguments Throw {A} e.

Definition bind {A B : Type} (m : result A) (k : A -> result B) : result B :=
  match m with
  | Return a => k a
  | Throw e => Throw e
  end.

(** [try { m } catch (error) { h error }] *)
Definition try_catch {A : Type} (m : result A) (h : JsError -> result A)
  : result A :=
  match m with
  | Return a => Return a
  | Throw e => h e
  end.

Definition returns {A : Type} (m : result A) : bool :=
  match m with Return _ => true | Throw _ => false end.

(** Parsed JSON. Numbers are kept as integers; nothing here looks inside
    one beyond its being zero. *)
#[warnings="-register-all"]
Inductive Json : Type :=
| JNull
| JBool (b : bool)
| JNum (z : Z)
| JStr (s : string)
| JArr (items : list Json)
| JObj (fields : list (string * Json)).

(** A string is truthy when it is not empty. *)
Definition truthy_string (s : string) : bool :=
  match s with EmptyString => false | String _ _ => true end.

(** Truthiness of a JSON value. *)
Definition truthy (j : Json) : bool :=
  match j with
  | JNull => false
  | JBool b => b
  | JNum z => negb (Z.eqb z 0)
  | JStr s => truthy_string s
  | JArr _ | JObj _ => true
  end.

(** [a || b] on possibly-undefined values. *)
Definition or_else {A : Type} (t : A -> bool) (a : option A) (b : option A)
  : option A :=
  match a with
  | Some v => if t v then Some v else b
  | None => b
  end.

Fixpoint assoc {V : Type} (k : string) (l : list (string * V)) : option V :=
  match l with
  | [] => None
  | (k', v) :: rest => if String.eqb k k' then Some v else assoc k rest
  end.

(** [j.key] : reading a property of [null] throws, a property of another
    primitive or of an array (for a non-index key) is [undefined]. *)
Definition get_prop (j : Json) (key : string) : result (option Json) :=
  match j with
  | JNull => Throw (TypeError "Cannot read properties of null")
  | JObj fields => Return (assoc key fields)
  | _ => Return None
  end.

(** [j?.key] on a possibly-undefined [j]. *)
Definition get_prop_opt (j : option Json) (key : string) : option Json :=
  match j with
  | Some (JObj fields) => assoc key fields
  | _ => None
  end.

(** *** [Map<string, V>]: keys in insertion order; [set] on a key that is
    present replaces the value where it stands. *)
Definition JsMap (V : Type) : Type := list (string * V).

Definition map_get {V : Type} (m : JsMap V) (k : string) : option V :=
  assoc k m.

Fixpoint map_set {V : Type} (m : JsMap V) (k : string) (v : V) : JsMap V :=
  match m with
  | [] => [(k, v)]
  | (k', v') :: rest =>
      if String.eqb k k' then (k', v) :: rest
      else (k', v') :: map_set rest k v
  end.

Definition map_values {V : Type} (m : JsMap V) : list V := List.map snd m.
Definition map_keys {V : Type} (m : JsMap V) : list string := List.map fst m.

(** *** ASCII case mapping ([toLowerCase] / [toUpperCase] on the characters
    the code applies them to: hexadecimal addresses and e-mail addresses). *)
Definition lower_ascii (c : ascii) : ascii :=
  let n := nat_of_ascii c in
  if ((65 <=? n) && (n <=? 90))%nat then ascii_of_nat (n + 32) else c.

Definition upper_ascii (c : ascii) : ascii :=
  let n := nat_of_ascii c in
  if ((97 <=? n) && (n <=? 122))%nat then ascii_of_nat (n - 32) else c.

Arguments lower_ascii : simpl never.
Arguments upper_ascii : simpl never.

Fixpoint map_string (f : ascii -> ascii) (s : string) : string :=
  match s with
  | EmptyString => EmptyString
  | String c rest => String (f c) (map_string f rest)
  end.

Definition toLowerCase (s : string) : string := map_string lower_ascii s.
Arguments toLowerCase : simpl never.

Definition quote : string := String (ascii_of_nat 34) EmptyString.

End Js.

Import Js.

Declare Scope js_scope.
Notation "x <- m ;; k" := (bind m (fun x => k))
  (at level 61, m at next level, right associativity) : js_scope.
Notation "m ;;; k" := (bind m (fun _ => k))
  (at level 61, right associativity) : js_scope.
Local Open Scope js_scope.

(** ** AddressCodec: [getAddress] *)

Module AddressCodec.

Definition is_hex_digit (c : ascii) : bool :=
  let n := nat_of_ascii c in
  (((48 <=? n) && (n <=? 57)) || ((97 <=? n) && (n <=? 102))
   || ((65 <=? n) && (n <=? 70)))%nat.

Arguments is_hex_digit : simpl never.

Fixpoint all_hex (s : string) : bool :=
  match s with
  | EmptyString => true
  | String c rest => is_hex_digit c && all_hex rest
  end.

(** [/^0x[a-fA-F0-9]{40}$/.test(address)] *)
Definition addressRegex_test (address : string) : bool :=
  match address with
  | String c0 (String c1 digits) =>
      Ascii.eqb c0 "0" && Ascii.eqb c1 "x"
      && (String.length digits =? 40)%nat && all_hex digits
  | _ => false
  end.

(** [isAddress(address, { strict: false })] *)
Definition isAddress (address : string) : bool := addressRegex_test address.

(** [address.substring(2)] *)
Definition substring2 (s : string) : string :=
  match s with
  | String _ (String _ rest) => rest
  | _ => EmptyString
  end.

(** The loop of [checksumAddress]: for [i = 0, 2, .., 38], character [i] is
    upper-cased when the high nibble of [hash[i >> 1]] is at least 8 and
    character [i + 1] when its low nibble is. [pairs] counts the remaining
    iterations; a byte missing from [hash] reads as [undefined], whose
    shifts and masks are 0. *)
Fixpoint checksum_loop (pairs : nat) (hash : list Z) (chars : string)
  : string :=
  match pairs, chars with
  | S n, String c1 (String c2 rest) =>
      let h := match hash with h :: _ => h | [] => 0%Z end in
      String (if (8 <=? Z.shiftr h 4)%Z then upper_ascii c1 else c1)
        (String (if (8 <=? Z.land h 15)%Z then upper_ascii c2 else c2)
           (checksum_loop n (List.tl hash) rest))
  | S n, String c1 EmptyString =>
      let h := match hash with h :: _ => h | [] => 0%Z end in
      String (if (8 <=? Z.shiftr h 4)%Z then upper_ascii c1 else c1)
        EmptyString
  | _, _ => chars
  end.

Section Checksum.
(** [keccak256(stringToBytes(s), 'bytes')]: the digest, byte by byte. *)
Variable keccak256 : string -> list Z.

(** The checksummed form of an address: the EIP-55 case rule, as viem's
    [checksumAddress] applies it. *)
Definition checksumAddress (address : string) : string :=
  let hexAddress := toLowerCase (substring2 address) in
  let hash := keccak256 hexAddress in
  "0x" ++ checksum_loop 20 hash hexAddress.

Definition InvalidAddressError (address : string) : JsError :=
  mkError "InvalidAddressError"
    ("Address " ++ quote ++ address ++ quote ++ " is invalid.").

(** Modelled from the spec: [getAddress] is imported from viem and is not
    part of the sources. Section 4.1 describes it: it fails with
    InvalidAddress on anything that is not a well-formed 20-byte hex
    identifier and returns the checksummed (case-normalised) form
    otherwise. *)
Definition getAddress (address : string) : result string :=
  if isAddress address then Return (checksumAddress address)
  else Throw (InvalidAddressError address).

End Checksum.

Arguments checksumAddress : simpl never.
Arguments getAddress : simpl never.

End AddressCodec.

(** ** lib/services/delegationService.ts *)

Module DelegationService.

(** A [Buffer]: its bytes. *)
Definition bytes : Type := list Z.

(** The types of [@/types] the service works on. *)
Record EncryptedPayload : Type := {
  alg : string;
  iv : string;
  ct : string;
  tag : string;
  ek : string;
  kid : option string
}.

Record DelegationWebhookData : Type := {
  chain : string;
  encryptedDelegatedShare : EncryptedPayload;
  encryptedWalletApiKey : EncryptedPayload;
  publicKey : string;
  userId : string;
  walletId : string
}.

Record DelegationWebhook : Type := {
  messageId : string;
  eventId : string;
  eventName : string;
  timestamp : string;
  webhookId : string;
  webhook_userId : string;
  environmentId : string;
  environmentName : string;
  data : DelegationWebhookData
}.

(** What the service takes from [node:crypto] and the JavaScript built-ins.
    AES-GCM is split the way the [Decipher] object exposes it: [gcm_stream]
    is the counter-mode decryption that [update] hands out as it goes, and
    [gcm_tag_ok] is the authentication check that [final] makes. *)
Record NodeCrypto : Type := {
  from_base64url : string -> bytes;
  toString_utf8 : bytes -> string;
  privateDecrypt : string -> bytes -> result bytes;
  cipher_init : bytes -> bytes -> result unit;
  auth_tag_init : bytes -> result unit;
  gcm_stream : bytes -> bytes -> bytes -> bytes;
  gcm_tag_ok : bytes -> bytes -> bytes -> bytes -> bool;
  JSON_parse : string -> result Json;
  JSON_stringify : DelegationWebhook -> string
}.

(** The same runtime with another counter-mode stream. *)
Definition with_stream (C : NodeCrypto)
  (stream : bytes -> bytes -> bytes -> bytes) : NodeCrypto :=
  {| from_base64url := from_base64url C;
     toString_utf8 := toString_utf8 C;
     privateDecrypt := privateDecrypt C;
     cipher_init := cipher_init C;
     auth_tag_init := auth_tag_init C;
     gcm_stream := stream;
     gcm_tag_ok := gcm_tag_ok C;
     JSON_parse := JSON_parse C;
     JSON_stringify := JSON_stringify C |}.

(** The state of a [Decipher] for aes-256-gcm. *)
Record Decipher : Type := {
  d_key : bytes;
  d_iv : bytes;
  d_tag : option bytes;
  d_seen : bytes
}.

Definition backslash : ascii := ascii_of_nat 92.
Definition newline : ascii := ascii_of_nat 10.

(** [s.replace(/\\n/g, '\n')]: every backslash followed by [n] becomes a
    line feed. *)
Fixpoint replace_escaped_newlines (s : string) : string :=
  match s with
  | EmptyString => EmptyString
  | String c1 tl =>
      match tl with
      | String c2 rest =>
          if Ascii.eqb c1 backslash && Ascii.eqb c2 "n"
          then String newline (replace_escaped_newlines rest)
          else String c1 (replace_escaped_newlines tl)
      | EmptyString => s
      end
  end.

(** The result of [decryptMaterials]. *)
Record Materials : Type := {
  delegatedShare : Json;
  walletApiKey : string
}.

(** The result of [processDelegationWebhook]. *)
Record ProcessedDelegation : Type := {
  p_userId : string;
  p_walletId : string;
  p_publicKey : string;
  p_delegatedShare : Json;
  p_walletApiKey : string;
  p_eventId : string
}.

(** What the pipeline did, in order. *)
Inductive Step : Type :=
| VerifySignature (payload signature webhookSecret : string)
| DecryptMaterials (share apiKeyEnc : EncryptedPayload).

Section Service.
Variable C : NodeCrypto.

Definition createDecipheriv (key iv_ : bytes) : result Decipher :=
  cipher_init C key iv_ ;;;
  Return {| d_key := key; d_iv := iv_; d_tag := None; d_seen := [] |}.

Definition setAuthTag (d : Decipher) (tag_ : bytes) : result Decipher :=
  auth_tag_init C tag_ ;;;
  Return {| d_key := d_key d; d_iv := d_iv d; d_tag := Some tag_;
            d_seen := d_seen d |}.

(** [decipher.update(ciphertext)] returns the decrypted bytes at once,
    before anything is authenticated. *)
Definition update (d : Decipher) (ciphertext : bytes) : bytes * Decipher :=
  (gcm_stream C (d_key d) (d_iv d) ciphertext,
   {| d_key := d_key d; d_iv := d_iv d; d_tag := d_tag d;
      d_seen := (d_seen d ++ ciphertext)%list |}).

Definition auth_failure : JsError :=
  Error "Unsupported state or unable to authenticate data".

(** [decipher.final()] checks the tag and throws when it does not verify. *)
Definition final (d : Decipher) : result bytes :=
  match d_tag d with
  | Some tag_ =>
      if gcm_tag_ok C (d_key d) (d_iv d) (d_seen d) tag_ then Return []
      else Throw auth_failure
  | None => Throw auth_failure
  end.

Definition decryptAesGcm (encryptedKey : bytes) (ivB64 ctB64 tagB64 : string)
  : result bytes :=
  let iv_ := from_base64url C ivB64 in
  let ciphertext := from_base64url C ctB64 in
  let tag_ := from_base64url C tagB64 in
  decipher <- createDecipheriv encryptedKey iv_ ;;
  decipher <- setAuthTag decipher tag_ ;;
  let (chunk, decipher) := update decipher ciphertext in
  last <- final decipher ;;
  Return (chunk ++ last)%list.

Definition rsaOaepDecryptEk (privateKeyPem : string) (ekB64 : string)
  : result bytes :=
  let normalizedKey := replace_escaped_newlines privateKeyPem in
  try_catch
    (privateDecrypt C normalizedKey (from_base64url C ekB64))
    (fun error =>
       Throw (Error ("Failed to decrypt content-encryption key: "
                     ++ message error))).

Definition decryptMaterials (privateKeyPem : string)
  (share apiKeyEnc : EncryptedPayload) : result Materials :=
  try_catch
    (let normalizedPrivateKey := replace_escaped_newlines privateKeyPem in
     shareKey <- rsaOaepDecryptEk normalizedPrivateKey (ek share) ;;
     walletApiKeyKey <- rsaOaepDecryptEk normalizedPrivateKey (ek apiKeyEnc) ;;
     delegatedShareBuffer <-
       decryptAesGcm shareKey (iv share) (ct share) (tag share) ;;
     walletApiKeyBuffer <-
       decryptAesGcm walletApiKeyKey (iv apiKeyEnc) (ct apiKeyEnc)
         (tag apiKeyEnc) ;;
     delegatedShare_ <- JSON_parse C (toString_utf8 C delegatedShareBuffer) ;;
     let walletApiKey_ := toString_utf8 C walletApiKeyBuffer in
     Return {| delegatedShare := delegatedShare_;
               walletApiKey := walletApiKey_ |})
    (fun error =>
       Throw (Error ("Failed to decrypt delegation materials: "
                     ++ message error))).

(** The key an envelope's [ek] unwraps to under the private key, as
    [decryptMaterials] obtains it. *)
Definition unwrapped_key (privateKeyPem : string) (e : EncryptedPayload)
  : result bytes :=
  privateDecrypt C
    (replace_escaped_newlines (replace_escaped_newlines privateKeyPem))
    (from_base64url C (ek e)).

(** The RSA-OAEP unwrap of the envelope's key succeeds. *)
Definition unwraps (privateKeyPem : string) (e : EncryptedPayload) : bool :=
  returns (unwrapped_key privateKeyPem e).

(** The envelope's GCM tag verifies under its unwrapped key. *)
Definition tag_verifies (privateKeyPem : string) (e : EncryptedPayload)
  : bool :=
  match unwrapped_key privateKeyPem e with
  | Return key =>
      gcm_tag_ok C key (from_base64url C (iv e)) (from_base64url C (ct e))
        (from_base64url C (tag e))
  | Throw _ => false
  end.

(** The method [verifyWebhookSignature] as [processDelegationWebhook]
    reaches it, through [this]. *)
Variable this_verifyWebhookSignature : string -> string -> string -> bool.

Definition processDelegationWebhook (webhook : DelegationWebhook)
  (privateKeyPem : string) (webhookSecret : option string)
  : list Step * result ProcessedDelegation :=
  let verification : list Step * result unit :=
    match webhookSecret with
    | Some secret =>
        if truthy_string secret then
          let payload := JSON_stringify C webhook in
          let signature := "" in
          ([VerifySignature payload signature secret],
           if negb (this_verifyWebhookSignature payload signature secret)
           then Throw (Error "Invalid webhook signature")
           else Return tt)
        else ([], Return tt)
    | None => ([], Return tt)
    end in
  match verification with
  | (steps, Throw e) => (steps, Throw e)
  | (steps, Return _) =>
      let share := encryptedDelegatedShare (data webhook) in
      let apiKeyEnc := encryptedWalletApiKey (data webhook) in
      ((steps ++ [DecryptMaterials share apiKeyEnc])%list,
       m <- decryptMaterials privateKeyPem share apiKeyEnc ;;
       Return {| p_userId := userId (data webhook);
                 p_walletId := walletId (data webhook);
                 p_publicKey := publicKey (data webhook);
                 p_delegatedShare := delegatedShare m;
                 p_walletApiKey := walletApiKey m;
                 p_eventId := eventId webhook |})
  end.

End Service.

(** [verifyWebhookSignature] as the class defines it. *)
Definition verifyWebhookSignature (payload signature webhookSecret : string)
  : bool := true.

(** [delegationService.processDelegationWebhook]: the singleton's method. *)
Definition delegationService_processDelegationWebhook (C : NodeCrypto)
  (webhook : DelegationWebhook) (privateKeyPem : string)
  (webhookSecret : option string) : list Step * result ProcessedDelegation :=
  processDelegationWebhook C verifyWebhookSignature webhook privateKeyPem
    webhookSecret.

Definition is_verify (s : Step) : bool :=
  match s with
  | VerifySignature _ _ _ => true
  | DecryptMaterials _ _ => false
  end.

Definition is_decrypt (s : Step) : bool :=
  match s with
  | VerifySignature _ _ _ => false
  | DecryptMaterials _ _ => true
  end.

(** Every decryption in the trace has a verification before it. *)
Fixpoint verified_before_decrypt (seen_verify : bool) (steps : list Step)
  : bool :=
  match steps with
  | [] => true
  | VerifySignature _ _ _ :: rest => verified_before_decrypt true rest
  | DecryptMaterials _ _ :: rest =>
      seen_verify && verified_before_decrypt seen_verify rest
  end.

End DelegationService.

(** ** lib/store.ts *)

Module Store.

(** [DelegatedAccess] of [@/types]. [status] is declared as one of
    ['active'], ['revoked'], ['pending'], but the PATCH route stores whatever
    JSON value the request carries, so it is kept as a JSON value. *)
Record DelegatedAccess : Type := {
  id : string;
  vaultId : string;
  walletId : string;
  userId : string;
  delegateUserId : string;
  delegateEmail : string;
  publicKey : string;
  delegatedShare : Json;
  walletApiKey : string;
  createdAt : string;
  status : Json;
  eventId : option string
}.

(** [Partial<DelegatedAccess>]: [None] is a key that is not there. *)
Record PartialDelegatedAccess : Type := {
  u_id : option string;
  u_vaultId : option string;
  u_walletId : option string;
  u_userId : option string;
  u_delegateUserId : option string;
  u_delegateEmail : option string;
  u_publicKey : option string;
  u_delegatedShare : option Json;
  u_walletApiKey : option string;
  u_createdAt : option string;
  u_status : option Json;
  u_eventId : option (option string)
}.

Definition override {A : Type} (old : A) (new : option A) : A :=
  match new with Some v => v | None => old end.

(** [{ ...delegatedAccess, ...updates }] *)
Definition spread (da : DelegatedAccess) (updates : PartialDelegatedAccess)
  : DelegatedAccess :=
  {| id := override (id da) (u_id updates);
     vaultId := override (vaultId da) (u_vaultId updates);
     walletId := override (walletId da) (u_walletId updates);
     userId := override (userId da) (u_userId updates);
     delegateUserId := override (delegateUserId da) (u_delegateUserId updates);
     delegateEmail := override (delegateEmail da) (u_delegateEmail updates);
     publicKey := override (publicKey da) (u_publicKey updates);
     delegatedShare := override (delegatedShare da) (u_delegatedShare updates);
     walletApiKey := override (walletApiKey da) (u_walletApiKey updates);
     createdAt := override (createdAt da) (u_createdAt updates);
     status := override (status da) (u_status updates);
     eventId := override (eventId da) (u_eventId updates) |}.

(** [{ status: v }] *)
Definition only_status (v : Json) : PartialDelegatedAccess :=
  {| u_id := None; u_vaultId := None; u_walletId := None; u_userId := None;
     u_delegateUserId := None; u_delegateEmail := None; u_publicKey := None;
     u_delegatedShare := None; u_walletApiKey := None; u_createdAt := None;
     u_status := Some v; u_eventId := None |}.

(** The five maps of the store. Vaults, wallets, users and policies are not
    looked into here and are kept as the JSON objects they are. *)
Record Store : Type := {
  vaults : JsMap Json;
  wallets : JsMap Json;
  users : JsMap Json;
  policies : JsMap Json;
  delegatedAccesses : JsMap DelegatedAccess
}.

Definition empty : Store :=
  {| vaults := []; wallets := []; users := []; policies := [];
     delegatedAccesses := [] |}.

Definition set_delegatedAccesses (s : Store) (m : JsMap DelegatedAccess)
  : Store :=
  {| vaults := vaults s; wallets := wallets s; users := users s;
     policies := policies s; delegatedAccesses := m |}.

Definition createDelegatedAccess (s : Store) (delegatedAccess : DelegatedAccess)
  : Store * DelegatedAccess :=
  (set_delegatedAccesses s
     (map_set (delegatedAccesses s) (id delegatedAccess) delegatedAccess),
   delegatedAccess).

Definition getDelegatedAccess (s : Store) (id_ : string)
  : option DelegatedAccess :=
  map_get (delegatedAccesses s) id_.

Definition getAllDelegatedAccesses (s : Store) : list DelegatedAccess :=
  map_values (delegatedAccesses s).

Definition updateDelegatedAccess (s : Store) (id_ : string)
  (updates : PartialDelegatedAccess) : Store * option DelegatedAccess :=
  match map_get (delegatedAccesses s) id_ with
  | None => (s, None)
  | Some delegatedAccess =>
      let updated := spread delegatedAccess updates in
      (set_delegatedAccesses s (map_set (delegatedAccesses s) id_ updated),
       Some updated)
  end.

(** [da.eventId === eventId] *)
Definition has_eventId (eventId_ : string) (da : DelegatedAccess) : bool :=
  match eventId da with
  | Some e => String.eqb e eventId_
  | None => false
  end.

Definition getDelegatedAccessByEventId (s : Store) (eventId_ : string)
  : option DelegatedAccess :=
  List.find (has_eventId eventId_) (map_values (delegatedAccesses s)).

(** The records of the store that carry a given event id. *)
Definition records_for (s : Store) (eventId_ : string) : list DelegatedAccess :=
  List.filter (has_eventId eventId_) (getAllDelegatedAccesses s).

(** No event id is carried by two records. *)
Definition at_most_one_per_event (s : Store) : Prop :=
  forall e, (List.length (records_for s e) <= 1)%nat.

Definition with_eventId (da : DelegatedAccess) (e : option string)
  : DelegatedAccess :=
  {| id := id da; vaultId := vaultId da; walletId := walletId da;
     userId := userId da; delegateUserId := delegateUserId da;
     delegateEmail := delegateEmail da; publicKey := publicKey da;
     delegatedShare := delegatedShare da; walletApiKey := walletApiKey da;
     createdAt := createdAt da; status := status da; eventId := e |}.

Definition with_status (da : DelegatedAccess) (st : Json) : DelegatedAccess :=
  {| id := id da; vaultId := vaultId da; walletId := walletId da;
     userId := userId da; delegateUserId := delegateUserId da;
     delegateEmail := delegateEmail da; publicKey := publicKey da;
     delegatedShare := delegatedShare da; walletApiKey := walletApiKey da;
     createdAt := createdAt da; status := st; eventId := eventId da |}.

(** A record with its two secrets blanked. *)
Definition redact (da : DelegatedAccess) : DelegatedAccess :=
  {| id := id da; vaultId := vaultId da; walletId := walletId da;
     userId := userId da; delegateUserId := delegateUserId da;
     delegateEmail := delegateEmail da; publicKey := publicKey da;
     delegatedShare := JNull; walletApiKey := "";
     createdAt := createdAt da; status := status da; eventId := eventId da |}.

(** Two stores that hold the same records up to the two secrets. *)
Definition same_public_data (s1 s2 : Store) : Prop :=
  List.map (fun kv => (fst kv, redact (snd kv))) (delegatedAccesses s1)
  = List.map (fun kv => (fst kv, redact (snd kv))) (delegatedAccesses s2).

(** Modelled from the spec: the webhook route that materialises a processed
    delegation event is not part of the sources. Section 4.5 gives its
    contract, [materialize(eventId, decryptedMaterials)]: when a record
    already exists for [eventId] it is returned unchanged and nothing is
    stored; otherwise the record built from the materials is stored under
    that event id. The lookup and the insertion are the store's own
    [getDelegatedAccessByEventId] and [createDelegatedAccess]. *)
Definition materialize (s : Store) (eventId_ : string)
  (record : DelegatedAccess) : Store * DelegatedAccess :=
  match getDelegatedAccessByEventId s eventId_ with
  | Some existing => (s, existing)
  | None => createDelegatedAccess s (with_eventId record (Some eventId_))
  end.

(** The temporary record that POST /api/vaults/[id]/delegate stores before any
    webhook arrives: [id] is [`temp-${Date.now()}`] and [eventId] is
    [undefined]. *)
Definition tempDelegation (now createdAt_ vaultId_ walletId_ userId_
  delegateEmail_ : string) : DelegatedAccess :=
  {| id := "temp-" ++ now;
     vaultId := vaultId_;
     walletId := walletId_;
     userId := userId_;
     delegateUserId := "";
     delegateEmail := delegateEmail_;
     publicKey := "";
     delegatedShare := JNull;
     walletApiKey := "";
     createdAt := createdAt_;
     status := JStr "pending";
     eventId := None |}.

End Store.

(** ** app/api/delegated-accesses/route.ts and
       app/api/delegated-accesses/[id]/route.ts *)

Module DelegatedAccessesApi.
Import Store.

(** [NextResponse.json(body, { status })] *)
Record Response : Type := { status_code : nat; body : Json }.

Definition json_ok (j : Json) : Response := {| status_code := 200; body := j |}.

(** The object both routes build before answering. A key whose value is
    [undefined] is left out by the JSON serialisation. *)
Definition sanitized (da : DelegatedAccess) : Json :=
  JObj ([ ("id", JStr (id da));
          ("vaultId", JStr (vaultId da));
          ("walletId", JStr (walletId da));
          ("userId", JStr (userId da));
          ("delegateUserId", JStr (delegateUserId da));
          ("delegateEmail", JStr (delegateEmail da));
          ("publicKey", JStr (publicKey da));
          ("createdAt", JStr (createdAt da));
          ("status", status da) ]
        ++ match eventId da with
           | Some e => [("eventId", JStr e)]
           | None => []
           end)%list.

(** [if (q) { list = list.filter(da => field(da) === q) }] for a query
    parameter that [searchParams.get] returned. *)
Definition filter_by (q : option string) (field : DelegatedAccess -> string)
  (l : list DelegatedAccess) : list DelegatedAccess :=
  match q with
  | Some v =>
      if truthy_string v then List.filter (fun da => String.eqb (field da) v) l
      else l
  | None => l
  end.

(** GET /api/delegated-accesses *)
Definition GET_all (s : Store) (vaultId_ walletId_ delegateEmail_ : option string)
  : Response :=
  let delegatedAccesses_ := getAllDelegatedAccesses s in
  let delegatedAccesses_ := filter_by vaultId_ vaultId delegatedAccesses_ in
  let delegatedAccesses_ := filter_by walletId_ walletId delegatedAccesses_ in
  let delegatedAccesses_ :=
    filter_by delegateEmail_ delegateEmail delegatedAccesses_ in
  json_ok (JArr (List.map sanitized delegatedAccesses_)).

Definition not_found : Response :=
  {| status_code := 404;
     body := JObj [("error", JStr "Delegated access not found")] |}.

(** GET /api/delegated-accesses/[id] *)
Definition GET (s : Store) (params_id : string) : Response :=
  match getDelegatedAccess s params_id with
  | None => not_found
  | Some delegatedAccess => json_ok (sanitized delegatedAccess)
  end.

Definition update_failed (e : JsError) : Response :=
  {| status_code := 500;
     body := JObj [("error", JStr "Failed to update delegated access");
                   ("details", JStr (message e))] |}.

(** PATCH /api/delegated-accesses/[id]; [request_json] is the outcome of
    [await request.json()]. *)
Definition PATCH (s : Store) (params_id : string) (request_json : result Json)
  : Store * Response :=
  match (body_ <- request_json ;; get_prop body_ "status") with
  | Throw e => (s, update_failed e)
  | Return status_ =>
      match getDelegatedAccess s params_id with
      | None => (s, not_found)
      | Some delegatedAccess =>
          let new_status :=
            match or_else truthy status_ (Some (status delegatedAccess)) with
            | Some v => v
            | None => status delegatedAccess
            end in
          match updateDelegatedAccess s params_id (only_status new_status) with
          | (s', None) =>
              (s', {| status_code := 500;
                      body := JObj [("error",
                                JStr "Failed to update delegated access")] |})
          | (s', Some updated) => (s', json_ok (sanitized updated))
          end
      end
  end.

(** The keys of a JSON object. *)
Definition object_keys (j : Json) : list string :=
  match j with
  | JObj fields => List.map fst fields
  | _ => []
  end.

(** The objects a response body consists of: the body itself, or the items
    of the array it is. *)
Definition response_objects (r : Response) : list Json :=
  match body r with
  | JArr items => items
  | j => [j]
  end.

(** What can be done to the delegated-access records through the code at
    hand: materialising a webhook event, storing a temporary record, and
    patching a status. *)
Inductive Op : Type :=
| Materialize (eventId_ : string) (record : DelegatedAccess)
| CreatePending (now createdAt_ vaultId_ walletId_ userId_ delegateEmail_ : string)
| Patch (params_id : string) (request_json : result Json).

Definition step (s : Store) (op : Op) : Store :=
  match op with
  | Materialize e record => fst (materialize s e record)
  | CreatePending now c v w u d =>
      fst (createDelegatedAccess s (tempDelegation now c v w u d))
  | Patch i b => fst (PATCH s i b)
  end.

Definition run (ops : list Op) (s : Store) : Store := List.fold_left step ops s.

End DelegatedAccessesApi.

(** ** lib/services/dynamicLabsService.ts: [triggerDelegation] *)

Module DynamicLabsService.

(** The variables of [process.env] the method reads. *)
Record ProcessEnv : Type := {
  NEXT_PUBLIC_DYNAMIC_ENVIRONMENT_ID : option string;
  NEXT_PUBLIC_DYNAMIC_AUTH_TOKEN : option string;
  NEXT_PUBLIC_DYNAMIC_DELEGATION_WEBHOOK_URL : option string;
  NEXT_PUBLIC_APP_URL : option string
}.

Record DynamicCredentials : Type := {
  environmentId : string;
  authToken : string
}.

Definition getCredentials (env : ProcessEnv) : option DynamicCredentials :=
  match NEXT_PUBLIC_DYNAMIC_ENVIRONMENT_ID env,
        NEXT_PUBLIC_DYNAMIC_AUTH_TOKEN env with
  | Some environmentId_, Some authToken_ =>
      if negb (truthy_string environmentId_) || negb (truthy_string authToken_)
      then None
      else Some {| environmentId := environmentId_; authToken := authToken_ |}
  | _, _ => None
  end.

(** The request handed to [fetch], and what comes back. *)
Record FetchRequest : Type := {
  method : string;
  authorization : string;
  contentType : string;
  request_body : Json
}.

Record FetchResponse : Type := {
  response_status : nat;
  response_json : result Json;
  response_text : result string
}.

(** [response.ok] *)
Definition ok (r : FetchResponse) : bool :=
  ((200 <=? response_status r) && (response_status r <=? 299))%nat.

Record TriggerResult : Type := {
  success : bool;
  trigger_message : string;
  delegationId : option Json;
  requiresClientSide : option bool
}.

Definition string_of_nat (n : nat) : string :=
  DecimalString.NilEmpty.string_of_uint (Nat.to_uint n).

Definition endpoints (credentials : DynamicCredentials) (walletId : string)
  : list string :=
  [ "https://app.dynamic.xyz/api/v0/environments/"
      ++ environmentId credentials ++ "/wallets/" ++ walletId ++ "/delegate";
    "https://app.dynamic.xyz/api/v0/environments/"
      ++ environmentId credentials ++ "/waas/wallets/" ++ walletId
      ++ "/delegate";
    "https://app.dynamic.xyz/api/v0/environments/"
      ++ environmentId credentials ++ "/users/" ++ walletId ++ "/delegate";
    "https://app.dynamicauth.com/api/v0/environments/"
      ++ environmentId credentials ++ "/wallets/" ++ walletId ++ "/delegate" ].

(** [webhookUrl || process.env... || (process.env.NEXT_PUBLIC_APP_URL ? ... :
    undefined)] *)
Definition effectiveWebhookUrl (env : ProcessEnv) (webhookUrl : option string)
  : option string :=
  or_else truthy_string webhookUrl
    (or_else truthy_string (NEXT_PUBLIC_DYNAMIC_DELEGATION_WEBHOOK_URL env)
       (match NEXT_PUBLIC_APP_URL env with
        | Some app =>
            if truthy_string app
            then Some (app ++ "/api/webhooks/delegation")
            else None
        | None => None
        end)).

Definition requestBody (env : ProcessEnv) (delegateEmail : string)
  (webhookUrl : option string) : Json :=
  JObj ([("delegateEmail", JStr (toLowerCase delegateEmail))]
        ++ match effectiveWebhookUrl env webhookUrl with
           | Some url =>
               if truthy_string url then [("webhookUrl", JStr url)] else []
           | None => []
           end)%list.

Definition delegation_request (env : ProcessEnv)
  (credentials : DynamicCredentials) (delegateEmail : string)
  (webhookUrl : option string) : FetchRequest :=
  {| method := "POST";
     authorization := "Bearer " ++ authToken credentials;
     contentType := "application/json";
     request_body := requestBody env delegateEmail webhookUrl |}.

(** What is reported when no endpoint answered with success. *)
Definition client_side_required : TriggerResult :=
  {| success := false;
     trigger_message :=
       "Delegation API endpoint not available. Delegation must be triggered via client-side SDK using useWalletDelegation hook.";
     delegationId := None;
     requiresClientSide := Some true |}.

Section Trigger.
Variable env : ProcessEnv.
Variable fetch : string -> FetchRequest -> result FetchResponse.

(** The body of the [try] for one endpoint: [Return (Some r)] is
    [return r], [Return None] is [continue]. *)
Definition try_endpoint (request : FetchRequest) (apiUrl : string)
  : result (option TriggerResult) :=
  response <- fetch apiUrl request ;;
  if ok response then
    result_ <- response_json response ;;
    delegationId_ <- get_prop result_ "delegationId" ;;
    id_ <- get_prop result_ "id" ;;
    delegation_ <- get_prop result_ "delegation" ;;
    data_ <- get_prop result_ "data" ;;
    Return (Some
      {| success := true;
         trigger_message :=
           "Delegation triggered successfully via server-side API";
         delegationId :=
           or_else truthy delegationId_
             (or_else truthy id_
                (or_else truthy (get_prop_opt delegation_ "id")
                   (get_prop_opt data_ "id")));
         requiresClientSide := None |})
  else
    errorText <- response_text response ;;
    if (response_status response =? 404)%nat then Return None
    else if ((response_status response =? 401)
             || (response_status response =? 403))%nat
    then Throw (Error ("Authentication failed ("
                       ++ string_of_nat (response_status response)
                       ++ "). Please verify your API token has delegation permissions. "
                       ++ errorText))
    else Return None.

(** [for (const apiUrl of endpoints) { try { ... } catch { continue } }] *)
Fixpoint try_endpoints (request : FetchRequest) (urls : list string)
  : option TriggerResult :=
  match urls with
  | [] => None
  | apiUrl :: rest =>
      match try_catch (try_endpoint request apiUrl)
                      (fun _ => Return None) with
      | Return (Some r) => Some r
      | _ => try_endpoints request rest
      end
  end.

Definition triggerDelegation (walletId delegateEmail : string)
  (webhookUrl : option string) : result TriggerResult :=
  match getCredentials env with
  | None =>
      Throw (Error "Environment ID and AuthToken are required. Please set DYNAMIC_ENVIRONMENT_ID and DYNAMIC_AUTH_TOKEN in .env file.")
  | Some credentials =>
      let request :=
        delegation_request env credentials delegateEmail webhookUrl in
      match try_endpoints request (endpoints credentials walletId) with
      | Some r => Return r
      | None => Return client_side_required
      end
  end.

End Trigger.

End DynamicLabsService.

(** ** The PendingTransactions component: signing and executing *)

Module PendingTransactions.
Import AddressCodec.

(** A confirmation as the Safe Transaction Service lists it. A signature
    that is missing reads as the empty string. *)
Record Confirmation : Type := {
  owner : string;
  signature : string
}.

(** [SafeTransaction]: the service's transaction object, used as it comes. *)
Record SafeTransaction : Type := {
  safeTxHash : string;
  to : string;
  value : string;
  data : string;
  confirmations : option (list Confirmation);
  isExecuted : bool
}.

(** The argument of [createTransaction]. *)
Record MetaTransactionData : Type := {
  mt_to : string;
  mt_value : string;
  mt_data : string
}.

Record Account : Type := { address : string }.

Inductive WalletClient : Type := ViemWalletClient.

(** What the hooks provide to the component. *)
Record Session : Type := {
  safeAddress : string;
  viemAccount : option Account;
  walletClient : option WalletClient;
  owners : list string;
  threshold : nat
}.

(** The component's state. *)
Record Ui : Type := {
  pendingTxs : list SafeTransaction;
  isSigning : option string;
  isLoadingTxs : bool;
  error : string;
  success : string
}.

Definition setPendingTxs (u : Ui) (l : list SafeTransaction) : Ui :=
  {| pendingTxs := l; isSigning := isSigning u; isLoadingTxs := isLoadingTxs u;
     error := error u; success := success u |}.
Definition setIsSigning (u : Ui) (h : option string) : Ui :=
  {| pendingTxs := pendingTxs u; isSigning := h;
     isLoadingTxs := isLoadingTxs u; error := error u; success := success u |}.
Definition setIsLoadingTxs (u : Ui) (b : bool) : Ui :=
  {| pendingTxs := pendingTxs u; isSigning := isSigning u; isLoadingTxs := b;
     error := error u; success := success u |}.
Definition setError (u : Ui) (e : string) : Ui :=
  {| pendingTxs := pendingTxs u; isSigning := isSigning u;
     isLoadingTxs := isLoadingTxs u; error := e; success := success u |}.
Definition setSuccess (u : Ui) (m : string) : Ui :=
  {| pendingTxs := pendingTxs u; isSigning := isSigning u;
     isLoadingTxs := isLoadingTxs u; error := error u; success := m |}.

(** [err?.message || err?.toString() || fallback] *)
Definition error_text (err : JsError) (fallback : string) : string :=
  if truthy_string (message err) then message err
  else if truthy_string (name err) then name err
  else fallback.

(** [s || fallback] *)
Definition or_default (s fallback : string) : string :=
  if truthy_string s then s else fallback.

Definition string_of_nat (n : nat) : string :=
  DecimalString.NilEmpty.string_of_uint (Nat.to_uint n).

(** [tx.confirmations || []] *)
Definition confirmations_or_empty (tx : SafeTransaction) : list Confirmation :=
  match confirmations tx with Some l => l | None => [] end.

(** [viemAccount && walletClient] *)
Definition connected (session : Session) : bool :=
  match viemAccount session, walletClient session with
  | Some _, Some _ => true
  | _, _ => false
  end.

Definition connect_wallet_first : string := "Please connect your wallet first".

Definition threshold_not_met (needed have : nat) : string :=
  "Need " ++ string_of_nat needed ++ " signatures, but only have "
  ++ string_of_nat have.

Definition not_an_owner : string :=
  "Your current wallet is not an owner of this Safe".

Definition already_signed : string :=
  "You have already signed this transaction".

Definition executed_successfully (hash : string) : string :=
  "Transaction executed successfully!"
  ++ String (ascii_of_nat 10) ("Hash: " ++ hash).

Section Component.
Variable keccak256 : string -> list Z.

(** The transaction object of the Safe SDK. *)
Variable T : Type.

(** The Safe SDK, the Para provider and the Safe Transaction Service
    helpers, as the component calls them. *)
Record Externals : Type := {
  getPendingTransactions : string -> result (option (list SafeTransaction));
  getTx : string -> result SafeTransaction;
  createParaProvider : result unit;
  getSafeSdk : string -> string -> result unit;
  createTransaction : MetaTransactionData -> result T;
  getTransactionHash : T -> result string;
  signTransaction : T -> result T;
  signature_entries : T -> list (string * string);
  addSignature : T -> string -> string -> T;
  executeTransaction : T -> result string;
  confirmTx : string -> string -> result unit
}.

(** The calls a handler makes to the outside, in order. *)
Inductive Call : Type :=
| GetPendingTransactions (safeAddress_ : string)
| GetTransaction (safeTxHash_ : string)
| CreateParaProvider
| GetSafeSdk (safeAddress_ signerAddress : string)
| CreateTransaction (m : MetaTransactionData)
| GetTransactionHash (t : T)
| SignTransaction (t : T)
| AddSignature (signer data_ : string)
| ExecuteTransaction (t : T)
| ConfirmTransaction (safeTxHash_ signature_ : string).

(** A computation that makes calls and returns or throws. *)
Definition Eff (A : Type) : Type := (list Call * result A)%type.

Definition eret {A : Type} (a : A) : Eff A := ([], Return a).

Definition ebind {A B : Type} (m : Eff A) (k : A -> Eff B) : Eff B :=
  match m with
  | (tr, Return a) => let (tr', r) := k a in ((tr ++ tr')%list, r)
  | (tr, Throw e) => (tr, Throw e)
  end.

Definition call {A : Type} (c : Call) (r : result A) : Eff A := ([c], r).

Definition lift {A : Type} (r : result A) : Eff A := ([], r).

(** What a handler leaves behind: the state, the calls it made, and the
    exception that escaped it, if any. *)
Record Outcome : Type := {
  ui : Ui;
  calls : list Call;
  uncaught : option JsError
}.

Definition done (u : Ui) (tr : list Call) : Outcome :=
  {| ui := u; calls := tr; uncaught := None |}.

Variable X : Externals.
Variable session : Session.

Definition loadPendingTransactions (u : Ui) : Ui * list Call :=
  let u := setError (setIsLoadingTxs u true) "" in
  let u :=
    match getPendingTransactions X (safeAddress session) with
    | Return (Some results) =>
        setPendingTxs u (List.filter (fun tx => negb (isExecuted tx)) results)
    | Return None => setPendingTxs u []
    | Throw err =>
        setPendingTxs
          (setError u (error_text err "Failed to load pending transactions"))
          []
    end in
  (setIsLoadingTxs u false, [GetPendingTransactions (safeAddress session)]).

(** The transaction handed to [createTransaction]. *)
Definition meta_of (d : SafeTransaction) : MetaTransactionData :=
  {| mt_to := to d;
     mt_value := or_default (value d) "0";
     mt_data := or_default (data d) "0x" |}.

(** [for (const confirmation of confirmations) { ... addSignature ... }] *)
Fixpoint add_signatures (confs : list Confirmation) (safeTransaction : T)
  : Eff T :=
  match confs with
  | [] => eret safeTransaction
  | confirmation :: rest =>
      match getAddress keccak256 (owner confirmation) with
      | Throw e => lift (Throw e)
      | Return ownerAddress =>
          let signatureData := signature confirmation in
          if truthy_string signatureData then
            ebind
              (call (AddSignature ownerAddress signatureData)
                 (Return (addSignature X safeTransaction ownerAddress
                            signatureData)))
              (add_signatures rest)
          else add_signatures rest safeTransaction
      end
  end.

(** The [try] block of [handleExecuteTransaction]: what it returns is
    [txResponse.hash]. *)
Definition execute_body (account : Account) (tx : SafeTransaction)
  (confs : list Confirmation) : Eff string :=
  ebind (call (GetTransaction (safeTxHash tx)) (getTx X (safeTxHash tx)))
    (fun safeTransactionData =>
  ebind (call CreateParaProvider (createParaProvider X)) (fun _ =>
  let signer := address account in
  ebind (call (GetSafeSdk (safeAddress session) signer)
           (getSafeSdk X (safeAddress session) signer)) (fun _ =>
  ebind (call (CreateTransaction (meta_of safeTransactionData))
           (createTransaction X (meta_of safeTransactionData)))
    (fun safeTransaction =>
  ebind (add_signatures confs safeTransaction) (fun safeTransaction =>
  call (ExecuteTransaction safeTransaction)
    (executeTransaction X safeTransaction)))))).

Definition handleExecuteTransaction (u : Ui) (tx : SafeTransaction) : Outcome :=
  match viemAccount session, walletClient session with
  | Some account, Some _ =>
      let confs := confirmations_or_empty tx in
      if (List.length confs <? threshold session)%nat then
        done (setError u
                (threshold_not_met (threshold session) (List.length confs)))
             []
      else
        let u := setSuccess (setError (setIsSigning u (Some (safeTxHash tx)))
                               "") "" in
        match execute_body account tx confs with
        | (tr, Return hash) =>
            let u := setSuccess u (executed_successfully hash) in
            let (u, tr') := loadPendingTransactions u in
            done (setIsSigning u None) (tr ++ tr')%list
        | (tr, Throw err) =>
            done (setIsSigning
                    (setError u
                       (error_text err "Failed to execute transaction"))
                    None)
                 tr
        end
  | _, _ => done (setError u connect_wallet_first) []
  end.

(** [confirmations.some(conf =>
       getAddress(conf.owner).toLowerCase() === currentAddress.toLowerCase())] *)
Fixpoint hasAlreadySigned (currentAddress : string)
  (confs : list Confirmation) : result bool :=
  match confs with
  | [] => Return false
  | conf :: rest =>
      a <- getAddress keccak256 (owner conf) ;;
      if String.eqb (toLowerCase a) (toLowerCase currentAddress)
      then Return true
      else hasAlreadySigned currentAddress rest
  end.

(** The loop that takes the first signature with a value out of the signed
    transaction. *)
Definition extract_signature (signedTx : T) : string :=
  match List.find (fun entry => truthy_string (snd entry))
          (signature_entries X signedTx) with
  | Some (_, sigValue) => sigValue
  | None => ""
  end.

(** The [try] block of [handleSignTransaction]. *)
Definition sign_body (account : Account) (tx : SafeTransaction) : Eff unit :=
  ebind (call CreateParaProvider (createParaProvider X)) (fun _ =>
  let signer := address account in
  ebind (call (GetSafeSdk (safeAddress session) signer)
           (getSafeSdk X (safeAddress session) signer)) (fun _ =>
  ebind (call (CreateTransaction (meta_of tx))
           (createTransaction X (meta_of tx))) (fun safeTransaction =>
  ebind (call (GetTransactionHash safeTransaction)
           (getTransactionHash X safeTransaction)) (fun _ =>
  ebind (call (SignTransaction safeTransaction)
           (signTransaction X safeTransaction)) (fun signedTx =>
  let signature_ := extract_signature signedTx in
  if negb (truthy_string signature_) then
    lift (Throw (Error "Failed to extract signature from signed transaction"))
  else
    call (ConfirmTransaction (safeTxHash tx) signature_)
      (confirmTx X (safeTxHash tx) signature_)))))).

Definition handleSignTransaction (u : Ui) (tx : SafeTransaction) : Outcome :=
  match viemAccount session, walletClient session with
  | Some account, Some _ =>
      match getAddress keccak256 (address account) with
      | Throw e => {| ui := u; calls := []; uncaught := Some e |}
      | Return currentAddress =>
          if negb (List.existsb (String.eqb currentAddress) (owners session)) then
            done (setError u not_an_owner) []
          else
            let confs := confirmations_or_empty tx in
            match hasAlreadySigned currentAddress confs with
            | Throw e => {| ui := u; calls := []; uncaught := Some e |}
            | Return true => done (setError u already_signed) []
            | Return false =>
                let u :=
                  setSuccess
                    (setError (setIsSigning u (Some (safeTxHash tx))) "") "" in
                match sign_body account tx with
                | (tr, Return _) =>
                    let u :=
                      setSuccess u "Transaction confirmed! Reloading..." in
                    let (u, tr') := loadPendingTransactions u in
                    done (setIsSigning u None) (tr ++ tr')%list
                | (tr, Throw err) =>
                    done (setIsSigning
                            (setError u
                               (error_text err
                                  "Failed to confirm transaction"))
                            None)
                         tr
                end
            end
      end
  | _, _ => done (setError u connect_wallet_first) []
  end.

(** The signatures a handler added, in the order it added them, and the
    transactions it submitted for execution. *)
Fixpoint added_signatures (tr : list Call) : list (string * string) :=
  match tr with
  | [] => []
  | AddSignature signer data_ :: rest =>
      (signer, data_) :: added_signatures rest
  | _ :: rest => added_signatures rest
  end.

Fixpoint submitted (tr : list Call) : list T :=
  match tr with
  | [] => []
  | ExecuteTransaction t :: rest => t :: submitted rest
  | _ :: rest => submitted rest
  end.

Fixpoint confirmations_sent (tr : list Call) : list (string * string) :=
  match tr with
  | [] => []
  | ConfirmTransaction h s :: rest => (h, s) :: confirmations_sent rest
  | _ :: rest => confirmations_sent rest
  end.

(** The signatures the execute loop is to add for a list of confirmations:
    those of the confirmations that carry one, under the normalised owner,
    in the order of the list. Every owner is normalised, signature or not. *)
Fixpoint signatures_of (confs : list Confirmation)
  : result (list (string * string)) :=
  match confs with
  | [] => Return []
  | confirmation :: rest =>
      ownerAddress <- getAddress keccak256 (owner confirmation) ;;
      sigs <- signatures_of rest ;;
      Return (if truthy_string (signature confirmation)
              then (ownerAddress, signature confirmation) :: sigs
              else sigs)
  end.


End Component.


(** One press of the sign button: who is connected, what the outside answers,
    and the state the component is in. *)
Record Attempt (T : Type) : Type := {
  attempt_session : Session;
  attempt_externals : Externals T;
  attempt_ui : Ui
}.

Definition add_confirmation (tx : SafeTransaction) (c : Confirmation)
  : SafeTransaction :=
  {| safeTxHash := safeTxHash tx; to := to tx; value := value tx;
     data := data tx;
     confirmations := Some (confirmations_or_empty tx ++ [c])%list;
     isExecuted := isExecuted tx |}.

(** Modelled from the spec: the transaction-relay service is not part of the
    sources; section 5 makes it the authoritative holder of the confirmation
    set, which the component re-reads after every confirmation. A
    confirmation that the handler sends and the service accepts is added to
    the transaction under the address of the wallet that signed it, and the
    next attempt sees the transaction as the service then has it. *)
Definition attempt_step (keccak256 : string -> list Z) (T : Type)
  (tx : SafeTransaction) (a : Attempt T) : SafeTransaction :=
  let out :=
    handleSignTransaction keccak256 (attempt_externals a) (attempt_session a)
      (attempt_ui a) tx in
  match confirmations_sent (calls out), viemAccount (attempt_session a) with
  | (h, sg) :: _, Some account =>
      match confirmTx (attempt_externals a) h sg with
      | Return _ =>
          add_confirmation tx {| owner := address account; signature := sg |}
      | Throw _ => tx
      end
  | _, _ => tx
  end.

Definition run_attempts (keccak256 : string -> list Z) (T : Type)
  (tx : SafeTransaction) (attempts : list (Attempt T)) : SafeTransaction :=
  List.fold_left (attempt_step keccak256 (T := T)) attempts tx.

(** The numeric value of an address: its forty hexadecimal digits. *)
Definition hex_value (c : ascii) : N :=
  let n := N_of_ascii c in
  if ((48 <=? n) && (n <=? 57))%N then (n - 48)%N
  else if ((97 <=? n) && (n <=? 102))%N then (n - 87)%N
  else if ((65 <=? n) && (n <=? 70))%N then (n - 55)%N
  else 0%N.

Fixpoint hex_number (acc : N) (digits : string) : N :=
  match digits with
  | EmptyString => acc
  | String c rest => hex_number (16 * acc + hex_value c)%N rest
  end.

Definition address_value (a : string) : N := hex_number 0 (substring2 a).


(** How many confirmations of a list are by a given (normalised) owner. *)
Fixpoint confirmations_by (keccak256 : string -> list Z) (a : string)
  (confs : list Confirmation) : nat :=
  match confs with
  | [] => 0
  | conf :: rest =>
      (match getAddress keccak256 (owner conf) with
       | Return a' =>
           if String.eqb (toLowerCase a') (toLowerCase a) then 1 else 0
       | Throw _ => 0
       end + confirmations_by keccak256 a rest)%nat
  end.

(** Every confirmation names a well-formed address. *)
Definition owners_well_formed (confs : list Confirmation) : Prop :=
  List.Forall (fun conf => isAddress (owner conf) = true) confs.

(** The confirmations of a transaction are well-formed and no owner has
    two. *)
Definition one_per_owner (keccak256 : string -> list Z) (tx : SafeTransaction)
  : Prop :=
  owners_well_formed (confirmations_or_empty tx)
  /\ forall b,
       (confirmations_by keccak256 b (confirmations_or_empty tx) <= 1)%nat.

End PendingTransactions.

(** ** Sample data: a toy runtime and small inputs on which the definitions
    above are evaluated *)

Module Samples.

Definition codes (s : string) : list Z :=
  List.map (fun c => Z.of_N (N_of_ascii c)) (list_ascii_of_string s).

Definition text (b : list Z) : string :=
  string_of_list_ascii (List.map (fun z => ascii_of_N (Z.to_N z)) b).

(** A stand-in for the digest: the character codes, scaled. *)
Definition sample_keccak256 (s : string) : list Z :=
  List.map (fun z => ((z * 37) mod 256)%Z) (codes s).

Fixpoint bytes_eqb (a b : list Z) : bool :=
  match a, b with
  | [], [] => true
  | x :: a', y :: b' => Z.eqb x y && bytes_eqb a' b'
  | _, _ => false
  end.

Import DelegationService.

(** A toy cipher: the private key is a pass phrase, the stream is the
    identity, and a tag verifies when it is the ciphertext reversed. *)
Definition sample_crypto : NodeCrypto :=
  {| from_base64url := codes;
     toString_utf8 := text;
     privateDecrypt := fun pem wrapped =>
       if String.eqb pem "PRIVATE KEY" then Return wrapped
       else Throw (Error "oaep decoding error");
     cipher_init := fun _ _ => Return tt;
     auth_tag_init := fun _ => Return tt;
     gcm_stream := fun _ _ ciphertext => ciphertext;
     gcm_tag_ok := fun _ _ ciphertext tag_ =>
       bytes_eqb tag_ (List.rev ciphertext);
     JSON_parse := fun s => Return (JStr s);
     JSON_stringify := fun webhook => eventId webhook |}.

Definition sealed (ciphertext tag_ : string) : EncryptedPayload :=
  {| alg := "HYBRID-RSA-AES-256"; iv := "iv"; ct := ciphertext; tag := tag_;
     ek := "key"; kid := None |}.

Definition good_share : EncryptedPayload := sealed "share" "erahs".
Definition good_api_key : EncryptedPayload := sealed "apikey" "yekipa".
Definition forged_share : EncryptedPayload := sealed "share" "forged".

Definition sample_webhook : DelegationWebhook :=
  {| messageId := "m1"; eventId := "evt-1";
     eventName := "wallet.delegation.created"; timestamp := "t";
     webhookId := "w"; webhook_userId := "u"; environmentId := "e";
     environmentName := "sandbox";
     data := {| chain := "EVM";
                encryptedDelegatedShare := good_share;
                encryptedWalletApiKey := good_api_key;
                publicKey := "0xpub"; userId := "user-1";
                walletId := "wallet-1" |} |}.

(** A verifier that rejects everything. *)
Definition reject_all (payload signature webhookSecret : string) : bool :=
  false.

Definition sample_record (share : Json) (apiKey : string)
  : Store.DelegatedAccess :=
  {| Store.id := "da-1"; Store.vaultId := "vault-1";
     Store.walletId := "wallet-1"; Store.userId := "user-1";
     Store.delegateUserId := "user-2";
     Store.delegateEmail := "delegate@example.org";
     Store.publicKey := "0xpub"; Store.delegatedShare := share;
     Store.walletApiKey := apiKey; Store.createdAt := "2024-01-01";
     Store.status := JStr "active"; Store.eventId := Some "evt-1" |}.

Definition sample_store (share : Json) (apiKey : string) : Store.Store :=
  fst (Store.createDelegatedAccess Store.empty (sample_record share apiKey)).

Import DynamicLabsService.

Definition sample_env : ProcessEnv :=
  {| NEXT_PUBLIC_DYNAMIC_ENVIRONMENT_ID := Some "env-1";
     NEXT_PUBLIC_DYNAMIC_AUTH_TOKEN := Some "token";
     NEXT_PUBLIC_DYNAMIC_DELEGATION_WEBHOOK_URL := None;
     NEXT_PUBLIC_APP_URL := None |}.

Definition sample_credentials : DynamicCredentials :=
  {| environmentId := "env-1"; authToken := "token" |}.

(** Every endpoint answers 404. *)
Definition fetch_404 (apiUrl : string) (request : FetchRequest)
  : result FetchResponse :=
  Return {| response_status := 404;
            response_json := Throw (Error "Unexpected token");
            response_text := Return "Not Found" |}.

Import PendingTransactions.

(** A model of the SDK's transaction object: the transaction and its
    signatures, in a map keyed by the lower-cased signer. *)
Record EthSafeTransaction : Type := {
  tx_data : MetaTransactionData;
  signatures : JsMap string
}.

Definition ownerA : string := "0x1111111111111111111111111111111111111111".
Definition ownerB : string := "0x2222222222222222222222222222222222222222".

Definition sample_tx (confs : list Confirmation) : SafeTransaction :=
  {| safeTxHash := "0xhash"; to := ownerB; value := ""; data := "";
     confirmations := Some confs; isExecuted := false |}.

(** An SDK and a service that accept everything; the SDK signs as
    [ownerA]. *)
Definition sample_externals : Externals EthSafeTransaction :=
  {| getPendingTransactions := fun _ => Return (Some []);
     getTx := fun _ => Return (sample_tx []);
     createParaProvider := Return tt;
     getSafeSdk := fun _ _ => Return tt;
     createTransaction := fun m => Return {| tx_data := m; signatures := [] |};
     getTransactionHash := fun _ => Return "0xhash";
     signTransaction := fun t =>
       Return {| tx_data := tx_data t;
                 signatures := map_set (signatures t) ownerA "0xsigA" |};
     signature_entries := fun t => signatures t;
     addSignature := fun t signer data_ =>
       {| tx_data := tx_data t;
          signatures := map_set (signatures t) (toLowerCase signer) data_ |};
     executeTransaction := fun _ => Return "0xexecuted";
     confirmTx := fun _ _ => Return tt |}.

Definition session_of (account : option Account)
  (client : option WalletClient) (needed : nat) : Session :=
  {| safeAddress := "0xsafe"; viemAccount := account; walletClient := client;
     owners := [ownerA; ownerB]; threshold := needed |}.

Definition idle : Ui :=
  {| pendingTxs := []; isSigning := None; isLoadingTxs := false;
     error := ""; success := "" |}.

Definition walletA : option Account := Some {| address := ownerA |}.
Definition client : option WalletClient := Some ViemWalletClient.

Definition byA : Confirmation := {| owner := ownerA; signature := "0xsigA" |}.
Definition byB : Confirmation := {| owner := ownerB; signature := "0xsigB" |}.

End Samples.

(** ** lib/services/dynamicLabsService.ts: what an endpoint can answer *)

Module DynamicLabsQueries.
Import DynamicLabsService.

(** An endpoint that gives the loop of [triggerDelegation] nothing to return:
    the request fails, or the answer is not OK, or it is OK but its body is
    not JSON or is [null]. *)
Definition gives_nothing
  (fetch : string -> FetchRequest -> result FetchResponse)
  (request : FetchRequest) (apiUrl : string) : Prop :=
  match fetch apiUrl request with
  | Throw _ => True
  | Return response =>
      ok response = false
      \/ (exists e, response_json response = Throw e)
      \/ response_json response = Return JNull
  end.

End DynamicLabsQueries.

(** ** [String(v)] and template literals on JSON values *)

Module JsText.

Section Text.
(** [String(n)] for a number: the digits are the engine's. *)
Variable Number_toString : Z -> string.

(** [String(j)]. An array is its elements joined by commas, [null] among
    them as the empty string; an object is [[object Object]]. *)
Fixpoint js_String (j : Json) : string :=
  match j with
  | JNull => "null"
  | JBool true => "true"
  | JBool false => "false"
  | JNum z => Number_toString z
  | JStr s => s
  | JArr items =>
      (fix join (l : list Json) : string :=
         match l with
         | [] => ""
         | x :: rest =>
             let element :=
               match x with JNull => "" | _ => js_String x end in
             match rest with
             | [] => element
             | _ :: _ => element ++ "," ++ join rest
             end
         end) items
  | JObj _ => "[object Object]"
  end.

(** [`${v}`] for a value that may be [undefined]. *)
Definition template (v : option Json) : string :=
  match v with
  | Some j => js_String j
  | None => "undefined"
  end.

End Text.

(** [a || b] where [b] is always there. *)
Definition or_value (a : option Json) (b : Json) : Json :=
  match a with
  | Some v => if truthy v then v else b
  | None => b
  end.

End JsText.

(** ** lib/services/dynamicLabsService.ts: [getUserById],
       [getUserDelegations], [getWalletDelegations] *)

Module DynamicLabsUsers.
Import DynamicLabsService JsText.

(** What [getUserById] returns for a user that exists. *)
Record DynamicUser : Type := {
  user_id : Json;
  user_email : Json;
  firstName : option Json;
  lastName : option Json
}.

(** What the two delegation queries return. *)
Record DelegationsResult : Type := {
  delegations_success : bool;
  delegations : option Json;
  delegations_message : option string
}.

(** A GET request with the two headers; it has no body, for which
    [request_body] is [JNull]. *)
Definition get_request (credentials : DynamicCredentials) : FetchRequest :=
  {| method := "GET";
     authorization := "Bearer " ++ authToken credentials;
     contentType := "application/json";
     request_body := JNull |}.

Definition user_url (credentials : DynamicCredentials) (dynamicUserId : string)
  : string :=
  "https://app.dynamic.xyz/api/v0/environments/"
  ++ environmentId credentials ++ "/users/" ++ dynamicUserId.

(** [errorData?.error || errorData?.message || errorText] *)
Definition errorMessage (errorData : Json) (errorText : string) : Json :=
  or_value (get_prop_opt (Some errorData) "error")
    (or_value (get_prop_opt (Some errorData) "message") (JStr errorText)).

Definition user_delegation_endpoints (credentials : DynamicCredentials)
  (userId : string) : list string :=
  [ "https://app.dynamic.xyz/api/v0/environments/"
      ++ environmentId credentials ++ "/users/" ++ userId ++ "/delegations";
    "https://app.dynamic.xyz/api/v0/environments/"
      ++ environmentId credentials ++ "/waas/users/" ++ userId
      ++ "/delegations";
    "https://app.dynamicauth.com/api/v0/environments/"
      ++ environmentId credentials ++ "/users/" ++ userId ++ "/delegations" ].

Definition wallet_delegation_endpoints (credentials : DynamicCredentials)
  (walletId : string) : list string :=
  [ "https://app.dynamic.xyz/api/v0/environments/"
      ++ environmentId credentials ++ "/wallets/" ++ walletId
      ++ "/delegations";
    "https://app.dynamic.xyz/api/v0/environments/"
      ++ environmentId credentials ++ "/waas/wallets/" ++ walletId
      ++ "/delegations";
    "https://app.dynamicauth.com/api/v0/environments/"
      ++ environmentId credentials ++ "/wallets/" ++ walletId
      ++ "/delegations" ].

(** [Array.isArray(data) ? data : (data.delegations || data.data || [])] *)
Definition delegations_of (data : Json) : result Json :=
  match data with
  | JArr _ => Return data
  | _ =>
      delegations_ <- get_prop data "delegations" ;;
      data_ <- get_prop data "data" ;;
      Return (or_value delegations_ (or_value data_ (JArr [])))
  end.

Definition failed (msg : string) : DelegationsResult :=
  {| delegations_success := false;
     delegations := None;
     delegations_message := Some msg |}.

Section Users.
Variable env : ProcessEnv.
Variable fetch : string -> FetchRequest -> result FetchResponse.
Variable JSON_parse : string -> result Json.
Variable Number_toString : Z -> string.

Definition getUserById (dynamicUserId : string) : result (option DynamicUser) :=
  match getCredentials env with
  | None =>
      Throw (Error "Environment ID and AuthToken are required. Please set DYNAMIC_ENVIRONMENT_ID and DYNAMIC_AUTH_TOKEN in .env file.")
  | Some credentials =>
      try_catch
        (response <- fetch (user_url credentials dynamicUserId)
                       (get_request credentials) ;;
         if negb (ok response) then
           if (response_status response =? 404)%nat then Return None
           else
             errorText <- response_text response ;;
             let errorData :=
               match JSON_parse errorText with
               | Return parsed => parsed
               | Throw _ => JObj []
               end in
             Throw (Error (js_String Number_toString
                             (errorMessage errorData errorText)))
         else
           userData <- response_json response ;;
           id_ <- get_prop userData "id" ;;
           email_ <- get_prop userData "email" ;;
           firstName_ <- get_prop userData "firstName" ;;
           lastName_ <- get_prop userData "lastName" ;;
           Return (Some {| user_id := or_value id_ (JStr dynamicUserId);
                           user_email := or_value email_ (JStr "");
                           firstName := firstName_;
                           lastName := lastName_ |}))
        (fun error => Throw error)
  end.

(** The body of the inner [try] of the two queries for one endpoint:
    [Return (Some r)] is [return r], [Return None] is the end of the
    iteration. *)
Definition try_delegations (request : FetchRequest) (apiUrl : string)
  : result (option DelegationsResult) :=
  response <- fetch apiUrl request ;;
  if ok response then
    data <- response_json response ;;
    delegations_ <- delegations_of data ;;
    Return (Some {| delegations_success := true;
                    delegations := Some delegations_;
                    delegations_message := None |})
  else Return None.

(** [for (const apiUrl of endpoints) { try { ... } catch { continue } }] *)
Fixpoint first_delegations (request : FetchRequest) (urls : list string)
  : option DelegationsResult :=
  match urls with
  | [] => None
  | apiUrl :: rest =>
      match try_catch (try_delegations request apiUrl)
                      (fun _ => Return None) with
      | Return (Some r) => Some r
      | _ => first_delegations request rest
      end
  end.

(** The common shape of the two queries. *)
Definition query_delegations (urls : DynamicCredentials -> list string)
  (nothing_found fallback : string) : result DelegationsResult :=
  match getCredentials env with
  | None => Return (failed "Environment ID and AuthToken are required")
  | Some credentials =>
      try_catch
        (Return
           match first_delegations (get_request credentials)
                   (urls credentials) with
           | Some r => r
           | None => failed nothing_found
           end)
        (fun error =>
           Return (failed (if truthy_string (message error)
                           then message error else fallback)))
  end.

Definition getUserDelegations (userId : string) : result DelegationsResult :=
  query_delegations (fun credentials =>
                       user_delegation_endpoints credentials userId)
    "No delegation endpoint available or user not found"
    "Failed to get user delegations".

Definition getWalletDelegations (walletId : string)
  : result DelegationsResult :=
  query_delegations (fun credentials =>
                       wallet_delegation_endpoints credentials walletId)
    "No delegation endpoint available or wallet not found"
    "Failed to get wallet delegations".

End Users.

End DynamicLabsUsers.

(** ** lib/store.ts: the vaults, and the listings of delegated accesses
       that are active *)

Module VaultStore.
Import Store.

Definition set_vaults (s : Store) (m : JsMap Json) : Store :=
  {| vaults := m; wallets := wallets s; users := users s;
     policies := policies s; delegatedAccesses := delegatedAccesses s |}.

Definition getVault (s : Store) (id_ : string) : option Json :=
  map_get (vaults s) id_.

Definition getAllVaults (s : Store) : list Json := map_values (vaults s).

Definition string_of_nat (n : nat) : string :=
  DecimalString.NilEmpty.string_of_uint (Nat.to_uint n).

Fixpoint indexed (n : nat) (l : list Json) : list (string * Json) :=
  match l with
  | [] => []
  | x :: rest => (string_of_nat n, x) :: indexed (S n) rest
  end.

Fixpoint characters (s : string) : list Json :=
  match s with
  | EmptyString => []
  | String c rest => JStr (String c EmptyString) :: characters rest
  end.

(** [createVault]: the vault goes under its [id], which the type [Vault]
    declares a string; the model is [None] for a vault whose [id] is not
    one. *)
Definition createVault (s : Store) (vault : Json) : option (Store * Json) :=
  match get_prop_opt (Some vault) "id" with
  | Some (JStr id_) =>
      Some (set_vaults s (map_set (vaults s) id_ vault), vault)
  | _ => None
  end.

(** The own properties that [{ ...j }] copies. *)
Definition own_entries (j : Json) : list (string * Json) :=
  match j with
  | JObj fields => fields
  | JArr items => indexed 0 items
  | JStr s => indexed 0 (characters s)
  | _ => []
  end.

(** [{ ...base, ...updates }] *)
Definition object_spread (base updates : list (string * Json))
  : list (string * Json) :=
  List.fold_left (fun acc kv => map_set acc (fst kv) (snd kv)) updates base.

Definition updateVault (s : Store) (id_ : string)
  (updates : list (string * Json)) : Store * option Json :=
  match map_get (vaults s) id_ with
  | None => (s, None)
  | Some vault =>
      if negb (truthy vault) then (s, None)
      else
        let updated := JObj (object_spread (own_entries vault) updates) in
        (set_vaults s (map_set (vaults s) id_ updated), Some updated)
  end.

(** [da.status === 'active'] *)
Definition is_active (da : DelegatedAccess) : bool :=
  match status da with
  | JStr st => String.eqb st "active"
  | _ => false
  end.

Definition getDelegatedAccessesByVaultId (s : Store) (vaultId_ : string)
  : list DelegatedAccess :=
  List.filter (fun da => String.eqb (vaultId da) vaultId_ && is_active da)
    (map_values (delegatedAccesses s)).

Definition getDelegatedAccessesByWalletId (s : Store) (walletId_ : string)
  : list DelegatedAccess :=
  List.filter (fun da => String.eqb (walletId da) walletId_ && is_active da)
    (map_values (delegatedAccesses s)).

Definition getDelegatedAccessesByDelegateEmail (s : Store)
  (delegateEmail_ : string) : list DelegatedAccess :=
  List.filter
    (fun da => String.eqb (delegateEmail da) delegateEmail_ && is_active da)
    (map_values (delegatedAccesses s)).

End VaultStore.

(** ** app/api/vaults/[id]/delegate/route.ts *)

Module DelegateRoute.
Import Store DelegatedAccessesApi DynamicLabsService DynamicLabsUsers VaultStore.

(** The body of the request, as its type declares it. *)
Record DelegateRequest : Type := {
  body_delegateEmail : option string;
  body_walletId : option string;
  body_webhookUrl : option string
}.

(** The fields of a vault that the route reads are, by the type [Vault], a
    string [id] and an array [delegateEmails]. *)
Definition vault_typed (v : Json) : bool :=
  match v with
  | JObj fields =>
      match assoc "id" fields, assoc "delegateEmails" fields with
      | Some (JStr _), Some (JArr _) => true
      | _, _ => false
      end
  | _ => false
  end.

(** [v.id] and [v.delegateEmails] of a vault so typed. *)
Definition vault_id (v : Json) : string :=
  match get_prop_opt (Some v) "id" with
  | Some (JStr k) => k
  | _ => ""
  end.

Definition vault_delegateEmails (v : Json) : list Json :=
  match get_prop_opt (Some v) "delegateEmails" with
  | Some (JArr emails) => emails
  | _ => []
  end.

(** [v.dynamicVaultId === params.id] *)
Definition has_dynamicVaultId (params_id : string) (v : Json) : bool :=
  match get_prop_opt (Some v) "dynamicVaultId" with
  | Some (JStr k) => String.eqb k params_id
  | _ => false
  end.

(** [emails.includes(delegateEmail)] *)
Definition includes (emails : list Json) (delegateEmail_ : string) : bool :=
  List.existsb (fun j => match j with
                         | JStr e => String.eqb e delegateEmail_
                         | _ => false
                         end) emails.

(** The vaults are stored as [createVault] stores them: each under its own
    [id], and a key holds one vault. *)
Definition vaults_keyed_by_id (s : Store) : Prop :=
  List.NoDup (map_keys (vaults s))
  /\ List.Forall (fun kv => vault_id (snd kv) = fst kv) (vaults s).

Definition error_response (code : nat) (fields : list (string * Json))
  : Response :=
  {| status_code := code; body := JObj fields |}.

Definition email_required : Response :=
  error_response 400 [("error", JStr "delegateEmail is required")].

Definition user_not_found (params_id : string) : Response :=
  error_response 404
    [("error", JStr "Vault not found in Dynamic Labs");
     ("note", JStr ("No user found with Dynamic Labs ID: " ++ params_id
                    ++ ". Please verify the ID is correct."))].

Definition already_delegated : Response :=
  error_response 400
    [("error", JStr "User already has delegate access");
     ("note", JStr "To trigger Dynamic Labs delegation, use the client-side SDK component.")].

Definition server_error (error : JsError) : Response :=
  error_response 500 [("error", JStr (message error))].

(** The delegation result as the response carries it. *)
Definition trigger_json (r : TriggerResult) : Json :=
  JObj ([("success", JBool (success r));
         ("message", JStr (trigger_message r))]
        ++ match delegationId r with
           | Some v => [("delegationId", v)]
           | None => []
           end
        ++ match requiresClientSide r with
           | Some b => [("requiresClientSide", JBool b)]
           | None => []
           end)%list.

(** [delegationResult?.success ? `... ${delegationResult.message}`
     : delegationResult?.message || (walletId ? with_wallet : without)] *)
Definition response_message (delegationResult : option TriggerResult)
  (walletId_ : option string) (with_wallet without : string) : string :=
  let fallback :=
    match walletId_ with Some _ => with_wallet | None => without end in
  match delegationResult with
  | Some r =>
      if success r
      then "✅ Delegation triggered successfully! " ++ trigger_message r
      else if truthy_string (trigger_message r) then trigger_message r
           else fallback
  | None => fallback
  end.

(** The keys the two answers of success share. *)
Definition common_fields (params_id : string) (dynamicUser : DynamicUser)
  (delegateEmail_ : string) (walletId_ : option string)
  (delegationResult : option TriggerResult) : list (string * Json) :=
  ([("dynamicUserId", JStr params_id);
    ("dynamicUserEmail", user_email dynamicUser);
    ("delegateEmail", JStr delegateEmail_)]
   ++ match walletId_ with Some w => [("walletId", JStr w)] | None => [] end
   ++ match delegationResult with
      | Some r => [("delegation", trigger_json r)]
      | None => []
      end)%list.

Section Route.
Variable env : ProcessEnv.
Variable fetch : string -> FetchRequest -> result FetchResponse.
Variable JSON_parse : string -> result Json.
Variable Number_toString : Z -> string.

(** [Date.now()] in digits and [new Date().toISOString()], at the time of the
    request. *)
Variable now : string.
Variable createdAt_ : string.

(** The [try { ... triggerDelegation ... } catch] of the route, for a wallet
    id that is given. *)
Definition trigger (walletId_ delegateEmail_ : string)
  (webhookUrl_ : option string) : TriggerResult :=
  match triggerDelegation env fetch walletId_ delegateEmail_ webhookUrl_ with
  | Return r => r
  | Throw error =>
      {| success := false; trigger_message := message error;
         delegationId := None; requiresClientSide := None |}
  end.

(** The route after the user was found in Dynamic Labs. *)
Definition delegate (s : Store) (params_id : string)
  (dynamicUser : DynamicUser) (delegateEmail_ : string)
  (body_ : DelegateRequest) : Store * Response :=
  let localVault :=
    List.find (has_dynamicVaultId params_id) (getAllVaults s) in
  if match localVault with
     | Some v => includes (vault_delegateEmails v) delegateEmail_
     | None => false
     end
  then (s, already_delegated)
  else
    let walletId_ := or_else truthy_string (body_walletId body_) None in
    let delegationResult :=
      match walletId_ with
      | Some w => Some (trigger w delegateEmail_ (body_webhookUrl body_))
      | None => None
      end in
    match localVault with
    | Some v =>
        let updatedDelegateEmails :=
          if includes (vault_delegateEmails v) delegateEmail_
          then vault_delegateEmails v
          else (vault_delegateEmails v ++ [JStr delegateEmail_])%list in
        let (s1, updatedVault) :=
          updateVault s (vault_id v)
            [("delegateEmails", JArr updatedDelegateEmails)] in
        let s2 :=
          match walletId_ with
          | Some w =>
              fst (createDelegatedAccess s1
                     (tempDelegation now createdAt_ (vault_id v) w params_id
                        delegateEmail_))
          | None => s1
          end in
        (s2,
         json_ok
           (JObj (common_fields params_id dynamicUser delegateEmail_ walletId_
                    delegationResult
                  ++ [("message",
                       JStr (response_message delegationResult walletId_
                               "✅ Vault verified. Use client-side SDK below to trigger Dynamic Labs delegation flow."
                               "✅ Delegate access stored locally. For Dynamic Labs delegation, use client-side SDK component."))]
                  ++ match updatedVault with
                     | Some u => [("localVault", u)]
                     | None => []
                     end)%list))
    | None =>
        let s1 :=
          match walletId_ with
          | Some w =>
              fst (createDelegatedAccess s
                     (tempDelegation now createdAt_ "" w params_id
                        delegateEmail_))
          | None => s
          end in
        (s1,
         json_ok
           (JObj (common_fields params_id dynamicUser delegateEmail_ walletId_
                    delegationResult
                  ++ [("message",
                       JStr (response_message delegationResult walletId_
                               "✅ Vault verified in Dynamic Labs. Use client-side SDK below to trigger delegation flow."
                               "✅ Vault verified in Dynamic Labs. For Dynamic Labs delegation, use client-side SDK component."));
                      ("note",
                       JStr "No local vault record found. Delegation will be tracked via Dynamic Labs webhook.")])%list))
    end.

(** POST /api/vaults/[id]/delegate; [request_json] is the outcome of
    [await request.json()]. The model covers the stores whose vaults are
    typed as [Vault] declares, and is [None] on the others. *)
Definition POST (s : Store) (params_id : string)
  (request_json : result DelegateRequest) : option (Store * Response) :=
  if negb (List.forallb vault_typed (getAllVaults s)) then None
  else Some
    match request_json with
    | Throw error => (s, server_error error)
    | Return body_ =>
        match or_else truthy_string (body_delegateEmail body_) None with
        | None => (s, email_required)
        | Some delegateEmail_ =>
            match getUserById env fetch JSON_parse Number_toString
                    params_id with
            | Throw error => (s, server_error error)
            | Return None => (s, user_not_found params_id)
            | Return (Some dynamicUser) =>
                delegate s params_id dynamicUser delegateEmail_ body_
            end
        end
    end.

End Route.

End DelegateRoute.

(** ** components/PendingTransactions.tsx: what the list shows for a
       transaction *)

Module PendingView.
Import AddressCodec PendingTransactions.

(** The three conditions the buttons of a transaction hang on. *)
Record Buttons : Type := {
  hasSigned : bool;
  canSign : bool;
  canExecute : bool
}.

Section View.
Variable keccak256 : string -> list Z.
Variable session : Session.

(** [viemAccount ? getAddress(viemAccount.address) : null] *)
Definition currentAddress : result (option string) :=
  match viemAccount session with
  | Some account =>
      a <- getAddress keccak256 (address account) ;; Return (Some a)
  | None => Return None
  end.

(** [currentAddress && owners.includes(currentAddress)], as a condition *)
Definition isOwner (current : option string) : bool :=
  match current with
  | Some a =>
      truthy_string a && List.existsb (String.eqb a) (owners session)
  | None => false
  end.

(** The body of [pendingTxs.map((tx) => ...)] up to the three conditions. *)
Definition buttons (current : option string) (tx : SafeTransaction)
  : result Buttons :=
  let confirmations_ := confirmations_or_empty tx in
  let confirmationsCount := List.length confirmations_ in
  hasSigned_ <- match current with
                | Some a =>
                    if truthy_string a
                    then hasAlreadySigned keccak256 a confirmations_
                    else Return false
                | None => Return false
                end ;;
  Return {| hasSigned := hasSigned_;
            canSign := isOwner current && negb hasSigned_;
            canExecute := (threshold session <=? confirmationsCount)%nat |}.

End View.

End PendingView.

(** ** lib/services/dynamicLabsService.ts:
       [convertPolicyToDynamicLabsFormat] *)

Module PolicyFormat.
Import JsText.

(** [policyConfig.chainIds || [1, 11155111, 137]] *)
Definition chainIds_of (chainIds_ : option Json) : Json :=
  or_value chainIds_ (JArr [JNum 1; JNum 11155111; JNum 137]).

(** [walletAddress ? [walletAddress] : []] *)
Definition addresses_of (walletAddress : option string) : Json :=
  match or_else truthy_string walletAddress None with
  | Some a => JArr [JStr a]
  | None => JArr []
  end.

(** A key whose value is [undefined] is left out, as the serialisation of
    the request does. *)
Definition optional (key : string) (v : option Json) : list (string * Json) :=
  match v with
  | Some j => [(key, j)]
  | None => []
  end.

(** The five keys every rule starts with. *)
Definition rule (name_ chainIds_ : Json) (walletAddress : option string)
  : list (string * Json) :=
  [("name", name_);
   ("ruleType", JStr "allow");
   ("chain", JStr "EVM");
   ("chainIds", chainIds_);
   ("addresses", addresses_of walletAddress)].

Section Convert.
Variable Number_toString : Z -> string.

(** The rule is given as it is serialised; [Return None] is [null]. *)
Definition convertPolicyToDynamicLabsFormat (policyType : string)
  (policyConfig : Json) (walletAddress : option string)
  : result (option Json) :=
  if String.eqb policyType "spending_limit" then
    name_ <- get_prop policyConfig "name" ;;
    spendingLimit_ <- get_prop policyConfig "spendingLimit" ;;
    asset_ <- get_prop policyConfig "asset" ;;
    chainIds_ <- get_prop policyConfig "chainIds" ;;
    currency_ <- get_prop policyConfig "currency" ;;
    timeWindow_ <- get_prop policyConfig "timeWindow" ;;
    let ruleName :=
      or_value name_
        (JStr ("Spending Limit: "
               ++ js_String Number_toString
                    (or_value spendingLimit_ (JStr "N/A")))) in
    let valueLimit :=
      match or_else truthy spendingLimit_ None with
      | Some limit =>
          (optional "asset" (or_else truthy asset_ None)
           ++ [("maxPerCall", JStr (js_String Number_toString limit))])%list
      | None => []
      end in
    Return (Some (JObj
      (rule ruleName (chainIds_of chainIds_) walletAddress
       ++ match valueLimit with
          | [] => []
          | _ :: _ => [("valueLimit", JObj valueLimit)]
          end
       ++ match or_else truthy currency_ (or_else truthy timeWindow_ None) with
          | Some _ =>
              [("metadata",
                JObj [("currency", or_value currency_ (JStr "USD"));
                      ("timeWindow", or_value timeWindow_ (JStr "daily"))])]
          | None => []
          end)%list))
  else if String.eqb policyType "multi_sig" then
    name_ <- get_prop policyConfig "name" ;;
    requiredSignatures_ <- get_prop policyConfig "requiredSignatures" ;;
    totalSigners_ <- get_prop policyConfig "totalSigners" ;;
    chainIds_ <- get_prop policyConfig "chainIds" ;;
    Return (Some (JObj
      (rule (or_value name_
               (JStr ("Multi-Sig: "
                      ++ template Number_toString requiredSignatures_ ++ "/"
                      ++ template Number_toString totalSigners_)))
            (chainIds_of chainIds_) walletAddress
       ++ [("metadata",
            JObj (optional "requiredSignatures" requiredSignatures_
                  ++ optional "totalSigners" totalSigners_)%list)])%list))
  else if String.eqb policyType "time_lock" then
    name_ <- get_prop policyConfig "name" ;;
    timeLockDuration_ <- get_prop policyConfig "timeLockDuration" ;;
    chainIds_ <- get_prop policyConfig "chainIds" ;;
    timeWindow_ <- get_prop policyConfig "timeWindow" ;;
    Return (Some (JObj
      (rule (or_value name_
               (JStr ("Time Lock: "
                      ++ template Number_toString timeLockDuration_ ++ "s")))
            (chainIds_of chainIds_) walletAddress
       ++ [("metadata",
            JObj (optional "timeLockDuration" timeLockDuration_
                  ++ optional "timeWindow" timeWindow_)%list)])%list))
  else if String.eqb policyType "approval_required" then
    name_ <- get_prop policyConfig "name" ;;
    chainIds_ <- get_prop policyConfig "chainIds" ;;
    Return (Some (JObj
      (rule (or_value name_ (JStr "Approval Required"))
            (chainIds_of chainIds_) walletAddress
       ++ [("metadata", JObj [("requiresApproval", JBool true)])])%list))
  else Return None.

End Convert.

End PolicyFormat.

(** ** More sample values *)

Module Scenarios.
Import Samples DynamicLabsService DynamicLabsUsers DelegateRoute.
Import PendingTransactions.

(** The network is down. *)
Definition fetch_down (apiUrl : string) (request : FetchRequest)
  : result FetchResponse :=
  Throw (TypeError "fetch failed").

Definition answer (code : nat) (body_ : Json) : FetchResponse :=
  {| response_status := code;
     response_json := Return body_;
     response_text := Return "" |}.

(** Of the delegation endpoints of wallet-1 only the second exists. *)
Definition waas_url : string :=
  "https://app.dynamic.xyz/api/v0/environments/env-1/waas/wallets/wallet-1/delegate".

Definition fetch_waas (apiUrl : string) (request : FetchRequest)
  : result FetchResponse :=
  if String.eqb apiUrl waas_url
  then Return (answer 200 (JObj [("id", JStr "delegation-1")]))
  else fetch_404 apiUrl request.

(** Dynamic Labs knows user-1 and has no delegation endpoint. *)
Definition known_user : FetchResponse :=
  answer 200 (JObj [("firstName", JStr "Ada")]).

Definition fetch_user (apiUrl : string) (request : FetchRequest)
  : result FetchResponse :=
  if String.eqb apiUrl
       "https://app.dynamic.xyz/api/v0/environments/env-1/users/user-1"
  then Return known_user
  else fetch_404 apiUrl request.

Definition parse_nothing (s : string) : result Json :=
  Throw (mkError "SyntaxError" "Unexpected token").

Definition digits (z : Z) : string :=
  DecimalString.NilZero.string_of_int (Z.to_int z).

Definition sample_vault : Json :=
  JObj [("id", JStr "vault-1");
        ("dynamicVaultId", JStr "user-1");
        ("delegateEmails", JArr [])].

Definition store_with_vault : Store.Store :=
  {| Store.vaults := [("vault-1", sample_vault)];
     Store.wallets := [];
     Store.users := [];
     Store.policies := [];
     Store.delegatedAccesses := [] |}.

Definition delegate_request : DelegateRequest :=
  {| body_delegateEmail := Some "delegate@example.org";
     body_walletId := Some "wallet-1";
     body_webhookUrl := None |}.

(** The store and the answer after the sample request. *)
Definition delegated : Store.Store * DelegatedAccessesApi.Response :=
  match POST sample_env fetch_user parse_nothing digits "1700000000000"
          "2023-11-14T22:13:20.000Z" store_with_vault "user-1"
          (Return delegate_request) with
  | Some out => out
  | None => (store_with_vault, email_required)
  end.


(** A confirmation whose owner is no address, and that has no signature. *)
Definition malformed : Confirmation := {| owner := "0x123"; signature := "" |}.

(** The error of normalising the owners of [byA] and [malformed]. *)
Definition malformed_error : JsError :=
  match signatures_of sample_keccak256 [byA; malformed] with
  | Throw e => e
  | Return _ => Error ""
  end.

End Scenarios.

(** ** SignatureBundler (specification, section 4.3) *)

Module SignatureBundler.
Import PendingTransactions.

(** Modelled from the spec: the assembling of the signature bundle is not
    part of the sources; the execute handler hands the signatures to the Safe
    SDK one by one and leaves the bundle to [executeTransaction]. Section 4.3
    describes it in three steps, of which this is the first: deduplicate by
    owner address, keeping the most recent confirmation of an owner. A
    signature is the pair of its owner, normalised, and its bytes, and the
    list is in the order in which the signatures were handed over. *)
Fixpoint dedupe (sigs : list (string * string)) : list (string * string) :=
  match sigs with
  | [] => []
  | sg :: rest =>
      if List.existsb (fun later => String.eqb (fst later) (fst sg)) rest
      then dedupe rest
      else sg :: dedupe rest
  end.

(** Modelled from the spec: the second step of section 4.3, sort ascending
    by the numeric value of the normalised owner address; here the insertion
    of one signature into a list so sorted. *)
Fixpoint insert_by_address (sg : string * string)
  (sorted : list (string * string)) : list (string * string) :=
  match sorted with
  | [] => [sg]
  | x :: rest =>
      if (address_value (fst sg) <=? address_value (fst x))%N
      then sg :: x :: rest
      else x :: insert_by_address sg rest
  end.

(** Modelled from the spec: the sort of section 4.3, by insertion. *)
Definition sort_by_address (sigs : list (string * string))
  : list (string * string) :=
  List.fold_right insert_by_address [] sigs.

(** Modelled from the spec: the signatures in the order in which section 4.3
    puts them into the bundle. *)
Definition bundle_order (sigs : list (string * string))
  : list (string * string) :=
  sort_by_address (dedupe sigs).

(** Modelled from the spec: the third step of section 4.3, concatenate the
    signature bytes in that order. *)
Definition bundle (sigs : list (string * string)) : string :=
  String.concat "" (List.map snd (bundle_order sigs)).

(** One signature goes strictly before another in the bundle. *)
Definition before (x y : string * string) : Prop :=
  (address_value (fst x) < address_value (fst y))%N.


End SignatureBundler.

(* ===================================================================== *)
(** * Part II: theorems                                                   *)
(* ===================================================================== *)

Section AddressFacts.
Import AddressCodec.
Variable keccak256 : string -> list Z.

Lemma lower_upper_ascii (c : ascii) :
  lower_ascii (upper_ascii c) = lower_ascii c.
Proof.
  destruct c as [[] [] [] [] [] [] [] []]; reflexivity.
Qed.

Lemma lower_lower_ascii (c : ascii) :
  lower_ascii (lower_ascii c) = lower_ascii c.
Proof.
  destruct c as [[] [] [] [] [] [] [] []]; reflexivity.
Qed.

Lemma hex_upper_ascii (c : ascii) :
  is_hex_digit c = true -> is_hex_digit (upper_ascii c) = true.
Proof.
  destruct c as [[] [] [] [] [] [] [] []]; vm_compute; congruence.
Qed.

Lemma hex_lower_ascii (c : ascii) :
  is_hex_digit c = true -> is_hex_digit (lower_ascii c) = true.
Proof.
  destruct c as [[] [] [] [] [] [] [] []]; vm_compute; congruence.
Qed.

End AddressFacts.

Section AddressTheorems.
Import AddressCodec.
Variable keccak256 : string -> list Z.

Lemma toLowerCase_idem (s : string) :
  toLowerCase (toLowerCase s) = toLowerCase s.
Proof.
  unfold toLowerCase.
  induction s as [|c s IH]; simpl; [reflexivity|].
  now rewrite lower_lower_ascii, IH.
Qed.

Lemma all_hex_toLowerCase (s : string) :
  all_hex s = true -> all_hex (toLowerCase s) = true.
Proof.
  unfold toLowerCase.
  induction s as [|c s IH]; simpl; [reflexivity|].
  rewrite !andb_true_iff. intros [Hc Hs].
  split; [now apply hex_lower_ascii | now apply IH].
Qed.

Lemma length_toLowerCase (s : string) :
  String.length (toLowerCase s) = String.length s.
Proof. unfold toLowerCase. induction s as [|c s IH]; simpl; congruence. Qed.

(** The checksum loop only changes the case of characters. *)
Lemma toLowerCase_checksum_loop (n : nat) :
  forall hash s, toLowerCase (checksum_loop n hash s) = toLowerCase s.
Proof.
  unfold toLowerCase.
  induction n as [|n IH]; intros hash s.
  - destruct s; reflexivity.
  - destruct s as [|c1 [|c2 rest]]; simpl; [reflexivity| |].
    + destruct (8 <=? _)%Z; now rewrite ?lower_upper_ascii.
    + rewrite IH.
      destruct (8 <=? Z.shiftr _ 4)%Z, (8 <=? Z.land _ 15)%Z;
        now rewrite ?lower_upper_ascii.
Qed.

Lemma length_checksum_loop (n : nat) :
  forall hash s, String.length (checksum_loop n hash s) = String.length s.
Proof.
  induction n as [|n IH]; intros hash s.
  - destruct s; reflexivity.
  - destruct s as [|c1 [|c2 rest]]; simpl; [reflexivity | reflexivity |].
    now rewrite IH.
Qed.

Lemma all_hex_checksum_loop (n : nat) :
  forall hash s, all_hex s = true -> all_hex (checksum_loop n hash s) = true.
Proof.
  induction n as [|n IH]; intros hash s Hs.
  - destruct s; exact Hs.
  - destruct s as [|c1 [|c2 rest]]; simpl in *; [reflexivity| |].
    + rewrite andb_true_r in *.
      destruct (8 <=? _)%Z; [now apply hex_upper_ascii | exact Hs].
    + apply andb_true_iff in Hs as [H1 Hs].
      apply andb_true_iff in Hs as [H2 Hs].
      rewrite (IH _ _ Hs), andb_true_r.
      apply andb_true_iff; split.
      * destruct (8 <=? Z.shiftr _ 4)%Z; [now apply hex_upper_ascii | exact H1].
      * destruct (8 <=? Z.land _ 15)%Z; [now apply hex_upper_ascii | exact H2].
Qed.

(** What the regular expression accepts: [0x] followed by 40 hexadecimal
    digits, i.e. a 20-byte hex identifier. *)
Lemma isAddress_spec (raw : string) :
  isAddress raw = true <->
  exists digits, raw = "0x" ++ digits /\ String.length digits = 40
                 /\ all_hex digits = true.
Proof.
  unfold isAddress, addressRegex_test. split.
  - destruct raw as [|a [|b digits]]; try discriminate.
    rewrite !andb_true_iff, Nat.eqb_eq, !Ascii.eqb_eq.
    intros [[[-> ->] Hl] Hh].
    exists digits. auto.
  - intros (digits & -> & Hl & Hh). simpl.
    now rewrite Hl, Hh.
Qed.

Lemma isAddress_checksumAddress (raw : string) :
  isAddress raw = true -> isAddress (checksumAddress keccak256 raw) = true.
Proof.
  intros H. apply isAddress_spec in H as (digits & -> & Hl & Hh).
  apply isAddress_spec.
  exists (checksum_loop 20 (keccak256 (toLowerCase digits)) (toLowerCase digits)).
  split; [reflexivity|]. split.
  - now rewrite length_checksum_loop, length_toLowerCase.
  - now apply all_hex_checksum_loop, all_hex_toLowerCase.
Qed.

Lemma checksumAddress_idem (raw : string) :
  isAddress raw = true ->
  checksumAddress keccak256 (checksumAddress keccak256 raw)
  = checksumAddress keccak256 raw.
Proof.
  intros H. apply isAddress_spec in H as (digits & -> & _ & _).
  unfold checksumAddress.
  change (substring2 ("0x" ++ digits)) with digits.
  set (d := toLowerCase digits).
  change (substring2 ("0x" ++ checksum_loop 20 (keccak256 d) d))
    with (checksum_loop 20 (keccak256 d) d).
  rewrite toLowerCase_checksum_loop. subst d.
  now rewrite toLowerCase_idem.
Qed.

(** C7. Normalisation is idempotent on every address it accepts, it accepts
    exactly the well-formed 20-byte hex identifiers, and on anything else it
    throws InvalidAddress instead of returning an address. *)
Theorem getAddress_idempotent_or_invalid (raw : string) :
  (forall a, getAddress keccak256 raw = Return a ->
             getAddress keccak256 a = Return a)
  /\ (isAddress raw = true ->
      exists a, getAddress keccak256 raw = Return a
                /\ getAddress keccak256 (a) = getAddress keccak256 raw)
  /\ (isAddress raw = false ->
      getAddress keccak256 raw = Throw (InvalidAddressError raw)).
Proof.
  unfold getAddress. repeat split.
  - intros a. destruct (isAddress raw) eqn:E; [|discriminate].
    intros [= <-].
    now rewrite isAddress_checksumAddress, checksumAddress_idem.
  - intros E. rewrite E. eexists; split; [reflexivity|].
    now rewrite isAddress_checksumAddress, checksumAddress_idem.
  - intros E. now rewrite E.
Qed.

End AddressTheorems.

(** ** EnvelopeCrypto: the two-stage decryption *)

Section EnvelopeFacts.
Import DelegationService.
Variable C : NodeCrypto.

(** [decryptAesGcm] returns exactly when the cipher and the tag are accepted
    and the tag verifies over the whole ciphertext; what it returns is then
    the stream's output. *)
Lemma decryptAesGcm_Return (key : bytes) (ivB64 ctB64 tagB64 : string)
  (plaintext : bytes) :
  decryptAesGcm C key ivB64 ctB64 tagB64 = Return plaintext ->
  gcm_tag_ok C key (from_base64url C ivB64) (from_base64url C ctB64)
    (from_base64url C tagB64) = true
  /\ plaintext
     = gcm_stream C key (from_base64url C ivB64) (from_base64url C ctB64).
Proof.
  unfold decryptAesGcm, createDecipheriv, setAuthTag, update, final, bind.
  destruct (cipher_init C key _); [|discriminate].
  destruct (auth_tag_init C _); [|discriminate]. simpl.
  destruct (gcm_tag_ok C key _ _ _); [|discriminate].
  intros [= <-]. now rewrite app_nil_r.
Qed.

(** When the tag does not verify, [update] has already produced its bytes,
    but [final] throws and they are dropped: the outcome is an exception
    that does not depend on the stream. *)
Lemma decryptAesGcm_tag_mismatch (key : bytes) (ivB64 ctB64 tagB64 : string) :
  gcm_tag_ok C key (from_base64url C ivB64) (from_base64url C ctB64)
    (from_base64url C tagB64) = false ->
  exists e, forall stream,
    decryptAesGcm (with_stream C stream) key ivB64 ctB64 tagB64 = Throw e.
Proof.
  intros Htag.
  unfold decryptAesGcm, createDecipheriv, setAuthTag, update, final, bind.
  simpl.
  destruct (cipher_init C key _); [|eexists; reflexivity].
  destruct (auth_tag_init C _); [|eexists; reflexivity]. simpl.
  rewrite Htag. eexists; reflexivity.
Qed.

(** Whether [decryptAesGcm] throws, and what, never depends on the stream. *)
Lemma decryptAesGcm_outcome (key : bytes) (ivB64 ctB64 tagB64 : string) :
  (exists e, forall stream,
     decryptAesGcm (with_stream C stream) key ivB64 ctB64 tagB64 = Throw e)
  \/ (forall stream, exists p,
        decryptAesGcm (with_stream C stream) key ivB64 ctB64 tagB64
        = Return p).
Proof.
  unfold decryptAesGcm, createDecipheriv, setAuthTag, update, final, bind.
  simpl.
  destruct (cipher_init C key _); [|left; eexists; reflexivity].
  destruct (auth_tag_init C _); [|left; eexists; reflexivity]. simpl.
  destruct (gcm_tag_ok C key _ _ _).
  - right. intros stream. eexists; reflexivity.
  - left. eexists; reflexivity.
Qed.

Lemma with_stream_same (key : bytes) (ivB64 ctB64 tagB64 : string) :
  decryptAesGcm
    (with_stream C (gcm_stream C)) key ivB64 ctB64 tagB64
  = decryptAesGcm C key ivB64 ctB64 tagB64.
Proof. reflexivity. Qed.

Lemma rsaOaepDecryptEk_Return (pem ekB64 : string) (key : bytes) :
  rsaOaepDecryptEk C pem ekB64 = Return key ->
  privateDecrypt C (replace_escaped_newlines pem) (from_base64url C ekB64)
  = Return key.
Proof.
  unfold rsaOaepDecryptEk, try_catch.
  destruct (privateDecrypt C _ _); [tauto | discriminate].
Qed.

Lemma rsaOaepDecryptEk_with_stream (stream : bytes -> bytes -> bytes -> bytes)
  (pem ekB64 : string) :
  rsaOaepDecryptEk (with_stream C stream) pem ekB64
  = rsaOaepDecryptEk C pem ekB64.
Proof. reflexivity. Qed.

(** C1. [decryptMaterials] returns only when, for both envelopes, the
    RSA-OAEP unwrap succeeded and the GCM tag verified; and when the tag of
    either envelope does not verify it throws, with an error that is the same
    whatever bytes [update] had already produced, so that no plaintext, not
    even a partial one, reaches the caller. *)
Theorem decryptMaterials_needs_unwrap_and_tag (privateKeyPem : string)
  (share apiKeyEnc : EncryptedPayload) :
  (forall m, decryptMaterials C privateKeyPem share apiKeyEnc = Return m ->
     unwraps C privateKeyPem share = true
     /\ unwraps C privateKeyPem apiKeyEnc = true
     /\ tag_verifies C privateKeyPem share = true
     /\ tag_verifies C privateKeyPem apiKeyEnc = true)
  /\ (tag_verifies C privateKeyPem share = false
      \/ tag_verifies C privateKeyPem apiKeyEnc = false ->
      exists e, forall stream,
        decryptMaterials (with_stream C stream) privateKeyPem share apiKeyEnc
        = Throw e).
Proof.
  split.
  - intros m. unfold decryptMaterials, try_catch, bind.
    destruct (rsaOaepDecryptEk C _ (ek share)) as [k1|] eqn:E1; [|discriminate].
    destruct (rsaOaepDecryptEk C _ (ek apiKeyEnc)) as [k2|] eqn:E2;
      [|discriminate].
    destruct (decryptAesGcm C k1 _ _ _) as [p1|] eqn:G1; [|discriminate].
    destruct (decryptAesGcm C k2 _ _ _) as [p2|] eqn:G2; [|discriminate].
    intros _.
    apply rsaOaepDecryptEk_Return in E1, E2.
    apply decryptAesGcm_Return in G1 as [G1 _], G2 as [G2 _].
    unfold unwraps, tag_verifies, unwrapped_key.
    now rewrite E1, E2, G1, G2.
  - unfold tag_verifies, unwrapped_key. intros H.
    destruct (privateDecrypt C _ (from_base64url C (ek share)))
      as [k1|e1] eqn:E1.
    2:{ eexists. intros stream.
        unfold decryptMaterials. cbv zeta.
        rewrite rsaOaepDecryptEk_with_stream.
        unfold rsaOaepDecryptEk at 1. cbv zeta. rewrite E1. reflexivity. }
    destruct (privateDecrypt C _ (from_base64url C (ek apiKeyEnc)))
      as [k2|e2] eqn:E2.
    2:{ eexists. intros stream.
        unfold decryptMaterials. cbv zeta.
        rewrite !rsaOaepDecryptEk_with_stream.
        unfold rsaOaepDecryptEk. cbv zeta. rewrite E1, E2. reflexivity. }
    assert (Hkeys : forall stream,
      decryptMaterials (with_stream C stream) privateKeyPem share apiKeyEnc
      = try_catch
          (p1 <- decryptAesGcm (with_stream C stream) k1 (iv share) (ct share)
                   (tag share) ;;
           p2 <- decryptAesGcm (with_stream C stream) k2 (iv apiKeyEnc)
                   (ct apiKeyEnc) (tag apiKeyEnc) ;;
           j <- JSON_parse C (toString_utf8 C p1) ;;
           Return {| delegatedShare := j;
                     walletApiKey := toString_utf8 C p2 |})
          (fun error =>
             Throw (Error ("Failed to decrypt delegation materials: "
                           ++ message error)))).
    { intros stream. unfold decryptMaterials. cbv zeta.
      rewrite !rsaOaepDecryptEk_with_stream.
      unfold rsaOaepDecryptEk. cbv zeta. rewrite E1, E2. reflexivity. }
    destruct (gcm_tag_ok C k1 (from_base64url C (iv share)) _ _) eqn:T1.
    + destruct H as [H|H]; [discriminate|].
      destruct (decryptAesGcm_tag_mismatch k2 _ _ _ H) as [e He].
      destruct (decryptAesGcm_outcome k1 (iv share) (ct share) (tag share))
        as [[e1 He1]|Hp1].
      * exists (Error ("Failed to decrypt delegation materials: "
                       ++ message e1)).
        intros stream. rewrite Hkeys. unfold bind, try_catch.
        now rewrite He1.
      * exists (Error ("Failed to decrypt delegation materials: "
                       ++ message e)).
        intros stream. rewrite Hkeys. unfold bind, try_catch.
        destruct (Hp1 stream) as [p1 ->]. now rewrite He.
    + destruct (decryptAesGcm_tag_mismatch k1 _ _ _ T1) as [e He].
      exists (Error ("Failed to decrypt delegation materials: " ++ message e)).
      intros stream. rewrite Hkeys. unfold bind, try_catch. now rewrite He.
Qed.

End EnvelopeFacts.

(** ** The insertion-ordered map *)

Section MapFacts.
Variable V : Type.
Implicit Types (m : JsMap V) (k : string) (v : V).

Lemma map_get_set_same m k v : map_get (map_set m k v) k = Some v.
Proof.
  unfold map_get. induction m as [|[k' v'] m IH]; simpl.
  - now rewrite String.eqb_refl.
  - destruct (String.eqb k k') eqn:E; simpl; rewrite E; [reflexivity | exact IH].
Qed.

Lemma map_get_set_other m k k' v :
  k' <> k -> map_get (map_set m k v) k' = map_get m k'.
Proof.
  unfold map_get. intros Hne.
  assert (Hkk : String.eqb k' k = false) by now apply String.eqb_neq.
  induction m as [|[k0 v0] m IH]; simpl.
  - now rewrite Hkk.
  - destruct (String.eqb k k0) eqn:E; simpl.
    + apply String.eqb_eq in E. subst k0. now rewrite Hkk.
    + now rewrite IH.
Qed.

Lemma map_keys_set_present m k v v0 :
  map_get m k = Some v0 -> map_keys (map_set m k v) = map_keys m.
Proof.
  unfold map_get, map_keys. induction m as [|[k' v'] m IH]; simpl.
  - discriminate.
  - destruct (String.eqb k k') eqn:E; simpl; [reflexivity|].
    intros H. now rewrite IH.
Qed.

Lemma map_set_same_value m k v : map_get m k = Some v -> map_set m k v = m.
Proof.
  unfold map_get. induction m as [|[k' v'] m IH]; simpl.
  - discriminate.
  - destruct (String.eqb k k') eqn:E.
    + now intros [= ->].
    + intros H. now rewrite IH.
Qed.

(** Setting a key adds at most the new value to the values that satisfy a
    predicate. *)
Lemma filter_values_set_le (p : V -> bool) m k v :
  List.length (List.filter p (map_values (map_set m k v)))
  <= List.length (List.filter p (map_values m)) + (if p v then 1 else 0).
Proof.
  unfold map_values. induction m as [|[k' v'] m IH]; simpl.
  - destruct (p v); simpl; lia.
  - destruct (String.eqb k k'); simpl.
    + destruct (p v), (p v'); simpl; lia.
    + destruct (p v'); simpl; lia.
Qed.

(** Replacing the value of a key by one that the predicate judges alike
    leaves the count unchanged. *)
Lemma filter_values_set_alike (p : V -> bool) m k v v0 :
  map_get m k = Some v0 -> p v = p v0 ->
  List.length (List.filter p (map_values (map_set m k v)))
  = List.length (List.filter p (map_values m)).
Proof.
  unfold map_values, map_get. intros Hget Hp.
  induction m as [|[k' v'] m IH]; simpl in *.
  - discriminate.
  - destruct (String.eqb k k'); simpl.
    + injection Hget as Hv. subst v'. rewrite Hp.
      now destruct (p v0).
    + destruct (p v'); simpl; now rewrite IH.
Qed.

(** Appending when nothing satisfied the predicate: exactly the new value
    does, if it does. *)
Lemma filter_values_set_fresh (p : V -> bool) m k v :
  List.filter p (map_values m) = [] -> p v = true ->
  List.length (List.filter p (map_values (map_set m k v))) = 1.
Proof.
  unfold map_values. intros Hnone Hp.
  induction m as [|[k' v'] m IH]; simpl in *.
  - now rewrite Hp.
  - destruct (p v') eqn:E; [discriminate|].
    destruct (String.eqb k k'); simpl.
    + now rewrite Hp, Hnone.
    + rewrite E. now apply IH.
Qed.

Lemma find_values_set_fresh (p : V -> bool) m k v :
  List.filter p (map_values m) = [] -> p v = true ->
  List.find p (map_values (map_set m k v)) = Some v.
Proof.
  unfold map_values. intros Hnone Hp.
  induction m as [|[k' v'] m IH]; simpl in *.
  - now rewrite Hp.
  - destruct (p v') eqn:E; [discriminate|].
    destruct (String.eqb k k'); simpl.
    + now rewrite Hp.
    + rewrite E. now apply IH.
Qed.

End MapFacts.

Lemma find_none_filter_nil (A : Type) (p : A -> bool) (l : list A) :
  List.find p l = None -> List.filter p l = [].
Proof.
  induction l as [|a l IH]; simpl; [reflexivity|].
  destruct (p a); [discriminate | exact IH].
Qed.

Lemma find_some_filter_cons (A : Type) (p : A -> bool) (l : list A) (a : A) :
  List.find p l = Some a -> exists rest, List.filter p l = a :: rest.
Proof.
  induction l as [|b l IH]; simpl; [discriminate|].
  destruct (p b).
  - intros [= ->]. now eexists.
  - exact IH.
Qed.

(** ** WebhookLedger: one record per event id *)

Section LedgerFacts.
Import Store DelegatedAccessesApi.

Lemma spread_only_status (da : DelegatedAccess) (st : Json) :
  spread da (only_status st) = with_status da st.
Proof. reflexivity. Qed.

Lemma with_status_same (da : DelegatedAccess) : with_status da (status da) = da.
Proof. now destruct da. Qed.

Lemma set_delegatedAccesses_same (s : Store) :
  set_delegatedAccesses s (delegatedAccesses s) = s.
Proof. now destruct s. Qed.

(** What PATCH does to the store: nothing, or a new status for the record
    it addresses. *)
Lemma PATCH_store (s : Store) (i : string) (req : result Json) :
  fst (PATCH s i req) = s
  \/ exists da st,
       getDelegatedAccess s i = Some da
       /\ fst (PATCH s i req)
          = set_delegatedAccesses s
              (map_set (delegatedAccesses s) i (with_status da st)).
Proof.
  unfold PATCH.
  destruct (body_ <- req ;; get_prop body_ "status") as [st|e]; [|now left].
  unfold updateDelegatedAccess, getDelegatedAccess.
  destruct (map_get (delegatedAccesses s) i) as [da|] eqn:G; [|now left].
  right. eexists da, _. split; [reflexivity|].
  rewrite spread_only_status. reflexivity.
Qed.

Lemma step_preserves_invariant (s : Store) (op : Op) :
  at_most_one_per_event s -> at_most_one_per_event (step s op).
Proof.
  intros Hinv e. specialize (Hinv e).
  unfold records_for, getAllDelegatedAccesses in *.
  destruct op as [e0 record | now c v w u d | i req]; simpl.
  - unfold materialize, getDelegatedAccessByEventId.
    destruct (List.find _ _) eqn:F; simpl; [exact Hinv|].
    pose proof (filter_values_set_le (has_eventId e) (delegatedAccesses s)
                  (id record) (with_eventId record (Some e0))) as Hle.
    simpl in Hle. unfold has_eventId at 3 in Hle. simpl in Hle.
    destruct (String.eqb e0 e) eqn:E.
    + apply String.eqb_eq in E. subst e0.
      apply find_none_filter_nil in F. rewrite F in Hle. simpl in Hle. lia.
    + lia.
  - pose proof (filter_values_set_le (has_eventId e) (delegatedAccesses s)
                  ("temp-" ++ now) (tempDelegation now c v w u d)) as Hle.
    simpl in *. lia.
  - destruct (PATCH_store s i req) as [-> | (da & st & G & ->)]; [exact Hinv|].
    simpl. erewrite filter_values_set_alike; [exact Hinv | exact G | ].
    reflexivity.
Qed.

Lemma run_preserves_invariant (ops : list Op) :
  forall s, at_most_one_per_event s -> at_most_one_per_event (run ops s).
Proof.
  unfold run. induction ops as [|op ops IH]; intros s Hs; simpl.
  - exact Hs.
  - apply IH. now apply step_preserves_invariant.
Qed.

Lemma empty_at_most_one : at_most_one_per_event Store.empty.
Proof. intros e. simpl. lia. Qed.

(** After [materialize], the event has a record, and it is the one returned. *)
Lemma materialize_lookup (s : Store) (e : string) (record : DelegatedAccess) :
  getDelegatedAccessByEventId (fst (materialize s e record)) e
  = Some (snd (materialize s e record)).
Proof.
  unfold materialize.
  destruct (getDelegatedAccessByEventId s e) as [existing|] eqn:F; simpl.
  - exact F.
  - unfold getDelegatedAccessByEventId in *. simpl.
    apply find_none_filter_nil in F.
    apply find_values_set_fresh; [exact F|].
    unfold has_eventId. simpl. apply String.eqb_refl.
Qed.

(** The store itself is keyed by [id]: it is the lookup in [materialize], not
    [createDelegatedAccess], that keeps an event id from being stored twice. *)
Remark createDelegatedAccess_is_keyed_by_id (s : Store)
  (da : DelegatedAccess) :
  getDelegatedAccess (fst (createDelegatedAccess s da)) (id da) = Some da
  /\ forall k, k <> id da ->
       getDelegatedAccess (fst (createDelegatedAccess s da)) k
       = getDelegatedAccess s k.
Proof.
  unfold getDelegatedAccess, createDelegatedAccess. simpl. split.
  - apply map_get_set_same.
  - intros k Hk. now apply map_get_set_other.
Qed.

(** C2. On a store reached through the operations at hand, processing an
    event whose id already has a record returns that record and leaves the
    store as it is; no event id ever has more than one record; and
    processing the same event id twice leaves exactly one record for it, the
    second time being a no-op that returns what the first returned. *)
Theorem eventId_materialized_once (ops : list Op) (e : string)
  (r1 r2 : DelegatedAccess) :
  let s := run ops Store.empty in
  let s1 := fst (materialize s e r1) in
  let s2 := fst (materialize s1 e r2) in
  (forall existing,
      getDelegatedAccessByEventId s e = Some existing ->
      materialize s e r1 = (s, existing))
  /\ (forall e', List.length (records_for s e') <= 1)
  /\ materialize s1 e r2 = (s1, snd (materialize s e r1))
  /\ List.length (records_for s2 e) = 1.
Proof.
  intros s s1 s2.
  assert (Hs : at_most_one_per_event s)
    by (apply run_preserves_invariant, empty_at_most_one).
  assert (Hs1 : at_most_one_per_event s1)
    by (apply (@step_preserves_invariant s (Materialize e r1)), Hs).
  pose proof (materialize_lookup s e r1) as Hstored. fold s1 in Hstored.
  assert (E2 : materialize s1 e r2 = (s1, snd (materialize s e r1))).
  { unfold materialize at 1. now rewrite Hstored. }
  split; [|split; [|split]].
  - intros existing H. unfold materialize. now rewrite H.
  - exact Hs.
  - exact E2.
  - subst s2. rewrite E2. simpl. specialize (Hs1 e).
    unfold getDelegatedAccessByEventId in Hstored.
    apply find_some_filter_cons in Hstored as [rest Hrest].
    unfold records_for, getAllDelegatedAccesses in *.
    rewrite Hrest in *. simpl in *. lia.
Qed.

End LedgerFacts.

(** ** The delegated-access routes *)

Section RouteFacts.
Import Store DelegatedAccessesApi.

(** C10. PATCH touches nothing but the [status] of the record it addresses:
    the other maps, the keys and their order, and every other record stay as
    they were; the addressed record keeps all its other fields; a body
    without [status] keeps the status too; and an id that is not in the store
    leaves the store as it was. *)
Theorem PATCH_changes_only_status (s : Store) (params_id : string)
  (request_json : result Json) :
  let s' := fst (PATCH s params_id request_json) in
  (vaults s' = vaults s /\ wallets s' = wallets s /\ users s' = users s
   /\ policies s' = policies s)
  /\ map_keys (delegatedAccesses s') = map_keys (delegatedAccesses s)
  /\ (forall k, k <> params_id ->
        getDelegatedAccess s' k = getDelegatedAccess s k)
  /\ (forall da, getDelegatedAccess s params_id = Some da ->
        exists st, getDelegatedAccess s' params_id = Some (with_status da st))
  /\ (forall body_, request_json = Return body_ ->
        get_prop body_ "status" = Return None -> s' = s)
  /\ (getDelegatedAccess s params_id = None -> s' = s).
Proof.
  intros s'. subst s'.
  split; [|split; [|split; [|split; [|split]]]].
  - destruct (PATCH_store s params_id request_json)
      as [-> | (da & st & G & ->)]; simpl; tauto.
  - destruct (PATCH_store s params_id request_json)
      as [-> | (da & st & G & ->)]; simpl; [reflexivity|].
    eapply map_keys_set_present. exact G.
  - intros k Hk.
    destruct (PATCH_store s params_id request_json)
      as [-> | (da & st & G & ->)]; simpl; [reflexivity|].
    unfold getDelegatedAccess. simpl. now apply map_get_set_other.
  - intros da Hda.
    destruct (PATCH_store s params_id request_json)
      as [-> | (da' & st & G & ->)]; simpl.
    + exists (status da). now rewrite with_status_same.
    + exists st. unfold getDelegatedAccess in *. simpl.
      rewrite map_get_set_same. congruence.
  - intros body_ -> Hst. unfold PATCH. simpl. rewrite Hst.
    unfold updateDelegatedAccess, getDelegatedAccess.
    destruct (map_get (delegatedAccesses s) params_id) as [da|] eqn:G;
      [|reflexivity].
    simpl. rewrite spread_only_status, with_status_same.
    rewrite (map_set_same_value _ _ G). apply set_delegatedAccesses_same.
  - intros Hnone. unfold PATCH.
    destruct (body_ <- request_json ;; get_prop body_ "status");
      [|reflexivity].
    now rewrite Hnone.
Qed.

Lemma sanitized_redact (da : DelegatedAccess) :
  sanitized (redact da) = sanitized da.
Proof. reflexivity. Qed.

Lemma sanitized_keys (da : DelegatedAccess) :
  ~ In "delegatedShare" (object_keys (sanitized da))
  /\ ~ In "walletApiKey" (object_keys (sanitized da)).
Proof.
  unfold sanitized. destruct (eventId da); simpl;
    split; intros H; repeat (destruct H as [H|H]; [discriminate|]); exact H.
Qed.

Lemma filter_by_redact (q : option string) (field : DelegatedAccess -> string)
  (l : list DelegatedAccess) :
  (forall da, field (redact da) = field da) ->
  filter_by q field (List.map redact l) = List.map redact (filter_by q field l).
Proof.
  intros Hf. unfold filter_by. destruct q as [v|]; [|reflexivity].
  destruct (truthy_string v); [|reflexivity].
  induction l as [|da l IH]; simpl; [reflexivity|].
  rewrite Hf. destruct (String.eqb (field da) v); simpl; now rewrite IH.
Qed.

Lemma map_sanitized_redact (l : list DelegatedAccess) :
  List.map sanitized (List.map redact l) = List.map sanitized l.
Proof. rewrite List.map_map. reflexivity. Qed.

Lemma values_redact (s1 s2 : Store) :
  same_public_data s1 s2 ->
  List.map redact (getAllDelegatedAccesses s1)
  = List.map redact (getAllDelegatedAccesses s2).
Proof.
  unfold same_public_data, getAllDelegatedAccesses, map_values. intros H.
  apply (f_equal (List.map snd)) in H.
  rewrite !List.map_map in *. exact H.
Qed.

Lemma get_redact (s1 s2 : Store) (i : string) :
  same_public_data s1 s2 ->
  option_map redact (getDelegatedAccess s1 i)
  = option_map redact (getDelegatedAccess s2 i).
Proof.
  unfold same_public_data, getDelegatedAccess, map_get.
  generalize (delegatedAccesses s1) (delegatedAccesses s2).
  induction j as [|[k v] j IH]; intros [|[k' v'] j']; simpl;
    try discriminate; [reflexivity|].
  remember (redact v) as rv eqn:Ev. remember (redact v') as rv' eqn:Ev'.
  intros H. injection H as Hk Hv Hrest. subst k rv rv'.
  destruct (String.eqb i k').
  - simpl. now rewrite Hv.
  - now apply IH.
Qed.

Lemma GET_all_redacted (s : Store) (q1 q2 q3 : option string) :
  GET_all s q1 q2 q3
  = json_ok (JArr (List.map sanitized
      (filter_by q3 delegateEmail
         (filter_by q2 walletId
            (filter_by q1 vaultId
               (List.map redact (getAllDelegatedAccesses s))))))).
Proof.
  unfold GET_all.
  rewrite !filter_by_redact by reflexivity.
  now rewrite map_sanitized_redact.
Qed.

(** The answer of PATCH in terms of the redacted record. *)
Lemma PATCH_response_redacted (s : Store) (i : string) (req : result Json) :
  snd (PATCH s i req)
  = match (body_ <- req ;; get_prop body_ "status") with
    | Throw e => update_failed e
    | Return status_ =>
        match option_map redact (getDelegatedAccess s i) with
        | None => not_found
        | Some da =>
            json_ok (sanitized
              (with_status da
                 match or_else truthy status_ (Some (status da)) with
                 | Some v => v
                 | None => status da
                 end))
        end
    end.
Proof.
  unfold PATCH, updateDelegatedAccess, getDelegatedAccess.
  destruct (body_ <- req ;; get_prop body_ "status"); [|reflexivity].
  destruct (map_get (delegatedAccesses s) i); reflexivity.
Qed.

(** C9. No object answered by GET /api/delegated-accesses,
    GET /api/delegated-accesses/[id] or PATCH /api/delegated-accesses/[id]
    has a [delegatedShare] or a [walletApiKey] field, and two stores whose
    records differ only in those two fields get the same answers. *)
Theorem responses_hide_the_secrets (s1 s2 : Store)
  (vaultId_ walletId_ delegateEmail_ : option string) (params_id : string)
  (request_json : result Json) :
  (forall r o,
      In r [GET_all s1 vaultId_ walletId_ delegateEmail_;
            GET s1 params_id;
            snd (PATCH s1 params_id request_json)] ->
      In o (response_objects r) ->
      ~ In "delegatedShare" (object_keys o)
      /\ ~ In "walletApiKey" (object_keys o))
  /\ (same_public_data s1 s2 ->
      GET_all s1 vaultId_ walletId_ delegateEmail_
      = GET_all s2 vaultId_ walletId_ delegateEmail_
      /\ GET s1 params_id = GET s2 params_id
      /\ snd (PATCH s1 params_id request_json)
         = snd (PATCH s2 params_id request_json)).
Proof.
  split.
  - intros r o Hr Ho. simpl in Hr.
    destruct Hr as [<- | [<- | [<- | []]]].
    + unfold GET_all, response_objects in Ho. simpl in Ho.
      apply List.in_map_iff in Ho as (da & <- & _). apply sanitized_keys.
    + unfold GET in Ho.
      destruct (getDelegatedAccess s1 params_id); simpl in Ho.
      * destruct Ho as [<- | []]. apply sanitized_keys.
      * destruct Ho as [<- | []]. simpl.
        split; intros [H | []]; discriminate.
    + rewrite PATCH_response_redacted in Ho.
      destruct (body_ <- request_json ;; get_prop body_ "status").
      * destruct (option_map redact (getDelegatedAccess s1 params_id));
          simpl in Ho; destruct Ho as [<- | []].
        -- apply sanitized_keys.
        -- simpl. split; intros [H | []]; discriminate.
      * simpl in Ho. destruct Ho as [<- | []]. simpl.
        split; intros [H | [H | []]]; discriminate.
  - intros Hsame. split; [|split].
    + rewrite !GET_all_redacted. now rewrite (values_redact Hsame).
    + pose proof (get_redact params_id Hsame) as H. unfold GET.
      destruct (getDelegatedAccess s1 params_id) as [d1|],
               (getDelegatedAccess s2 params_id) as [d2|];
        simpl in H; try discriminate; [|reflexivity].
      assert (Hd : redact d1 = redact d2) by congruence.
      now rewrite <- (sanitized_redact d1), <- (sanitized_redact d2), Hd.
    + rewrite !PATCH_response_redacted.
      now rewrite (get_redact params_id Hsame).
Qed.

End RouteFacts.

(** ** Triggering a delegation from the server *)

Section TriggerFacts.
Import DynamicLabsService.
Variable env : ProcessEnv.
Variable fetch : string -> FetchRequest -> result FetchResponse.

Lemma try_endpoints_all_404 (request : FetchRequest) (urls : list string) :
  (forall apiUrl, In apiUrl urls ->
     exists response, fetch apiUrl request = Return response
                      /\ response_status response = 404) ->
  try_endpoints fetch request urls = None.
Proof.
  induction urls as [|apiUrl rest IH]; intros H; simpl; [reflexivity|].
  destruct (H apiUrl (or_introl eq_refl)) as (response & Hf & Hs).
  unfold try_endpoint, bind, try_catch, ok. rewrite Hf, Hs. simpl.
  destruct (response_text response); apply IH; intros u Hu; apply H;
    now right.
Qed.

(** With credentials configured the method never throws, whatever the
    endpoints answer. *)
Lemma triggerDelegation_returns (walletId delegateEmail : string)
  (webhookUrl : option string) (credentials : DynamicCredentials) :
  getCredentials env = Some credentials ->
  exists r, triggerDelegation env fetch walletId delegateEmail webhookUrl
            = Return r.
Proof.
  intros Hc. unfold triggerDelegation. rewrite Hc.
  destruct (try_endpoints _ _ _); eexists; reflexivity.
Qed.

(** C8. When every candidate endpoint answers 404, [triggerDelegation] does
    not throw: it returns the result with [success] false and
    [requiresClientSide] true. *)
Theorem triggerDelegation_all_404 (walletId delegateEmail : string)
  (webhookUrl : option string) (credentials : DynamicCredentials) :
  getCredentials env = Some credentials ->
  (forall apiUrl, In apiUrl (endpoints credentials walletId) ->
     exists response,
       fetch apiUrl
         (delegation_request env credentials delegateEmail webhookUrl)
       = Return response
       /\ response_status response = 404) ->
  exists r,
    triggerDelegation env fetch walletId delegateEmail webhookUrl = Return r
    /\ success r = false /\ requiresClientSide r = Some true
    /\ r = client_side_required.
Proof.
  intros Hc H404. unfold triggerDelegation. rewrite Hc.
  rewrite (@try_endpoints_all_404 _ _ H404).
  eexists; repeat split.
Qed.

End TriggerFacts.

(** ** QuorumCoordinator: the execute and sign handlers *)

Section QuorumFacts.
Import AddressCodec PendingTransactions.
Variable keccak256 : string -> list Z.
Variable T : Type.
Variable X : Externals T.
Variable session : Session.

(** C5 (as the code has it). Executing a transaction that has fewer
    confirmations than the threshold makes no call to the outside, so no
    bundle is assembled or submitted, and changes nothing but the error
    message: the threshold message when a wallet is connected, the request to
    connect one otherwise. *)
Theorem execute_below_threshold_fails_fast (u : Ui) (tx : SafeTransaction) :
  List.length (confirmations_or_empty tx) < threshold session ->
  let out := handleExecuteTransaction keccak256 X session u tx in
  calls out = [] /\ uncaught out = None
  /\ ui out
     = setError u
         (if connected session
          then threshold_not_met (threshold session)
                 (List.length (confirmations_or_empty tx))
          else connect_wallet_first).
Proof.
  intros Hlt. unfold handleExecuteTransaction, connected.
  apply Nat.ltb_lt in Hlt.
  destruct (viemAccount session) as [account|], (walletClient session) as [wc|];
    simpl; rewrite ?Hlt; simpl; auto.
Qed.


Lemma add_signatures_throws (confs : list Confirmation) :
  forall (t : T) (e : JsError),
    signatures_of keccak256 confs = Throw e ->
    exists tr, add_signatures keccak256 X confs t = (tr, Throw e).
Proof.
  induction confs as [|c confs IH]; intros t e; simpl; [discriminate|].
  unfold bind.
  destruct (getAddress keccak256 (owner c)) as [a|e1].
  - destruct (signatures_of keccak256 confs) as [rest|e2] eqn:E;
      [discriminate|].
    intros [= <-].
    destruct (truthy_string (signature c)).
    + unfold ebind, call.
      destruct (IH (addSignature X t a (signature c)) e2 eq_refl) as [tr ->].
      eexists; reflexivity.
    + now apply IH.
  - intros [= <-]. eexists; reflexivity.
Qed.


Lemma added_signatures_app (tr1 tr2 : list (Call T)) :
  added_signatures (tr1 ++ tr2)
  = (added_signatures tr1 ++ added_signatures tr2)%list.
Proof.
  induction tr1 as [|c tr1 IH]; simpl; [reflexivity|].
  destruct c; simpl; now rewrite IH.
Qed.

Lemma submitted_app (tr1 tr2 : list (Call T)) :
  submitted (tr1 ++ tr2) = (submitted tr1 ++ submitted tr2)%list.
Proof.
  induction tr1 as [|c tr1 IH]; simpl; [reflexivity|].
  destruct c; simpl; now rewrite IH.
Qed.

Lemma confirmations_sent_app (tr1 tr2 : list (Call T)) :
  confirmations_sent (tr1 ++ tr2)
  = (confirmations_sent tr1 ++ confirmations_sent tr2)%list.
Proof.
  induction tr1 as [|c tr1 IH]; simpl; [reflexivity|].
  destruct c; simpl; now rewrite IH.
Qed.




End QuorumFacts.

Section ConfirmFacts.
Import AddressCodec PendingTransactions.
Variable keccak256 : string -> list Z.
Variable T : Type.

Lemma getAddress_well_formed (raw : string) :
  isAddress raw = true ->
  getAddress keccak256 raw = Return (checksumAddress keccak256 raw).
Proof. unfold getAddress. now intros ->. Qed.

(** On well-formed confirmations, the check of the sign handler says whether
    the address has a confirmation in the list. *)
Lemma hasAlreadySigned_spec (a : string) (confs : list Confirmation) :
  owners_well_formed confs ->
  hasAlreadySigned keccak256 a confs
  = Return (0 <? confirmations_by keccak256 a confs)%nat.
Proof.
  induction 1 as [|c confs Hc _ IH]; simpl; [reflexivity|].
  rewrite getAddress_well_formed by exact Hc. unfold bind.
  destruct (String.eqb _ _); [reflexivity | exact IH].
Qed.

Lemma confirmations_by_app (a : string) (l1 l2 : list Confirmation) :
  confirmations_by keccak256 a (l1 ++ l2)
  = confirmations_by keccak256 a l1 + confirmations_by keccak256 a l2.
Proof.
  induction l1 as [|c l1 IH]; simpl; [reflexivity|]. rewrite IH. lia.
Qed.

Lemma confirmations_by_lower (a b : string) (confs : list Confirmation) :
  toLowerCase a = toLowerCase b ->
  confirmations_by keccak256 a confs = confirmations_by keccak256 b confs.
Proof.
  intros E. induction confs as [|c confs IH]; simpl; [reflexivity|].
  now rewrite E, IH.
Qed.

Lemma confirmations_sent_load (X : Externals T) (session : Session) (u : Ui) :
  confirmations_sent (snd (loadPendingTransactions X session u)) = [].
Proof. reflexivity. Qed.

(** Closes a case in which the handler made no call at all. *)
Ltac nothing_sent :=
  let H := fresh in intros H; exfalso; apply H; reflexivity.

(** The sign handler sends a confirmation only for a connected wallet whose
    normalised address has none in the transaction. *)
Lemma sign_sends_only_if_unsigned (X : Externals T) (session : Session) (u : Ui)
  (tx : SafeTransaction) :
  confirmations_sent (calls (handleSignTransaction keccak256 X session u tx)) <> [] ->
  exists account current,
    viemAccount session = Some account
    /\ getAddress keccak256 (address account) = Return current
    /\ hasAlreadySigned keccak256 current (confirmations_or_empty tx)
       = Return false.
Proof.
  unfold handleSignTransaction.
  destruct (viemAccount session) as [account|]; [|nothing_sent].
  destruct (walletClient session) as [wc|]; [|nothing_sent].
  destruct (getAddress keccak256 (address account)) as [current|] eqn:Ec;
    [|nothing_sent].
  destruct (negb _); [nothing_sent|]. cbv zeta.
  destruct (hasAlreadySigned keccak256 current _) as [[|]|] eqn:E;
    try nothing_sent.
  intros _. now exists account, current.
Qed.

(** One attempt keeps the confirmations well-formed and adds at most one, by
    an owner that had none. *)
Lemma attempt_step_cases (tx : SafeTransaction) (a : Attempt T) :
  attempt_step keccak256 tx a = tx
  \/ exists account current sg,
       getAddress keccak256 (address account) = Return current
       /\ hasAlreadySigned keccak256 current (confirmations_or_empty tx)
          = Return false
       /\ attempt_step keccak256 tx a
          = add_confirmation tx
              {| owner := address account; signature := sg |}.
Proof.
  unfold attempt_step.
  destruct (confirmations_sent _) as [|[h sg] rest] eqn:Es; [now left|].
  destruct (sign_sends_only_if_unsigned (attempt_externals a)
              (attempt_session a) (attempt_ui a) tx) as
    (account & current & Hacc & Hcur & Hno).
  { rewrite Es. discriminate. }
  rewrite Hacc.
  destruct (confirmTx _ h sg); [|now left].
  right. now exists account, current, sg.
Qed.

Lemma getAddress_Return_isAddress (raw a : string) :
  getAddress keccak256 raw = Return a -> isAddress raw = true.
Proof. unfold getAddress. now destruct (isAddress raw). Qed.

Lemma attempt_step_invariant (tx : SafeTransaction) (a : Attempt T)
  (b : string) :
  one_per_owner keccak256 tx ->
  one_per_owner keccak256 (attempt_step keccak256 tx a)
  /\ (confirmations_by keccak256 b (confirmations_or_empty tx) = 1 ->
      confirmations_by keccak256 b
        (confirmations_or_empty (attempt_step keccak256 tx a)) = 1).
Proof.
  intros [Hwf Hone].
  destruct (attempt_step_cases tx a)
    as [-> | (account & current & sg & Hcur & Hno & ->)].
  - repeat split; auto.
  - rewrite (@hasAlreadySigned_spec current _ Hwf) in Hno.
    injection Hno as Hno. apply Nat.ltb_ge in Hno.
    assert (Hzero : confirmations_by keccak256 current
                      (confirmations_or_empty tx) = 0) by lia.
    assert (Hnew : forall c,
      confirmations_by keccak256 c
        (confirmations_or_empty
           (add_confirmation tx
              {| owner := address account; signature := sg |}))
      = confirmations_by keccak256 c (confirmations_or_empty tx)
        + (if String.eqb (toLowerCase current) (toLowerCase c) then 1 else 0)).
    { intros c. unfold add_confirmation, confirmations_or_empty at 1. simpl.
      rewrite confirmations_by_app. simpl. rewrite Hcur. lia. }
    repeat split.
    + unfold add_confirmation, confirmations_or_empty at 1. simpl.
      apply Forall_app. split; [exact Hwf|].
      constructor; [|constructor]. simpl.
      now apply getAddress_Return_isAddress with current.
    + intros c. rewrite Hnew.
      destruct (String.eqb _ _) eqn:E; [|specialize (Hone c); lia].
      apply String.eqb_eq in E.
      rewrite <- (@confirmations_by_lower current c _ E). lia.
    + intros Hb. rewrite Hnew.
      destruct (String.eqb _ _) eqn:E; [|lia].
      apply String.eqb_eq in E.
      rewrite <- (@confirmations_by_lower current b _ E) in Hb. lia.
Qed.

Lemma run_attempts_invariant (attempts : list (Attempt T)) (b : string) :
  forall tx,
    one_per_owner keccak256 tx ->
    one_per_owner keccak256 (run_attempts keccak256 tx attempts)
    /\ (confirmations_by keccak256 b (confirmations_or_empty tx) = 1 ->
        confirmations_by keccak256 b
          (confirmations_or_empty (run_attempts keccak256 tx attempts)) = 1).
Proof.
  unfold run_attempts.
  induction attempts as [|a attempts IH]; intros tx Htx; simpl.
  - now split.
  - destruct (@attempt_step_invariant tx a b Htx) as [H1 H2].
    destruct (IH _ H1) as [H3 H4]. split; [exact H3|]. auto.
Qed.

(** C6 (as the code has it). When the connected wallet belongs to an owner
    who already has a confirmation in the transaction, the sign handler
    reports that the transaction is already signed and sends nothing; and
    whatever the sequence of sign attempts, by this or by other owners, a
    transaction that had at most one confirmation per owner keeps at most one
    per owner, and an owner who had one has exactly one at the end. *)
Theorem confirm_again_is_rejected (tx : SafeTransaction) :
  (forall (X : Externals T) (session : Session) (u : Ui) (account : Account)
          (wc : WalletClient) (currentAddress : string),
      viemAccount session = Some account ->
      walletClient session = Some wc ->
      getAddress keccak256 (address account) = Return currentAddress ->
      List.existsb (String.eqb currentAddress) (owners session) = true ->
      owners_well_formed (confirmations_or_empty tx) ->
      1 <= confirmations_by keccak256 currentAddress
             (confirmations_or_empty tx) ->
      handleSignTransaction keccak256 X session u tx
      = @done T (setError u already_signed) [])
  /\ (forall (attempts : list (Attempt T)) (a : string),
        owners_well_formed (confirmations_or_empty tx) ->
        (forall b, confirmations_by keccak256 b (confirmations_or_empty tx)
                   <= 1) ->
        let tx' := run_attempts keccak256 tx attempts in
        (forall b, confirmations_by keccak256 b (confirmations_or_empty tx')
                   <= 1)
        /\ (confirmations_by keccak256 a (confirmations_or_empty tx) = 1 ->
            confirmations_by keccak256 a (confirmations_or_empty tx') = 1)).
Proof.
  split.
  - intros X session u account wc current Hacc Hwc Hcur Hown Hwf Hhas.
    unfold handleSignTransaction. rewrite Hacc, Hwc, Hcur, Hown. simpl.
    rewrite (@hasAlreadySigned_spec current _ Hwf).
    apply Nat.ltb_lt in Hhas. now rewrite Hhas.
  - intros attempts a Hwf Hone tx'.
    destruct (@run_attempts_invariant attempts a tx (conj Hwf Hone))
      as [[_ H1] H2].
    split; assumption.
Qed.

End ConfirmFacts.

(** ** The bundle of an executed transaction *)

Section BundleFacts.
Import AddressCodec PendingTransactions SignatureBundler.
Variable keccak256 : string -> list Z.






(** *** Deduplication *)





(** *** Sorting *)











End BundleFacts.

Section ExecuteBundle.
Import AddressCodec PendingTransactions SignatureBundler.
Variable keccak256 : string -> list Z.
Variable T : Type.
Variable X : Externals T.
Variable session : Session.



End ExecuteBundle.

(** ** The webhook pipeline *)

Section WebhookFacts.
Import DelegationService.
Variable C : NodeCrypto.

(** The class's verifier accepts whatever it is given. *)
Remark verifyWebhookSignature_accepts (payload signature secret : string) :
  verifyWebhookSignature payload signature secret = true.
Proof. reflexivity. Qed.

(** C4 (as the code has it). When a webhook secret is passed, the signature
    check runs first, on the serialised webhook, and a check that fails makes
    the pipeline throw before anything is decrypted; when the check passes,
    decryption follows it. When no secret is passed (or an empty one) the
    check is skipped and the envelopes are decrypted. *)
Theorem processDelegationWebhook_checks_when_given_a_secret
  (verify : string -> string -> string -> bool) (webhook : DelegationWebhook)
  (privateKeyPem : string) (webhookSecret : option string) :
  let share := encryptedDelegatedShare (data webhook) in
  let apiKeyEnc := encryptedWalletApiKey (data webhook) in
  let payload := JSON_stringify C webhook in
  let run := processDelegationWebhook C verify webhook privateKeyPem
               webhookSecret in
  (forall secret,
      webhookSecret = Some secret -> truthy_string secret = true ->
      (verify payload "" secret = false ->
       run = ([VerifySignature payload "" secret],
              Throw (Error "Invalid webhook signature")))
      /\ (verify payload "" secret = true ->
          fst run = [VerifySignature payload "" secret;
                     DecryptMaterials share apiKeyEnc])
      /\ verified_before_decrypt false (fst run) = true)
  /\ (webhookSecret = None \/ webhookSecret = Some "" ->
      fst run = [DecryptMaterials share apiKeyEnc]
      /\ returns (snd run)
         = returns (decryptMaterials C privateKeyPem share apiKeyEnc)).
Proof.
  intros share apiKeyEnc payload run. subst run. split.
  - intros secret -> Hs. unfold processDelegationWebhook. rewrite Hs.
    fold payload. destruct (verify payload "" secret); simpl.
    + repeat split; intros; try discriminate; reflexivity.
    + repeat split; intros; try discriminate; reflexivity.
  - intros [-> | ->]; unfold processDelegationWebhook; simpl;
      (split; [reflexivity|]);
      fold share apiKeyEnc;
      now destruct (decryptMaterials C privateKeyPem share apiKeyEnc).
Qed.

End WebhookFacts.

(** ** The theorems on sample inputs *)

Section OnSamples.
Import Samples.
Import DelegationService.

(** The two-stage decryption on a well-sealed pair of envelopes, and on a
    pair whose first tag is forged. *)
Lemma decryptMaterials_on_samples :
  (unwraps sample_crypto "PRIVATE KEY" good_share = true
   /\ unwraps sample_crypto "PRIVATE KEY" good_api_key = true
   /\ tag_verifies sample_crypto "PRIVATE KEY" good_share = true
   /\ tag_verifies sample_crypto "PRIVATE KEY" good_api_key = true)
  /\ exists e, forall stream,
       decryptMaterials (with_stream sample_crypto stream) "PRIVATE KEY"
         forged_share good_api_key = Throw e.
Proof.
  split.
  - apply (proj1 (decryptMaterials_needs_unwrap_and_tag sample_crypto
                    "PRIVATE KEY" good_share good_api_key)
             {| delegatedShare := JStr "share"; walletApiKey := "apikey" |}).
    reflexivity.
  - apply (proj2 (decryptMaterials_needs_unwrap_and_tag sample_crypto
                    "PRIVATE KEY" forged_share good_api_key)).
    left. reflexivity.
Defined.

(** A webhook processed with a secret and a verifier that rejects. *)
Lemma rejected_webhook_on_samples :
  processDelegationWebhook sample_crypto reject_all sample_webhook
    "PRIVATE KEY" (Some "whsec")
  = ([VerifySignature "evt-1" "" "whsec"],
     Throw (Error "Invalid webhook signature")).
Proof.
  apply (proj1 (proj1 (processDelegationWebhook_checks_when_given_a_secret
                         sample_crypto reject_all sample_webhook "PRIVATE KEY"
                         (Some "whsec"))
                  "whsec" eq_refl eq_refl)).
  reflexivity.
Defined.

(** C4, as it is stated, fails on the service as it stands: a webhook that
    comes without a secret is decrypted with no signature check before it. *)
Lemma webhook_without_secret_is_decrypted_unverified :
  List.existsb is_decrypt
    (fst (delegationService_processDelegationWebhook sample_crypto
            sample_webhook "PRIVATE KEY" None)) = true
  /\ List.existsb is_verify
       (fst (delegationService_processDelegationWebhook sample_crypto
               sample_webhook "PRIVATE KEY" None)) = false
  /\ verified_before_decrypt false
       (fst (delegationService_processDelegationWebhook sample_crypto
               sample_webhook "PRIVATE KEY" None)) = false
  /\ returns
       (snd (delegationService_processDelegationWebhook sample_crypto
               sample_webhook "PRIVATE KEY" None)) = true.
Proof. repeat split. Qed.

Import AddressCodec.

Lemma getAddress_on_samples :
  getAddress sample_keccak256 "0xabcDeFabCDEFabcDeFabCDEFabcDeFabCDEFabcD"
  = Return "0xabcDeFabCDEFabcDeFabCDEFabcDeFabCDEFabcD"
  /\ getAddress sample_keccak256 "0xzz" = Throw (InvalidAddressError "0xzz").
Proof.
  split.
  - apply (proj1 (getAddress_idempotent_or_invalid sample_keccak256
                    "0xabcdefabcdefabcdefabcdefabcdefabcdefabcd")).
    reflexivity.
  - apply (proj2 (proj2 (getAddress_idempotent_or_invalid sample_keccak256
                           "0xzz"))).
    reflexivity.
Defined.

Import Store DelegatedAccessesApi.

(** The same event delivered twice. *)
Lemma replay_on_samples :
  materialize
    (run [Materialize "evt-1" (sample_record (JStr "s") "k")] Store.empty)
    "evt-1" (sample_record (JStr "other") "k2")
  = (run [Materialize "evt-1" (sample_record (JStr "s") "k")] Store.empty,
     sample_record (JStr "s") "k").
Proof.
  apply (proj1 (eventId_materialized_once
                  [Materialize "evt-1" (sample_record (JStr "s") "k")]
                  "evt-1" (sample_record (JStr "other") "k2")
                  (sample_record (JStr "x") "y"))).
  reflexivity.
Defined.

(** Two stores that differ in the secrets only answer alike. *)
Lemma same_answers_on_samples :
  GET (sample_store (JStr "share-1") "key-1") "da-1"
  = GET (sample_store (JStr "share-2") "key-2") "da-1".
Proof.
  apply (proj2 (responses_hide_the_secrets
                  (sample_store (JStr "share-1") "key-1")
                  (sample_store (JStr "share-2") "key-2")
                  None None None "da-1" (Return (JObj [])))).
  reflexivity.
Defined.

(** A PATCH whose body has no [status], and one for an unknown id. *)
Lemma PATCH_on_samples :
  fst (PATCH (sample_store JNull "k") "da-1" (Return (JObj [])))
  = sample_store JNull "k"
  /\ exists st,
       getDelegatedAccess
         (fst (PATCH (sample_store JNull "k") "da-1"
                 (Return (JObj [("status", JStr "revoked")])))) "da-1"
       = Some (with_status (sample_record JNull "k") st).
Proof.
  split.
  - apply (proj1 (proj2 (proj2 (proj2 (proj2
             (PATCH_changes_only_status (sample_store JNull "k") "da-1"
                (Return (JObj []))))))) (JObj [])); reflexivity.
  - apply (proj1 (proj2 (proj2 (proj2
             (PATCH_changes_only_status (sample_store JNull "k") "da-1"
                (Return (JObj [("status", JStr "revoked")]))))))).
    reflexivity.
Defined.

Import DynamicLabsService.

Lemma triggerDelegation_on_samples :
  exists r,
    triggerDelegation sample_env fetch_404 "wallet-1" "Delegate@Example.org"
      None = Return r
    /\ success r = false /\ requiresClientSide r = Some true
    /\ r = client_side_required.
Proof.
  apply (@triggerDelegation_all_404 sample_env fetch_404 "wallet-1"
           "Delegate@Example.org" None sample_credentials).
  - reflexivity.
  - intros apiUrl _. eexists. split; reflexivity.
Defined.

Import PendingTransactions.

(** Below the threshold with a wallet connected. *)
Lemma execute_below_threshold_on_samples :
  calls (handleExecuteTransaction sample_keccak256 sample_externals
           (session_of walletA client 2) idle (sample_tx [byA])) = []
  /\ uncaught (handleExecuteTransaction sample_keccak256 sample_externals
                 (session_of walletA client 2) idle (sample_tx [byA])) = None
  /\ ui (handleExecuteTransaction sample_keccak256 sample_externals
           (session_of walletA client 2) idle (sample_tx [byA]))
     = setError idle (threshold_not_met 2 1).
Proof.
  apply (@execute_below_threshold_fails_fast sample_keccak256
           EthSafeTransaction sample_externals
           (session_of walletA client 2) idle (sample_tx [byA])).
  simpl. lia.
Defined.

(** C5, as it is stated, fails when no wallet is connected: the handler stops
    at its first guard, and the error is the request to connect a wallet, not
    the threshold message. *)
Lemma execute_without_wallet_asks_to_connect :
  List.length (confirmations_or_empty (sample_tx [byA]))
  < threshold (session_of None None 2)
  /\ error (ui (handleExecuteTransaction sample_keccak256 sample_externals
                  (session_of None None 2) idle (sample_tx [byA])))
     = connect_wallet_first
  /\ error (ui (handleExecuteTransaction sample_keccak256 sample_externals
                  (session_of None None 2) idle (sample_tx [byA])))
     <> threshold_not_met 2 1.
Proof.
  split; [simpl; lia|]. split; [reflexivity|]. discriminate.
Qed.



(** Owner A, who has signed, presses the button again. *)
Lemma confirm_again_on_samples :
  handleSignTransaction sample_keccak256 sample_externals
    (session_of walletA client 2) idle (sample_tx [byB; byA])
  = done (setError idle already_signed) [].
Proof.
  apply (proj1 (@confirm_again_is_rejected sample_keccak256
                  EthSafeTransaction (sample_tx [byB; byA]))
           sample_externals (session_of walletA client 2) idle
           {| address := ownerA |} ViemWalletClient ownerA);
    try reflexivity; try (repeat constructor); try (vm_compute; lia).
Defined.

(** C6, as it is stated, fails when the owner's account is known but the
    wallet client is not there yet: the handler stops at its first guard and
    reports that, not that the owner has signed. *)
Lemma confirm_again_without_client_asks_to_connect :
  confirmations_by sample_keccak256 ownerA
    (confirmations_or_empty (sample_tx [byB; byA])) = 1
  /\ error (ui (handleSignTransaction sample_keccak256 sample_externals
                  (session_of walletA None 2) idle (sample_tx [byB; byA])))
     = connect_wallet_first
  /\ error (ui (handleSignTransaction sample_keccak256 sample_externals
                  (session_of walletA None 2) idle (sample_tx [byB; byA])))
     <> already_signed.
Proof.
  split; [vm_compute; reflexivity|]. split; [reflexivity|]. discriminate.
Qed.

End OnSamples.

(* ===================================================================== *)
(** * Further properties of the code                                      *)
(* ===================================================================== *)

(** ** delegationService.ts: the envelope pipeline, stage by stage *)

Section EnvelopeStages.
Import DelegationService.
Variable C : NodeCrypto.

Lemma decryptAesGcm_accepts (key : bytes) (ivB64 ctB64 tagB64 : string) :
  returns (cipher_init C key (from_base64url C ivB64)) = true ->
  returns (auth_tag_init C (from_base64url C tagB64)) = true ->
  gcm_tag_ok C key (from_base64url C ivB64) (from_base64url C ctB64)
    (from_base64url C tagB64) = true ->
  decryptAesGcm C key ivB64 ctB64 tagB64
  = Return (gcm_stream C key (from_base64url C ivB64)
              (from_base64url C ctB64)).
Proof.
  unfold decryptAesGcm, createDecipheriv, setAuthTag, update, final, bind.
  destruct (cipher_init C key _); [|discriminate].
  destruct (auth_tag_init C _); [|discriminate]. simpl.
  intros _ _ ->. now rewrite app_nil_r.
Qed.

Lemma decryptAesGcm_Return_inits (key : bytes) (ivB64 ctB64 tagB64 : string)
  (p : bytes) :
  decryptAesGcm C key ivB64 ctB64 tagB64 = Return p ->
  returns (cipher_init C key (from_base64url C ivB64)) = true
  /\ returns (auth_tag_init C (from_base64url C tagB64)) = true.
Proof.
  unfold decryptAesGcm, createDecipheriv, setAuthTag, bind.
  destruct (cipher_init C key _); [|discriminate].
  destruct (auth_tag_init C _); [|discriminate]. auto.
Qed.

(** What [decryptMaterials] does once both keys are unwrapped. *)
Lemma decryptMaterials_with_keys (privateKeyPem : string)
  (share apiKeyEnc : EncryptedPayload) (k1 k2 : bytes) :
  unwrapped_key C privateKeyPem share = Return k1 ->
  unwrapped_key C privateKeyPem apiKeyEnc = Return k2 ->
  decryptMaterials C privateKeyPem share apiKeyEnc
  = try_catch
      (p1 <- decryptAesGcm C k1 (iv share) (ct share) (tag share) ;;
       p2 <- decryptAesGcm C k2 (iv apiKeyEnc) (ct apiKeyEnc)
               (tag apiKeyEnc) ;;
       j <- JSON_parse C (toString_utf8 C p1) ;;
       Return {| delegatedShare := j; walletApiKey := toString_utf8 C p2 |})
      (fun error =>
         Throw (Error ("Failed to decrypt delegation materials: "
                       ++ message error))).
Proof.
  unfold unwrapped_key, decryptMaterials, rsaOaepDecryptEk. cbv zeta.
  intros -> ->. reflexivity.
Qed.

(** X1. [decryptMaterials] returns exactly when every stage succeeds: both
    keys unwrap, both ciphers and tags are accepted, both tags verify and the
    share's text parses as JSON. What it returns is then the parsed share and
    the API key as text, taken as it is. *)
Theorem decryptMaterials_returns_iff (privateKeyPem : string)
  (share apiKeyEnc : EncryptedPayload) (m : Materials) :
  decryptMaterials C privateKeyPem share apiKeyEnc = Return m
  <->
  exists k1 k2,
    unwrapped_key C privateKeyPem share = Return k1
    /\ unwrapped_key C privateKeyPem apiKeyEnc = Return k2
    /\ returns (cipher_init C k1 (from_base64url C (iv share))) = true
    /\ returns (auth_tag_init C (from_base64url C (tag share))) = true
    /\ returns (cipher_init C k2 (from_base64url C (iv apiKeyEnc))) = true
    /\ returns (auth_tag_init C (from_base64url C (tag apiKeyEnc))) = true
    /\ tag_verifies C privateKeyPem share = true
    /\ tag_verifies C privateKeyPem apiKeyEnc = true
    /\ JSON_parse C
         (toString_utf8 C
            (gcm_stream C k1 (from_base64url C (iv share))
               (from_base64url C (ct share))))
       = Return (delegatedShare m)
    /\ walletApiKey m
       = toString_utf8 C
           (gcm_stream C k2 (from_base64url C (iv apiKeyEnc))
              (from_base64url C (ct apiKeyEnc))).
Proof.
  split.
  - intros H.
    destruct (unwrapped_key C privateKeyPem share) as [k1|e1] eqn:E1.
    2:{ revert H. unfold unwrapped_key in E1.
        unfold decryptMaterials, rsaOaepDecryptEk. cbv zeta.
        rewrite E1. discriminate. }
    destruct (unwrapped_key C privateKeyPem apiKeyEnc) as [k2|e2] eqn:E2.
    2:{ revert H. unfold unwrapped_key in E1, E2.
        unfold decryptMaterials, rsaOaepDecryptEk. cbv zeta.
        rewrite E1, E2. discriminate. }
    rewrite (decryptMaterials_with_keys _ _ _ E1 E2) in H.
    unfold try_catch, bind in H.
    destruct (decryptAesGcm C k1 _ _ _) as [p1|] eqn:G1; [|discriminate].
    destruct (decryptAesGcm C k2 _ _ _) as [p2|] eqn:G2; [|discriminate].
    destruct (JSON_parse C _) as [j|] eqn:J; [|discriminate].
    injection H as <-.
    destruct (decryptAesGcm_Return_inits _ _ _ _ G1) as [I1 I2].
    destruct (decryptAesGcm_Return_inits _ _ _ _ G2) as [I3 I4].
    apply decryptAesGcm_Return in G1 as [T1 ->], G2 as [T2 ->].
    exists k1, k2. unfold tag_verifies. rewrite E1, E2.
    repeat split; auto.
  - intros (k1 & k2 & E1 & E2 & I1 & I2 & I3 & I4 & T1 & T2 & J & W).
    rewrite (decryptMaterials_with_keys _ _ _ E1 E2).
    unfold tag_verifies in T1, T2. rewrite E1 in T1. rewrite E2 in T2.
    rewrite (decryptAesGcm_accepts _ _ _ _ I1 I2 T1).
    rewrite (decryptAesGcm_accepts _ _ _ _ I3 I4 T2).
    unfold try_catch, bind. rewrite J. destruct m; simpl in *. now subst.
Qed.

(** [decryptAesGcm] fails at the first of its three stages that does. *)
Lemma decryptAesGcm_stages (key : bytes) (ivB64 ctB64 tagB64 : string) :
  decryptAesGcm C key ivB64 ctB64 tagB64
  = match cipher_init C key (from_base64url C ivB64) with
    | Throw e => Throw e
    | Return _ =>
        match auth_tag_init C (from_base64url C tagB64) with
        | Throw e => Throw e
        | Return _ =>
            if gcm_tag_ok C key (from_base64url C ivB64)
                 (from_base64url C ctB64) (from_base64url C tagB64)
            then Return (gcm_stream C key (from_base64url C ivB64)
                           (from_base64url C ctB64))
            else Throw auth_failure
        end
    end.
Proof.
  unfold decryptAesGcm, createDecipheriv, setAuthTag, update, final, bind.
  destruct (cipher_init C key _); [|reflexivity].
  destruct (auth_tag_init C _); [|reflexivity]. simpl.
  destruct (gcm_tag_ok C key _ _ _); [|reflexivity].
  now rewrite app_nil_r.
Qed.

(** X2. Every failed stage of [decryptMaterials] reaches the caller with its
    own message behind the service's prefix, and the earliest stage that
    fails decides. The stages are, in this order: the unwrap of the share's
    key, the unwrap of the API key's key (both before any payload is
    touched, and with the prefix of the unwrap), then for the share and after
    it for the API key the cipher's rejection of key and IV, its rejection of
    the tag and the mismatch of the tag, and last the parsing of the share as
    JSON. Every error that [decryptMaterials] throws is an [Error] with the
    service's prefix. *)
Theorem decryptMaterials_error_messages (privateKeyPem : string)
  (share apiKeyEnc : EncryptedPayload) :
  let failed (msg : string) :=
    decryptMaterials C privateKeyPem share apiKeyEnc
    = Throw (Error ("Failed to decrypt delegation materials: " ++ msg)) in
  let stage (key : bytes) (e : EncryptedPayload) :=
    (forall err,
        cipher_init C key (from_base64url C (iv e)) = Throw err ->
        failed (message err))
    /\ (forall err,
          returns (cipher_init C key (from_base64url C (iv e))) = true ->
          auth_tag_init C (from_base64url C (tag e)) = Throw err ->
          failed (message err))
    /\ (returns (cipher_init C key (from_base64url C (iv e))) = true ->
        returns (auth_tag_init C (from_base64url C (tag e))) = true ->
        gcm_tag_ok C key (from_base64url C (iv e)) (from_base64url C (ct e))
          (from_base64url C (tag e)) = false ->
        failed "Unsupported state or unable to authenticate data") in
  (forall err,
      unwrapped_key C privateKeyPem share = Throw err ->
      failed ("Failed to decrypt content-encryption key: " ++ message err))
  /\ (forall k1 err,
        unwrapped_key C privateKeyPem share = Return k1 ->
        unwrapped_key C privateKeyPem apiKeyEnc = Throw err ->
        failed ("Failed to decrypt content-encryption key: " ++ message err))
  /\ (forall k1 k2,
        unwrapped_key C privateKeyPem share = Return k1 ->
        unwrapped_key C privateKeyPem apiKeyEnc = Return k2 ->
        stage k1 share
        /\ forall p1,
             decryptAesGcm C k1 (iv share) (ct share) (tag share)
             = Return p1 ->
             stage k2 apiKeyEnc
             /\ forall p2 err,
                  decryptAesGcm C k2 (iv apiKeyEnc) (ct apiKeyEnc)
                    (tag apiKeyEnc) = Return p2 ->
                  JSON_parse C (toString_utf8 C p1) = Throw err ->
                  failed (message err))
  /\ (forall e,
        decryptMaterials C privateKeyPem share apiKeyEnc = Throw e ->
        exists msg,
          e = Error ("Failed to decrypt delegation materials: " ++ msg)).
Proof.
  cbv zeta. split; [|split; [|split]].
  - intros e E1. unfold unwrapped_key in E1.
    unfold decryptMaterials, rsaOaepDecryptEk. cbv zeta. now rewrite E1.
  - intros k1 e E1 E2. unfold unwrapped_key in E1, E2.
    unfold decryptMaterials, rsaOaepDecryptEk. cbv zeta. now rewrite E1, E2.
  - intros k1 k2 E1 E2.
    rewrite (decryptMaterials_with_keys _ _ _ E1 E2).
    split; [|intros p1 H1; split].
    + rewrite decryptAesGcm_stages. repeat split.
      * now intros err ->.
      * intros err I1 ->.
        now destruct (cipher_init C k1 _); [|discriminate].
      * intros I1 I2 ->.
        destruct (cipher_init C k1 _); [|discriminate].
        now destruct (auth_tag_init C _); [|discriminate].
    + rewrite H1. unfold bind at 1. rewrite decryptAesGcm_stages.
      repeat split.
      * now intros err ->.
      * intros err I1 ->.
        now destruct (cipher_init C k2 _); [|discriminate].
      * intros I1 I2 ->.
        destruct (cipher_init C k2 _); [|discriminate].
        now destruct (auth_tag_init C _); [|discriminate].
    + intros p2 err H2 Hj. rewrite H1, H2. unfold bind. now rewrite Hj.
  - intros e. unfold decryptMaterials.
    match goal with
    | |- try_catch ?body _ = _ -> _ => destruct body as [m|err]
    end; cbn [try_catch]; [discriminate|].
    intros [= <-]. now exists (message err).
Qed.

End EnvelopeStages.

Section KeyNormalisation.
Import DelegationService.

Lemma replace_head (c : ascii) (rest : string) :
  exists x more,
    replace_escaped_newlines (String c rest) = String x more
    /\ (x = newline \/ x = c).
Proof.
  destruct rest as [|c2 rest]; simpl.
  - now exists c, EmptyString; auto.
  - destruct (Ascii.eqb c backslash && Ascii.eqb c2 "n"); eexists _, _; auto.
Qed.

Lemma newline_is_not_backslash : Ascii.eqb newline backslash = false.
Proof. reflexivity. Qed.

Lemma newline_is_not_n : Ascii.eqb newline "n" = false.
Proof. reflexivity. Qed.

Lemma replace_twice_bounded (n : nat) :
  forall s, String.length s <= n ->
    replace_escaped_newlines (replace_escaped_newlines s)
    = replace_escaped_newlines s.
Proof.
  induction n as [|n IH]; intros s Hlen.
  - destruct s; [reflexivity | simpl in Hlen; lia].
  - destruct s as [|c1 [|c2 rest]]; [reflexivity | reflexivity |].
    simpl in Hlen.
    change (replace_escaped_newlines (String c1 (String c2 rest)))
      with (if Ascii.eqb c1 backslash && Ascii.eqb c2 "n"
            then String newline (replace_escaped_newlines rest)
            else String c1 (replace_escaped_newlines (String c2 rest))).
    destruct (Ascii.eqb c1 backslash && Ascii.eqb c2 "n") eqn:E.
    + destruct (replace_escaped_newlines rest) as [|x more] eqn:R;
        [reflexivity|].
      change (replace_escaped_newlines (String newline (String x more)))
        with (if Ascii.eqb newline backslash && Ascii.eqb x "n"
              then String newline (replace_escaped_newlines more)
              else String newline (replace_escaped_newlines (String x more))).
      rewrite newline_is_not_backslash. simpl andb. cbv iota.
      rewrite <- R. rewrite IH by lia. reflexivity.
    + destruct (replace_head c2 rest) as (x & more & R & Hx).
      rewrite R.
      change (replace_escaped_newlines (String c1 (String x more)))
        with (if Ascii.eqb c1 backslash && Ascii.eqb x "n"
              then String newline (replace_escaped_newlines more)
              else String c1 (replace_escaped_newlines (String x more))).
      assert (Hno : Ascii.eqb c1 backslash && Ascii.eqb x "n" = false).
      { destruct Hx as [-> | ->]; [|exact E].
        rewrite newline_is_not_n. apply andb_false_r. }
      rewrite Hno. rewrite <- R. rewrite IH by (simpl; lia). reflexivity.
Qed.

(** X3. Replacing the escaped line feeds of a key a second time changes
    nothing: [decryptMaterials] normalises the key and [rsaOaepDecryptEk]
    normalises it again, and the key that reaches the RSA unwrap is the key
    normalised once. *)
Theorem replace_escaped_newlines_idempotent (privateKeyPem : string) :
  replace_escaped_newlines (replace_escaped_newlines privateKeyPem)
  = replace_escaped_newlines privateKeyPem
  /\ forall (C : NodeCrypto) (e : EncryptedPayload),
       unwrapped_key C privateKeyPem e
       = privateDecrypt C (replace_escaped_newlines privateKeyPem)
           (from_base64url C (ek e)).
Proof.
  assert (H : replace_escaped_newlines (replace_escaped_newlines privateKeyPem)
              = replace_escaped_newlines privateKeyPem)
    by (apply (@replace_twice_bounded (String.length privateKeyPem));
        apply Nat.le_refl).
  split; [exact H|].
  intros C e. unfold unwrapped_key. now rewrite H.
Qed.

(** X4. The service's own signature check never turns a webhook away: what
    [processDelegationWebhook] returns or throws is the same with any secret
    as with none, namely the outcome of the decryption; and on success the
    user, wallet and public key are those of the webhook's data and the event
    id that of the webhook. *)
Theorem processDelegationWebhook_ignores_the_secret (C : NodeCrypto)
  (webhook : DelegationWebhook) (privateKeyPem : string)
  (webhookSecret : option string) :
  snd (delegationService_processDelegationWebhook C webhook privateKeyPem
         webhookSecret)
  = snd (delegationService_processDelegationWebhook C webhook privateKeyPem
           None)
  /\ returns (snd (delegationService_processDelegationWebhook C webhook
                     privateKeyPem webhookSecret))
     = returns (decryptMaterials C privateKeyPem
                  (encryptedDelegatedShare (data webhook))
                  (encryptedWalletApiKey (data webhook)))
  /\ forall p,
       snd (delegationService_processDelegationWebhook C webhook
              privateKeyPem webhookSecret) = Return p ->
       p_userId p = userId (data webhook)
       /\ p_walletId p = walletId (data webhook)
       /\ p_publicKey p = publicKey (data webhook)
       /\ p_eventId p = eventId webhook.
Proof.
  unfold delegationService_processDelegationWebhook, processDelegationWebhook,
    verifyWebhookSignature.
  assert (Hsame :
    snd (let verification : list Step * result unit :=
           match webhookSecret with
           | Some secret =>
               if truthy_string secret
               then ([VerifySignature (JSON_stringify C webhook) "" secret],
                     if negb true
                     then Throw (Error "Invalid webhook signature")
                     else Return tt)
               else ([], Return tt)
           | None => ([], Return tt)
           end in
         match verification with
         | (steps, Throw e) => (steps, Throw e)
         | (steps, Return _) =>
             ((steps ++ [DecryptMaterials
                           (encryptedDelegatedShare (data webhook))
                           (encryptedWalletApiKey (data webhook))])%list,
              m <- decryptMaterials C privateKeyPem
                     (encryptedDelegatedShare (data webhook))
                     (encryptedWalletApiKey (data webhook)) ;;
              Return {| p_userId := userId (data webhook);
                        p_walletId := walletId (data webhook);
                        p_publicKey := publicKey (data webhook);
                        p_delegatedShare := delegatedShare m;
                        p_walletApiKey := walletApiKey m;
                        p_eventId := eventId webhook |})
         end)
    = (m <- decryptMaterials C privateKeyPem
              (encryptedDelegatedShare (data webhook))
              (encryptedWalletApiKey (data webhook)) ;;
       Return {| p_userId := userId (data webhook);
                 p_walletId := walletId (data webhook);
                 p_publicKey := publicKey (data webhook);
                 p_delegatedShare := delegatedShare m;
                 p_walletApiKey := walletApiKey m;
                 p_eventId := eventId webhook |})).
  { destruct webhookSecret as [secret|]; [|reflexivity].
    destruct (truthy_string secret); reflexivity. }
  cbv zeta in Hsame. cbv zeta. rewrite Hsame. simpl.
  split; [reflexivity|]. split.
  - now destruct (decryptMaterials C privateKeyPem _ _).
  - intros p. unfold bind.
    destruct (decryptMaterials C privateKeyPem _ _); [|discriminate].
    intros [= <-]. simpl. auto.
Qed.

End KeyNormalisation.

(** ** dynamicLabsService.ts: the endpoint loop of [triggerDelegation] *)

Section EndpointLoop.
Import DynamicLabsService DynamicLabsQueries.
Variable env : ProcessEnv.
Variable fetch : string -> FetchRequest -> result FetchResponse.

Lemma try_endpoint_gives_nothing (request : FetchRequest) (apiUrl : string) :
  gives_nothing fetch request apiUrl ->
  try_catch (try_endpoint fetch request apiUrl) (fun _ => Return None)
  = Return None.
Proof.
  unfold gives_nothing, try_endpoint, bind, try_catch.
  destruct (fetch apiUrl request) as [response|]; [|reflexivity].
  intros [Hok | [[e He] | Hnull]].
  - rewrite Hok. destruct (response_text response); [|reflexivity].
    destruct (response_status response =? 404)%nat; [reflexivity|].
    destruct ((response_status response =? 401)
              || (response_status response =? 403))%nat; reflexivity.
  - destruct (ok response).
    + now rewrite He.
    + destruct (response_text response); [|reflexivity].
      destruct (response_status response =? 404)%nat; [reflexivity|].
      destruct ((response_status response =? 401)
                || (response_status response =? 403))%nat; reflexivity.
  - destruct (ok response).
    + now rewrite Hnull.
    + destruct (response_text response); [|reflexivity].
      destruct (response_status response =? 404)%nat; [reflexivity|].
      destruct ((response_status response =? 401)
                || (response_status response =? 403))%nat; reflexivity.
Qed.

Lemma try_endpoints_skip (request : FetchRequest) (pre : list string) :
  forall rest,
    (forall apiUrl, In apiUrl pre -> gives_nothing fetch request apiUrl) ->
    try_endpoints fetch request (pre ++ rest)
    = try_endpoints fetch request rest.
Proof.
  induction pre as [|u pre IH]; intros rest H; simpl; [reflexivity|].
  rewrite try_endpoint_gives_nothing by (apply H; now left).
  apply IH. intros v Hv. apply H. now right.
Qed.

(** X5. [triggerDelegation] throws exactly when the environment id or the
    auth token is unset or empty; with both set it returns, whatever the
    endpoints do. *)
Theorem triggerDelegation_throws_only_without_credentials
  (walletId delegateEmail : string) (webhookUrl : option string) :
  returns (triggerDelegation env fetch walletId delegateEmail webhookUrl)
  = match NEXT_PUBLIC_DYNAMIC_ENVIRONMENT_ID env,
          NEXT_PUBLIC_DYNAMIC_AUTH_TOKEN env with
    | Some environmentId_, Some authToken_ =>
        truthy_string environmentId_ && truthy_string authToken_
    | _, _ => false
    end.
Proof.
  unfold triggerDelegation, getCredentials.
  destruct (NEXT_PUBLIC_DYNAMIC_ENVIRONMENT_ID env) as [a|]; [|reflexivity].
  destruct (NEXT_PUBLIC_DYNAMIC_AUTH_TOKEN env) as [b|]; [|reflexivity].
  destruct (truthy_string a), (truthy_string b); cbn [negb orb andb];
    try reflexivity.
  cbv zeta. now destruct (try_endpoints fetch _ _).
Qed.

(** X6. No failure of an endpoint reaches the caller, a 401 or 403 no more
    than a 404, a 500 or a network error: when no endpoint answers OK with a
    JSON body, the outcome is the result that asks for the client-side
    flow. *)
Theorem triggerDelegation_when_no_endpoint_answers
  (walletId delegateEmail : string) (webhookUrl : option string)
  (credentials : DynamicCredentials) :
  getCredentials env = Some credentials ->
  (forall apiUrl,
      In apiUrl (endpoints credentials walletId) ->
      gives_nothing fetch
        (delegation_request env credentials delegateEmail webhookUrl) apiUrl) ->
  triggerDelegation env fetch walletId delegateEmail webhookUrl
  = Return client_side_required.
Proof.
  intros Hc H. unfold triggerDelegation. rewrite Hc. cbv zeta.
  rewrite <- (app_nil_r (endpoints credentials walletId)).
  now rewrite (try_endpoints_skip _ _ [] H).
Qed.

(** X7. The first endpoint, in the order they are tried, that answers OK with
    a JSON body other than [null] decides the result: success, with the
    delegation id read from [delegationId], else [id], else [delegation.id],
    else [data.id]. *)
Theorem triggerDelegation_first_answer_wins
  (walletId delegateEmail : string) (webhookUrl : option string)
  (credentials : DynamicCredentials) (pre post : list string)
  (apiUrl : string) (response : FetchResponse) (body : Json) :
  getCredentials env = Some credentials ->
  endpoints credentials walletId = (pre ++ apiUrl :: post)%list ->
  (forall u, In u pre ->
     gives_nothing fetch
       (delegation_request env credentials delegateEmail webhookUrl) u) ->
  fetch apiUrl (delegation_request env credentials delegateEmail webhookUrl)
  = Return response ->
  ok response = true ->
  response_json response = Return body ->
  body <> JNull ->
  triggerDelegation env fetch walletId delegateEmail webhookUrl
  = Return
      {| success := true;
         trigger_message :=
           "Delegation triggered successfully via server-side API";
         delegationId :=
           or_else truthy (get_prop_opt (Some body) "delegationId")
             (or_else truthy (get_prop_opt (Some body) "id")
                (or_else truthy
                   (get_prop_opt (get_prop_opt (Some body) "delegation") "id")
                   (get_prop_opt (get_prop_opt (Some body) "data") "id")));
         requiresClientSide := None |}.
Proof.
  intros Hc Hsplit Hpre Hf Hok Hj Hnn.
  unfold triggerDelegation. rewrite Hc. cbv zeta. rewrite Hsplit.
  rewrite (try_endpoints_skip _ _ _ Hpre). simpl.
  unfold try_endpoint, bind, try_catch. rewrite Hf, Hok, Hj.
  destruct body; try reflexivity. now elim Hnn.
Qed.

End EndpointLoop.

(** ** store.ts and the delegated-access routes *)

Section StoreAndRoutes.
Import Store DelegatedAccessesApi.

Lemma map_set_set (V : Type) (m : JsMap V) (k : string) (v w : V) :
  map_set (map_set m k v) k w = map_set m k w.
Proof.
  induction m as [|[k' v'] m IH]; simpl.
  - now rewrite String.eqb_refl.
  - destruct (String.eqb k k') eqn:E; simpl; rewrite E; [reflexivity|].
    now rewrite IH.
Qed.

Lemma map_set_length (V : Type) (m : JsMap V) (k : string) (v : V) :
  List.length (map_set m k v)
  = List.length m + match map_get m k with Some _ => 0 | None => 1 end.
Proof.
  unfold map_get. induction m as [|[k' v'] m IH]; simpl; [reflexivity|].
  destruct (String.eqb k k'); simpl; [lia | now rewrite IH].
Qed.

Lemma map_keys_set_absent (V : Type) (m : JsMap V) (k : string) (v : V) :
  map_get m k = None -> map_keys (map_set m k v) = (map_keys m ++ [k])%list.
Proof.
  unfold map_get, map_keys. induction m as [|[k' v'] m IH]; simpl;
    [reflexivity|].
  destruct (String.eqb k k'); [discriminate|].
  intros H. simpl. now rewrite IH.
Qed.

(** X8. [createDelegatedAccess] stores the record under its own [id] and
    returns it. An id that is new adds one record at the end; an id that is
    already there has its record overwritten where it stands, so that the
    number of records does not change; no other record is touched. *)
Theorem createDelegatedAccess_inserts_or_overwrites (s : Store)
  (da : DelegatedAccess) :
  let s' := fst (createDelegatedAccess s da) in
  snd (createDelegatedAccess s da) = da
  /\ getDelegatedAccess s' (id da) = Some da
  /\ (forall k, k <> id da -> getDelegatedAccess s' k = getDelegatedAccess s k)
  /\ List.length (getAllDelegatedAccesses s')
     = List.length (getAllDelegatedAccesses s)
       + match getDelegatedAccess s (id da) with Some _ => 0 | None => 1 end
  /\ map_keys (delegatedAccesses s')
     = match getDelegatedAccess s (id da) with
       | Some _ => map_keys (delegatedAccesses s)
       | None => (map_keys (delegatedAccesses s) ++ [id da])%list
       end.
Proof.
  unfold createDelegatedAccess, getDelegatedAccess, getAllDelegatedAccesses,
    map_values. simpl. repeat split.
  - apply map_get_set_same.
  - intros k Hk. now apply map_get_set_other.
  - rewrite !List.length_map. apply map_set_length.
  - destruct (map_get (delegatedAccesses s) (id da)) eqn:G.
    + eapply map_keys_set_present. exact G.
    + now apply map_keys_set_absent.
Qed.

(** X9. [updateDelegatedAccess] never moves a record: whatever the updates,
    an [id] among them included, the keys of the map and their order stay,
    every other record stays, and the record found under the given id becomes
    the spread of the old one and the updates, still under that id. An id
    that is not there gives [undefined] and leaves the store as it was. *)
Theorem updateDelegatedAccess_keeps_the_keys (s : Store) (id_ : string)
  (updates : PartialDelegatedAccess) :
  let s' := fst (updateDelegatedAccess s id_ updates) in
  map_keys (delegatedAccesses s') = map_keys (delegatedAccesses s)
  /\ (vaults s' = vaults s /\ wallets s' = wallets s /\ users s' = users s
      /\ policies s' = policies s)
  /\ (forall k, k <> id_ -> getDelegatedAccess s' k = getDelegatedAccess s k)
  /\ match getDelegatedAccess s id_ with
     | Some da =>
         snd (updateDelegatedAccess s id_ updates) = Some (spread da updates)
         /\ getDelegatedAccess s' id_ = Some (spread da updates)
     | None =>
         snd (updateDelegatedAccess s id_ updates) = None /\ s' = s
     end.
Proof.
  unfold updateDelegatedAccess, getDelegatedAccess.
  destruct (map_get (delegatedAccesses s) id_) as [da|] eqn:G; simpl.
  - repeat split.
    + eapply map_keys_set_present. exact G.
    + intros k Hk. now apply map_get_set_other.
    + apply map_get_set_same.
  - repeat split.
Qed.

(** X10. PATCH is idempotent: the same request a second time changes neither
    the store nor the answer; and after a PATCH that answered 200, GET on the
    same id answers with the same body. *)
Theorem PATCH_twice_is_PATCH_once (s : Store) (params_id : string)
  (request_json : result Json) :
  let s1 := fst (PATCH s params_id request_json) in
  let r1 := snd (PATCH s params_id request_json) in
  PATCH s1 params_id request_json = (s1, r1)
  /\ (status_code r1 = 200 -> GET s1 params_id = r1).
Proof.
  unfold PATCH, GET.
  destruct (body_ <- request_json ;; get_prop body_ "status") as [st|e];
    cbv zeta; cbn [fst snd]; [|split; [reflexivity | discriminate]].
  unfold updateDelegatedAccess, getDelegatedAccess.
  destruct (map_get (delegatedAccesses s) params_id) as [da|] eqn:G; simpl.
  - rewrite map_get_set_same.
    rewrite !spread_only_status. simpl.
    assert (Hst :
      match or_else truthy st
              (Some match or_else truthy st (Some (status da)) with
                    | Some v => v
                    | None => status da
                    end) with
      | Some v => v
      | None => match or_else truthy st (Some (status da)) with
                | Some v => v
                | None => status da
                end
      end
      = match or_else truthy st (Some (status da)) with
        | Some v => v
        | None => status da
        end).
    { destruct st as [v|]; simpl; [|reflexivity].
      destruct (truthy v); reflexivity. }
    rewrite Hst. rewrite map_set_set. split; reflexivity.
  - rewrite G. split; [reflexivity | discriminate].
Qed.

(** X11. The answer codes of PATCH: 500 when the body cannot be read (it is
    not JSON, or it is [null]), also for an id that does not exist, since the
    body is read first; otherwise 404 for an unknown id and 200 for a known
    one. Only a 200 can have changed the store. *)
Theorem PATCH_status_codes (s : Store) (params_id : string)
  (request_json : result Json) :
  status_code (snd (PATCH s params_id request_json))
  = (if returns (body_ <- request_json ;; get_prop body_ "status")
     then match getDelegatedAccess s params_id with
          | Some _ => 200
          | None => 404
          end
     else 500)
  /\ (status_code (snd (PATCH s params_id request_json)) <> 200 ->
      fst (PATCH s params_id request_json) = s).
Proof.
  unfold PATCH.
  destruct (body_ <- request_json ;; get_prop body_ "status") as [st|e];
    simpl; [|split; auto].
  unfold updateDelegatedAccess, getDelegatedAccess.
  destruct (map_get (delegatedAccesses s) params_id) as [da|]; simpl;
    split; auto. congruence.
Qed.

(** X12. PATCH does not validate the status it is given: any truthy JSON
    value in [status], a string that is no status, a number or an object,
    becomes the record's status as it is; a falsy one ([null], [false], [0],
    the empty string) leaves the record's status alone. *)
Theorem PATCH_stores_any_truthy_status (s : Store) (params_id : string)
  (body_ : Json) (da : DelegatedAccess) (v : Json) :
  getDelegatedAccess s params_id = Some da ->
  get_prop body_ "status" = Return (Some v) ->
  getDelegatedAccess (fst (PATCH s params_id (Return body_))) params_id
  = Some (with_status da (if truthy v then v else status da)).
Proof.
  intros G B. unfold PATCH. simpl. rewrite B, G.
  unfold updateDelegatedAccess, getDelegatedAccess in *. rewrite G. simpl.
  rewrite map_get_set_same, spread_only_status.
  now destruct (truthy v).
Qed.

(** X13. GET /api/delegated-accesses answers 200 with the stored records, in
    the order of the store, that match every query parameter given; a
    parameter that is absent or empty does not filter, so that without
    parameters every record is listed, whatever its status. *)
Theorem GET_all_lists_the_matching_records (s : Store)
  (vaultId_ walletId_ delegateEmail_ : option string) :
  let given q (field : DelegatedAccess -> string) da :=
    match q with
    | Some v => if truthy_string v then String.eqb (field da) v else true
    | None => true
    end in
  GET_all s vaultId_ walletId_ delegateEmail_
  = json_ok
      (JArr (List.map sanitized
               (List.filter
                  (fun da => given vaultId_ vaultId da
                             && given walletId_ walletId da
                             && given delegateEmail_ delegateEmail da)
                  (getAllDelegatedAccesses s))))
  /\ GET_all s None None None
     = json_ok (JArr (List.map sanitized (getAllDelegatedAccesses s))).
Proof.
  intros given. split; [|reflexivity].
  unfold GET_all. do 2 f_equal.
  assert (Hone : forall q field l,
             filter_by q field l = List.filter (given q field) l).
  { intros q field l. unfold filter_by, given.
    destruct q as [v|].
    - destruct (truthy_string v); [reflexivity|].
      induction l as [|a l IH]; simpl; [reflexivity | now rewrite <- IH].
    - induction l as [|a l IH]; simpl; [reflexivity | now rewrite <- IH]. }
  rewrite !Hone.
  generalize (getAllDelegatedAccesses s). intros l.
  induction l as [|a l IH]; simpl; [reflexivity|].
  destruct (given vaultId_ vaultId a); simpl; [|exact IH].
  destruct (given walletId_ walletId a); simpl; [|exact IH].
  destruct (given delegateEmail_ delegateEmail a); simpl; [|exact IH].
  now rewrite IH.
Qed.

End StoreAndRoutes.

(** ** The handlers of the pending-transactions component *)

Section ComponentHandlers.
Import AddressCodec PendingTransactions.
Variable keccak256 : string -> list Z.
Variable T : Type.
Variable X : Externals T.
Variable session : Session.

(** X14. Loading asks the service once. Afterwards the list is the answer's
    list of transactions with the executed ones filtered out, the others in
    the order and number the answer has them, and is empty when the answer
    has no results or the service failed, in which case the error of the
    service is shown; the loading flag is down, and the success message and
    the signing mark are as before. *)
Theorem loadPendingTransactions_lists_only_pending (u : Ui) :
  let u' := fst (loadPendingTransactions X session u) in
  snd (loadPendingTransactions X session u)
  = [@GetPendingTransactions T (safeAddress session)]
  /\ List.Forall (fun tx => isExecuted tx = false) (pendingTxs u')
  /\ isLoadingTxs u' = false
  /\ success u' = success u
  /\ isSigning u' = isSigning u
  /\ match getPendingTransactions X (safeAddress session) with
     | Return (Some results) =>
         pendingTxs u'
         = List.filter (fun tx => negb (isExecuted tx)) results
         /\ error u' = ""
     | Return None => pendingTxs u' = [] /\ error u' = ""
     | Throw err =>
         pendingTxs u' = []
         /\ error u' = error_text err "Failed to load pending transactions"
     end.
Proof.
  unfold loadPendingTransactions. cbv zeta. cbn [fst snd].
  destruct (getPendingTransactions X (safeAddress session)) as [[results|]|err];
    cbn;
    (split; [reflexivity|]);
    (split; [|split; [reflexivity|split; [reflexivity|split; [reflexivity|]]]]);
    auto.
  apply List.Forall_forall. intros tx Htx.
  apply List.filter_In in Htx. destruct Htx as [_ Htx].
  now destruct (isExecuted tx).
Qed.

(** Closes the first four parts of [sign_body_trace] on a concrete trace. *)
Ltac trace_facts :=
  split; [discriminate|];
  split; [reflexivity|];
  split; [reflexivity|];
  split; [intros ? Hin; cbn in Hin; intuition discriminate|].

(** The calls of the [try] block of the sign handler. *)
Lemma sign_body_trace (account : Account) (tx : SafeTransaction) :
  let tr := fst (sign_body X session account tx) in
  tr <> []
  /\ submitted tr = []
  /\ added_signatures tr = []
  /\ (forall a, ~ List.In (@GetPendingTransactions T a) tr)
  /\ match snd (sign_body X session account tx) with
     | Return _ =>
         exists sg, truthy_string sg = true
                    /\ confirmTx X (safeTxHash tx) sg = Return tt
                    /\ confirmations_sent tr = [(safeTxHash tx, sg)]
     | Throw err =>
         confirmations_sent tr = []
         \/ exists sg, truthy_string sg = true
                       /\ confirmTx X (safeTxHash tx) sg = Throw err
                       /\ confirmations_sent tr = [(safeTxHash tx, sg)]
     end.
Proof.
  unfold sign_body, ebind, call, lift.
  destruct (createParaProvider X) as [[]|e1]; cbn;
    [|trace_facts; now left].
  destruct (getSafeSdk X _ _) as [[]|e2]; cbn;
    [|trace_facts; now left].
  destruct (createTransaction X _) as [t|e3]; cbn;
    [|trace_facts; now left].
  destruct (getTransactionHash X t) as [h|e4]; cbn;
    [|trace_facts; now left].
  destruct (signTransaction X t) as [signedTx|e5]; cbn;
    [|trace_facts; now left].
  destruct (truthy_string (extract_signature X signedTx)) eqn:Hs; cbn;
    [|trace_facts; now left].
  destruct (confirmTx X (safeTxHash tx) (extract_signature X signedTx))
    as [[]|e6] eqn:Hc; cbn; trace_facts.
  - now exists (extract_signature X signedTx).
  - right. now exists (extract_signature X signedTx).
Qed.

(** Closes a case in which the sign handler stopped at a guard. *)
Ltac guard_stop :=
  cbn; split; [reflexivity|]; split; [reflexivity|];
  split; [intros ?; first [congruence | split; reflexivity]|];
  left; repeat split.

(** X15. What the sign handler can do, whatever the outside answers. Either
    it stops at a guard: no call is made, and list, signing mark and success
    message stay (the exception of the address normalisation, which is
    outside the [try], escapes with the state untouched). Or its body fails:
    the error shown is the one that was thrown, the signing mark is cleared
    and the list is not reloaded. Or the service accepted one confirmation,
    for the hash of the transaction and with a signature that is not empty:
    then the list is reloaded and the signing mark cleared. It never adds a
    signature to a transaction object and never submits one. *)
Theorem handleSignTransaction_outcomes (u : Ui) (tx : SafeTransaction) :
  let out := handleSignTransaction keccak256 X session u tx in
  submitted (calls out) = []
  /\ added_signatures (calls out) = []
  /\ (uncaught out <> None -> ui out = u /\ calls out = [])
  /\ ((calls out = [] /\ pendingTxs (ui out) = pendingTxs u
       /\ isSigning (ui out) = isSigning u /\ success (ui out) = success u)
      \/ (exists err,
            error (ui out) = error_text err "Failed to confirm transaction"
            /\ isSigning (ui out) = None /\ success (ui out) = ""
            /\ pendingTxs (ui out) = pendingTxs u
            /\ (forall a, ~ List.In (@GetPendingTransactions T a) (calls out))
            /\ (forall h sg, List.In (h, sg) (confirmations_sent (calls out)) ->
                             confirmTx X h sg = Throw err))
      \/ (exists sg tr,
            truthy_string sg = true
            /\ confirmTx X (safeTxHash tx) sg = Return tt
            /\ confirmations_sent (calls out) = [(safeTxHash tx, sg)]
            /\ calls out
               = (tr ++ [@GetPendingTransactions T (safeAddress session)])%list
            /\ isSigning (ui out) = None
            /\ success (ui out) = "Transaction confirmed! Reloading..."
            /\ pendingTxs (ui out)
               = pendingTxs (fst (loadPendingTransactions X session u)))).
Proof.
  unfold handleSignTransaction.
  destruct (viemAccount session) as [account|]; [|guard_stop].
  destruct (walletClient session) as [wc|]; [|guard_stop].
  destruct (getAddress keccak256 (address account)) as [current|e0];
    [|guard_stop].
  destruct (negb _); [guard_stop|].
  cbv zeta.
  destruct (hasAlreadySigned keccak256 current _) as [[|]|e1];
    [guard_stop| |guard_stop].
  pose proof (sign_body_trace account tx) as B. cbv zeta in B.
  destruct (sign_body X session account tx) as [tr [[]|err]];
    cbn [fst snd] in B; destruct B as (Hne & Hsub & Hadd & Hload & Hconf).
  - destruct Hconf as (sg & Hsg & Hok & Hsent).
    unfold loadPendingTransactions. cbv zeta. cbn [calls ui uncaught done].
    rewrite submitted_app, added_signatures_app, confirmations_sent_app.
    rewrite Hsub, Hadd, Hsent. cbn [submitted added_signatures
      confirmations_sent app].
    split; [reflexivity|]. split; [reflexivity|].
    split; [intros H; congruence|].
    right. right. exists sg, tr.
    split; [exact Hsg|]. split; [exact Hok|]. split; [reflexivity|].
    split; [reflexivity|].
    now destruct (getPendingTransactions X (safeAddress session)) as [[r|]|e].
  - cbn [calls ui uncaught done].
    split; [exact Hsub|]. split; [exact Hadd|].
    split; [intros H; congruence|].
    right. left. exists err.
    split; [reflexivity|]. split; [reflexivity|]. split; [reflexivity|].
    split; [reflexivity|]. split; [exact Hload|].
    intros h sg Hin. destruct Hconf as [Hnone | (sg' & _ & Hthrow & Hsent)].
    + rewrite Hnone in Hin. destruct Hin.
    + rewrite Hsent in Hin. destruct Hin as [Heq|[]].
      injection Heq as <- <-. exact Hthrow.
Qed.

(** Closes a case in which the handler made no call at all. *)
Ltac nothing_called :=
  let H := fresh in intros H; exfalso; apply H; reflexivity.

(** X16. The sign handler reaches the outside exactly when a wallet and its
    client are there, the checksummed address of the wallet is, character for
    character, among the owners of the Safe, and no confirmation of the
    transaction is by that address, compared without regard to case. *)
Theorem handleSignTransaction_starts_iff (u : Ui) (tx : SafeTransaction) :
  calls (handleSignTransaction keccak256 X session u tx) <> []
  <-> exists account current,
        viemAccount session = Some account
        /\ walletClient session <> None
        /\ getAddress keccak256 (address account) = Return current
        /\ List.In current (owners session)
        /\ hasAlreadySigned keccak256 current (confirmations_or_empty tx)
           = Return false.
Proof.
  unfold handleSignTransaction. split.
  - destruct (viemAccount session) as [account|]; [|nothing_called].
    destruct (walletClient session) as [wc|]; [|nothing_called].
    destruct (getAddress keccak256 (address account)) as [current|] eqn:Ec;
      [|nothing_called].
    destruct (List.existsb _ _) eqn:Eo; cbn [negb]; [|nothing_called].
    cbv zeta.
    destruct (hasAlreadySigned keccak256 current _) as [[|]|] eqn:E;
      try nothing_called.
    intros _. exists account, current.
    split; [reflexivity|]. split; [discriminate|]. split; [exact Ec|].
    split; [|exact E].
    apply List.existsb_exists in Eo. destruct Eo as (o & Hin & Heq).
    apply String.eqb_eq in Heq. now subst o.
  - intros (account & current & -> & Hwc & -> & Hin & ->).
    destruct (walletClient session) as [wc|]; [|congruence].
    assert (Eo : List.existsb (String.eqb current) (owners session) = true).
    { apply List.existsb_exists. exists current. split; [exact Hin|].
      apply String.eqb_refl. }
    rewrite Eo. cbn [negb]. cbv zeta.
    pose proof (sign_body_trace account tx) as B. cbv zeta in B.
    destruct (sign_body X session account tx) as [tr [[]|err]];
      cbn [fst snd] in B; destruct B as (Hne & _).
    + unfold loadPendingTransactions. cbv zeta. cbn [calls done].
      now destruct tr.
    + exact Hne.
Qed.

(** The calls of the loop that adds the signatures. *)
Lemma add_signatures_trace (confs : list Confirmation) :
  forall t : T,
    List.Forall (fun c => match c with
                          | AddSignature _ _ _ => True
                          | _ => False
                          end)
      (fst (add_signatures keccak256 X confs t)).
Proof.
  induction confs as [|c confs IH]; intros t; simpl; [constructor|].
  destruct (getAddress keccak256 (owner c)) as [a|e]; [|constructor].
  destruct (truthy_string (signature c)); [|apply IH].
  unfold ebind, call.
  specialize (IH (addSignature X t a (signature c))).
  destruct (add_signatures keccak256 X confs _) as [tr r].
  cbn [fst] in *. now constructor.
Qed.

Lemma only_added (tr : list (Call T)) :
  List.Forall (fun c => match c with
                        | AddSignature _ _ _ => True
                        | _ => False
                        end) tr ->
  confirmations_sent tr = [] /\ submitted tr = []
  /\ forall a, ~ List.In (@GetPendingTransactions T a) tr.
Proof.
  induction 1 as [|c tr Hc _ (IH1 & IH2 & IH3)]; [now repeat split|].
  destruct c; try contradiction. cbn.
  repeat split; auto. intros a [Hin|Hin]; [discriminate | now apply (IH3 a)].
Qed.

(** The calls of the [try] block of the execute handler. *)
Lemma execute_body_trace (account : Account) (tx : SafeTransaction)
  (confs : list Confirmation) :
  let tr := fst (execute_body keccak256 X session account tx confs) in
  tr <> []
  /\ confirmations_sent tr = []
  /\ (forall a, ~ List.In (@GetPendingTransactions T a) tr)
  /\ match snd (execute_body keccak256 X session account tx confs) with
     | Return hash =>
         exists t pre, tr = (pre ++ [ExecuteTransaction t])%list
                       /\ submitted pre = []
                       /\ executeTransaction X t = Return hash
     | Throw err =>
         submitted tr = []
         \/ exists t, submitted tr = [t]
                      /\ executeTransaction X t = Throw err
     end.
Proof.
  unfold execute_body, ebind, call.
  destruct (getTx X (safeTxHash tx)) as [d|e1]; cbn;
    [|split; [discriminate|]; split; [reflexivity|];
      split; [intros ? Hin; cbn in Hin; intuition discriminate | now left]].
  destruct (createParaProvider X) as [[]|e2]; cbn;
    [|split; [discriminate|]; split; [reflexivity|];
      split; [intros ? Hin; cbn in Hin; intuition discriminate | now left]].
  destruct (getSafeSdk X _ _) as [[]|e3]; cbn;
    [|split; [discriminate|]; split; [reflexivity|];
      split; [intros ? Hin; cbn in Hin; intuition discriminate | now left]].
  destruct (createTransaction X _) as [t0|e4]; cbn;
    [|split; [discriminate|]; split; [reflexivity|];
      split; [intros ? Hin; cbn in Hin; intuition discriminate | now left]].
  pose proof (only_added (add_signatures_trace confs t0)) as (Hc & Hs & Hl).
  destruct (add_signatures keccak256 X confs t0) as [tra [t1|e5]];
    cbn [fst snd] in *.
  - destruct (executeTransaction X t1) as [hash|e6] eqn:He; cbn.
    + split; [discriminate|].
      rewrite confirmations_sent_app, Hc. split; [reflexivity|].
      split.
      { intros a Hin. cbn in Hin.
        destruct Hin as [Hin|[Hin|[Hin|[Hin|Hin]]]]; try discriminate.
        apply List.in_app_or in Hin. destruct Hin as [Hin|[Hin|[]]];
          [now apply (Hl a) | discriminate]. }
      exists t1.
      exists ([GetTransaction T (safeTxHash tx); CreateParaProvider T;
               GetSafeSdk T (safeAddress session) (address account);
               CreateTransaction T (meta_of d)] ++ tra)%list.
      split; [reflexivity|]. split; [exact Hs | exact He].
    + split; [discriminate|].
      rewrite confirmations_sent_app, Hc. split; [reflexivity|].
      split.
      { intros a Hin. cbn in Hin.
        destruct Hin as [Hin|[Hin|[Hin|[Hin|Hin]]]]; try discriminate.
        apply List.in_app_or in Hin. destruct Hin as [Hin|[Hin|[]]];
          [now apply (Hl a) | discriminate]. }
      right. exists t1. rewrite submitted_app, Hs. split; [reflexivity | exact He].
  - cbn. split; [discriminate|]. split; [exact Hc|].
    split.
    { intros a Hin. cbn in Hin.
      destruct Hin as [Hin|[Hin|[Hin|[Hin|Hin]]]]; try discriminate.
      now apply (Hl a). }
    now left.
Qed.

(** X17. What the execute handler can do, whatever the outside answers. No
    exception escapes it and it never sends a confirmation. Either it stops
    at a guard, with no call made and list, signing mark and success message
    as before. Or its body fails, on the service, the SDK, a malformed owner
    among the confirmations or the execution itself: the error thrown is
    shown, the signing mark is cleared, the list is not reloaded, and a
    transaction was submitted at most once, in vain. Or one transaction was
    submitted and executed: its hash is reported, the list is reloaded right
    after the submission and the signing mark cleared. *)
Theorem handleExecuteTransaction_outcomes (u : Ui) (tx : SafeTransaction) :
  let out := handleExecuteTransaction keccak256 X session u tx in
  uncaught out = None
  /\ confirmations_sent (calls out) = []
  /\ ((calls out = [] /\ pendingTxs (ui out) = pendingTxs u
       /\ isSigning (ui out) = isSigning u /\ success (ui out) = success u)
      \/ (exists err,
            error (ui out) = error_text err "Failed to execute transaction"
            /\ isSigning (ui out) = None /\ success (ui out) = ""
            /\ pendingTxs (ui out) = pendingTxs u
            /\ (forall a, ~ List.In (@GetPendingTransactions T a) (calls out))
            /\ (submitted (calls out) = []
                \/ exists t, submitted (calls out) = [t]
                             /\ executeTransaction X t = Throw err))
      \/ (exists t hash pre,
            executeTransaction X t = Return hash
            /\ submitted (calls out) = [t]
            /\ calls out
               = (pre ++ [ExecuteTransaction t;
                          @GetPendingTransactions T (safeAddress session)])%list
            /\ isSigning (ui out) = None
            /\ success (ui out) = executed_successfully hash
            /\ pendingTxs (ui out)
               = pendingTxs (fst (loadPendingTransactions X session u)))).
Proof.
  unfold handleExecuteTransaction.
  destruct (viemAccount session) as [account|];
    [|cbn; split; [reflexivity|]; split; [reflexivity|]; left; repeat split].
  destruct (walletClient session) as [wc|];
    [|cbn; split; [reflexivity|]; split; [reflexivity|]; left; repeat split].
  cbv zeta.
  destruct (_ <? _)%nat;
    [cbn; split; [reflexivity|]; split; [reflexivity|]; left; repeat split|].
  pose proof (execute_body_trace account tx (confirmations_or_empty tx)) as B.
  cbv zeta in B.
  destruct (execute_body keccak256 X session account tx _) as [tr [hash|err]];
    cbn [fst snd] in B; destruct B as (Hne & Hconf & Hload & Hsub).
  - destruct Hsub as (t & pre & -> & Hpre & Hex).
    unfold loadPendingTransactions. cbv zeta. cbn [calls ui uncaught done].
    rewrite confirmations_sent_app, Hconf. cbn [confirmations_sent app].
    split; [reflexivity|]. split; [reflexivity|].
    right. right. exists t, hash, pre.
    split; [exact Hex|].
    split; [rewrite !submitted_app, Hpre; reflexivity|].
    split; [now rewrite <- List.app_assoc|].
    split; [reflexivity|]. split.
    + now destruct (getPendingTransactions X (safeAddress session))
        as [[r|]|e].
    + now destruct (getPendingTransactions X (safeAddress session))
        as [[r|]|e].
  - cbn [calls ui uncaught done].
    split; [reflexivity|]. split; [exact Hconf|].
    right. left. exists err.
    split; [reflexivity|]. split; [reflexivity|]. split; [reflexivity|].
    split; [reflexivity|]. split; [exact Hload | exact Hsub].
Qed.

(** X18. One confirmation that names a malformed owner stops the execution
    before anything is submitted, signature or not and quorum or not: the
    error of the address normalisation is what is shown. *)
Theorem execute_stops_on_a_malformed_owner (u : Ui) (tx d : SafeTransaction)
  (account : Account) (wc : WalletClient) (t0 : T) (e : JsError) :
  viemAccount session = Some account ->
  walletClient session = Some wc ->
  threshold session <= List.length (confirmations_or_empty tx) ->
  getTx X (safeTxHash tx) = Return d ->
  createParaProvider X = Return tt ->
  getSafeSdk X (safeAddress session) (address account) = Return tt ->
  createTransaction X (meta_of d) = Return t0 ->
  signatures_of keccak256 (confirmations_or_empty tx) = Throw e ->
  let out := handleExecuteTransaction keccak256 X session u tx in
  submitted (calls out) = []
  /\ error (ui out) = error_text e "Failed to execute transaction"
  /\ success (ui out) = ""
  /\ isSigning (ui out) = None
  /\ pendingTxs (ui out) = pendingTxs u.
Proof.
  intros Hacc Hwc Hthr Htx Hpp Hsdk Hct Hsigs.
  unfold handleExecuteTransaction. rewrite Hacc, Hwc.
  apply Nat.ltb_ge in Hthr. cbv zeta. rewrite Hthr.
  unfold execute_body, ebind, call.
  rewrite Htx, Hpp, Hsdk, Hct.
  pose proof (only_added (add_signatures_trace (confirmations_or_empty tx) t0))
    as (_ & Hs & _).
  destruct (@add_signatures_throws keccak256 T X (confirmations_or_empty tx)
              t0 e Hsigs) as [tra Hadd].
  rewrite Hadd in *. cbn [fst] in Hs. cbn.
  rewrite Hs. repeat split.
Qed.

End ComponentHandlers.

(** ** The queries of the Dynamic Labs service *)

Section UserQueries.
Import DynamicLabsService DynamicLabsUsers JsText.
Variable env : ProcessEnv.
Variable fetch : string -> FetchRequest -> result FetchResponse.
Variable JSON_parse : string -> result Json.
Variable Number_toString : Z -> string.

Lemma try_catch_rethrow (A : Type) (m : result A) :
  try_catch m (fun error => Throw error) = m.
Proof. now destruct m. Qed.

Lemma not_ok_404 (response : FetchResponse) :
  response_status response = 404 -> ok response = false.
Proof. unfold ok. now intros ->. Qed.

(** X19. [getUserById], once the service has answered: it returns [null]
    exactly when the answer is a 404. Another answer that is not a success
    is thrown with the message of the service: the [error] text of its JSON
    body when it has one, the raw body when the body is not JSON. A success
    whose body lacks [id] and [email] gives the requested id and the empty
    e-mail. *)
Theorem getUserById_outcomes (dynamicUserId : string)
  (credentials : DynamicCredentials) (response : FetchResponse) :
  getCredentials env = Some credentials ->
  fetch (user_url credentials dynamicUserId) (get_request credentials)
  = Return response ->
  let user := getUserById env fetch JSON_parse Number_toString dynamicUserId in
  (user = Return None <-> response_status response = 404)
  /\ (forall errorText,
        ok response = false -> response_status response <> 404 ->
        response_text response = Return errorText ->
        (forall e, JSON_parse errorText = Throw e ->
                   user = Throw (Error errorText))
        /\ (forall fields msg,
              JSON_parse errorText = Return (JObj fields) ->
              assoc "error" fields = Some (JStr msg) ->
              truthy_string msg = true ->
              user = Throw (Error msg)))
  /\ (forall fields,
        ok response = true ->
        response_json response = Return (JObj fields) ->
        assoc "id" fields = None -> assoc "email" fields = None ->
        user = Return (Some {| user_id := JStr dynamicUserId;
                               user_email := JStr "";
                               firstName := assoc "firstName" fields;
                               lastName := assoc "lastName" fields |})).
Proof.
  intros Hc Hf user. subst user. unfold getUserById.
  rewrite Hc, try_catch_rethrow, Hf. cbn [bind].
  split; [|split].
  - split.
    + destruct (ok response) eqn:Hok; cbn [negb].
      * unfold bind.
        destruct (response_json response) as [userData|]; [|discriminate].
        destruct (get_prop userData "id"); [|discriminate].
        destruct (get_prop userData "email"); [|discriminate].
        destruct (get_prop userData "firstName"); [|discriminate].
        destruct (get_prop userData "lastName"); discriminate.
      * destruct (response_status response =? 404)%nat eqn:H4.
        { intros _. now apply Nat.eqb_eq. }
        unfold bind.
        destruct (response_text response); discriminate.
    + intros H404. rewrite (not_ok_404 response H404). cbn [negb].
      rewrite H404. reflexivity.
  - intros errorText Hok H404 Htext. rewrite Hok. cbn [negb].
    apply Nat.eqb_neq in H404. rewrite H404.
    unfold bind. rewrite Htext. cbv beta iota zeta. split.
    + intros e ->. reflexivity.
    + intros fields msg -> Hmsg Htruthy. unfold errorMessage, or_value.
      cbn [get_prop_opt]. rewrite Hmsg. cbn [truthy]. rewrite Htruthy.
      reflexivity.
  - intros fields Hok Hjson Hid Hemail. rewrite Hok. cbn [negb].
    unfold bind. rewrite Hjson. cbn [get_prop]. rewrite Hid, Hemail.
    reflexivity.
Qed.

Lemma first_delegations_succeeds (request : FetchRequest) (urls : list string)
  (r : DelegationsResult) :
  first_delegations fetch request urls = Some r ->
  delegations_success r = true /\ delegations r <> None
  /\ delegations_message r = None
  /\ exists apiUrl response data,
       List.In apiUrl urls
       /\ fetch apiUrl request = Return response
       /\ ok response = true
       /\ response_json response = Return data
       /\ delegations_of data = Return
            match delegations r with Some d => d | None => JNull end.
Proof.
  induction urls as [|apiUrl rest IH]; simpl; [discriminate|].
  unfold try_delegations at 1. unfold bind.
  destruct (fetch apiUrl request) as [response|] eqn:Hf; simpl.
  - destruct (ok response) eqn:Hok.
    + destruct (response_json response) as [data|] eqn:Hj; simpl.
      * destruct (delegations_of data) as [d|] eqn:Hd; simpl.
        { intros [= <-]. cbn. repeat split; try discriminate.
          exists apiUrl, response, data. auto. }
        { intros H. destruct (IH H) as (? & ? & ? & u & p & q & ? & ?).
          repeat split; auto. exists u, p, q. tauto. }
      * intros H. destruct (IH H) as (? & ? & ? & u & p & q & ? & ?).
        repeat split; auto. exists u, p, q. tauto.
    + simpl. intros H. destruct (IH H) as (? & ? & ? & u & p & q & ? & ?).
      repeat split; auto. exists u, p, q. tauto.
  - intros H. destruct (IH H) as (? & ? & ? & u & p & q & ? & ?).
    repeat split; auto. exists u, p, q. tauto.
Qed.

Lemma query_delegations_returns (urls : DynamicCredentials -> list string)
  (nothing_found fallback : string) :
  exists r,
    query_delegations env fetch urls nothing_found fallback = Return r
    /\ (getCredentials env = None ->
        r = failed "Environment ID and AuthToken are required")
    /\ (delegations_success r = false ->
        delegations r = None
        /\ (delegations_message r
            = Some "Environment ID and AuthToken are required"
            \/ delegations_message r = Some nothing_found))
    /\ (delegations_success r = true ->
        delegations_message r = None
        /\ exists credentials apiUrl response data d,
             getCredentials env = Some credentials
             /\ List.In apiUrl (urls credentials)
             /\ fetch apiUrl (get_request credentials) = Return response
             /\ ok response = true
             /\ response_json response = Return data
             /\ delegations_of data = Return d
             /\ delegations r = Some d).
Proof.
  unfold query_delegations.
  destruct (getCredentials env) as [credentials|].
  - unfold try_catch.
    destruct (first_delegations fetch (get_request credentials)
                (urls credentials)) as [r|] eqn:F.
    + exists r. destruct (first_delegations_succeeds _ _ F)
        as (Hs & Hd & Hm & u & p & q & Hin & Hf & Hok & Hj & Hdel).
      split; [reflexivity|]. split; [discriminate|].
      split; [congruence|]. intros _. split; [exact Hm|].
      destruct (delegations r) as [d|] eqn:Ed; [|congruence].
      exists credentials, u, p, q, d. repeat split; auto.
    + exists (failed nothing_found).
      split; [reflexivity|]. split; [discriminate|].
      split; [intros _; split; [reflexivity | now right] | discriminate].
  - exists (failed "Environment ID and AuthToken are required").
    split; [reflexivity|]. split; [reflexivity|].
    split; [intros _; split; [reflexivity | now left] | discriminate].
Qed.

(** X20. [getUserDelegations] and [getWalletDelegations] never throw,
    whatever the service does. They report success only when one of their
    three endpoints answered with a success whose body could be read, and
    then return what that body lists; in every other case, missing
    credentials included, they return a failure with one of two fixed
    messages and no delegations. *)
Theorem delegation_queries_never_throw (userId walletId : string) :
  (exists r,
     getUserDelegations env fetch userId = Return r
     /\ (delegations_success r = false ->
         delegations r = None
         /\ (delegations_message r
             = Some "Environment ID and AuthToken are required"
             \/ delegations_message r
                = Some "No delegation endpoint available or user not found"))
     /\ (delegations_success r = true ->
         delegations_message r = None
         /\ exists credentials apiUrl response data d,
              getCredentials env = Some credentials
              /\ List.In apiUrl (user_delegation_endpoints credentials userId)
              /\ fetch apiUrl (get_request credentials) = Return response
              /\ ok response = true
              /\ response_json response = Return data
              /\ delegations_of data = Return d
              /\ delegations r = Some d))
  /\ (exists r,
        getWalletDelegations env fetch walletId = Return r
        /\ (delegations_success r = false ->
            delegations r = None
            /\ (delegations_message r
                = Some "Environment ID and AuthToken are required"
                \/ delegations_message r
                   = Some "No delegation endpoint available or wallet not found"))
        /\ (delegations_success r = true ->
            delegations_message r = None
            /\ exists credentials apiUrl response data d,
                 getCredentials env = Some credentials
                 /\ List.In apiUrl
                      (wallet_delegation_endpoints credentials walletId)
                 /\ fetch apiUrl (get_request credentials) = Return response
                 /\ ok response = true
                 /\ response_json response = Return data
                 /\ delegations_of data = Return d
                 /\ delegations r = Some d)).
Proof.
  split.
  - destruct (query_delegations_returns
                (fun credentials =>
                   user_delegation_endpoints credentials userId)
                "No delegation endpoint available or user not found"
                "Failed to get user delegations") as (r & Hr & _ & Hf & Ht).
    exists r. split; [exact Hr|]. split; [exact Hf | exact Ht].
  - destruct (query_delegations_returns
                (fun credentials =>
                   wallet_delegation_endpoints credentials walletId)
                "No delegation endpoint available or wallet not found"
                "Failed to get wallet delegations") as (r & Hr & _ & Hf & Ht).
    exists r. split; [exact Hr|]. split; [exact Hf | exact Ht].
Qed.

(** What the two queries take from a body: an array as it is;
    otherwise the [delegations] of the body if truthy, else its [data] if
    truthy, else the empty array, so that a body without either is a success
    with no delegations; only [null] cannot be read. *)
Lemma delegations_of_a_body (data : Json) :
  (forall items, data = JArr items -> delegations_of data = Return data)
  /\ (returns (delegations_of data) = false <-> data = JNull)
  /\ (forall fields,
        data = JObj fields ->
        delegations_of data
        = Return match assoc "delegations" fields, assoc "data" fields with
                 | Some d, other =>
                     if truthy d then d
                     else match other with
                          | Some v => if truthy v then v else JArr []
                          | None => JArr []
                          end
                 | None, Some v => if truthy v then v else JArr []
                 | None, None => JArr []
                 end).
Proof.
  split; [|split].
  - now intros items ->.
  - destruct data; simpl; split; try discriminate; auto.
  - intros fields ->. unfold delegations_of, bind, or_value. cbn [get_prop].
    destruct (assoc "delegations" fields) as [d|];
      destruct (assoc "data" fields) as [v|]; reflexivity.
Qed.

End UserQueries.

(** ** The listings of active delegated accesses *)

Section ActiveListings.
Import Store DelegatedAccessesApi VaultStore.

Lemma map_set_split (V : Type) (m : JsMap V) (k : string) (old : V) :
  map_get m k = Some old ->
  exists pre post,
    m = (pre ++ (k, old) :: post)%list
    /\ forall v, map_set m k v = (pre ++ (k, v) :: post)%list.
Proof.
  unfold map_get. induction m as [|[k' v'] m IH]; simpl; [discriminate|].
  destruct (String.eqb k k') eqn:E.
  - intros [= ->]. apply String.eqb_eq in E. subst k'.
    exists [], m. split; [reflexivity|]. intros v. reflexivity.
  - intros H. destruct (IH H) as (pre & post & -> & Hset).
    exists ((k', v') :: pre), post. split; [reflexivity|].
    intros v. simpl. now rewrite Hset.
Qed.

Lemma is_active_with_status (da : DelegatedAccess) (st : Json) :
  st <> JStr "active" -> is_active (with_status da st) = false.
Proof.
  intros Hst. unfold is_active, with_status. cbn [status].
  destruct st as [| | |st'| |]; try reflexivity.
  destruct (String.eqb st' "active") eqn:E; [|reflexivity].
  apply String.eqb_eq in E. now subst st'.
Qed.

(** X21. The three listings by vault, wallet and delegate e-mail hold only
    records that are active. A PATCH that sets the status of a record to a
    value other than ['active'] therefore takes the record out of all three,
    which become the listings of the other records, while the record stays
    in the store, in its place and with its new status, and GET
    /api/delegated-accesses still lists it. *)
Theorem PATCH_to_inactive_hides_the_record (s : Store) (params_id : string)
  (body_ : Json) (da : DelegatedAccess) (st : Json) :
  getDelegatedAccess s params_id = Some da ->
  get_prop body_ "status" = Return (Some st) ->
  truthy st = true ->
  st <> JStr "active" ->
  let s' := fst (PATCH s params_id (Return body_)) in
  exists before after,
    getAllDelegatedAccesses s = (before ++ da :: after)%list
    /\ getAllDelegatedAccesses s'
       = (before ++ with_status da st :: after)%list
    /\ (forall q,
          getDelegatedAccessesByVaultId s' q
          = List.filter
              (fun r => String.eqb (vaultId r) q && is_active r)
              (before ++ after)
          /\ getDelegatedAccessesByWalletId s' q
             = List.filter
                 (fun r => String.eqb (walletId r) q && is_active r)
                 (before ++ after)
          /\ getDelegatedAccessesByDelegateEmail s' q
             = List.filter
                 (fun r => String.eqb (delegateEmail r) q && is_active r)
                 (before ++ after))
    /\ (forall q r,
          List.In r (getDelegatedAccessesByVaultId s' q)
          \/ List.In r (getDelegatedAccessesByWalletId s' q)
          \/ List.In r (getDelegatedAccessesByDelegateEmail s' q) ->
          status r = JStr "active")
    /\ body (GET_all s' None None None)
       = JArr (List.map sanitized
                 (before ++ with_status da st :: after)%list).
Proof.
  intros G B Ht Hst s'. subst s'.
  unfold PATCH. simpl. rewrite B, G.
  unfold updateDelegatedAccess, getDelegatedAccess in *. rewrite G.
  cbn [fst]. rewrite spread_only_status. cbn [or_else]. rewrite Ht.
  destruct (map_set_split _ _ G) as (pre & post & Hm & Hset).
  exists (List.map snd pre), (List.map snd post).
  assert (Hall : getAllDelegatedAccesses s
                 = (List.map snd pre ++ da :: List.map snd post)%list).
  { unfold getAllDelegatedAccesses, map_values. rewrite Hm.
    now rewrite List.map_app. }
  assert (Hall' :
    map_values (map_set (delegatedAccesses s) params_id (with_status da st))
    = (List.map snd pre ++ with_status da st :: List.map snd post)%list).
  { unfold map_values. rewrite Hset. now rewrite List.map_app. }
  assert (Hfilter : forall p : DelegatedAccess -> bool,
    (forall r, p r = true -> is_active r = true) ->
    List.filter p
      (List.map snd pre ++ with_status da st :: List.map snd post)%list
    = List.filter p (List.map snd pre ++ List.map snd post)%list).
  { intros p Hp. rewrite !List.filter_app. cbn [List.filter].
    destruct (p (with_status da st)) eqn:E; [|reflexivity].
    apply Hp in E. now rewrite is_active_with_status in E. }
  split; [exact Hall|].
  split; [exact Hall'|].
  split; [|split].
  - intros q.
    unfold getDelegatedAccessesByVaultId, getDelegatedAccessesByWalletId,
      getDelegatedAccessesByDelegateEmail. cbn [delegatedAccesses
      set_delegatedAccesses]. rewrite Hall'.
    repeat split; apply Hfilter; intros r Hr;
      apply andb_true_iff in Hr; tauto.
  - intros q r Hin.
    assert (Hact : is_active r = true).
    { unfold getDelegatedAccessesByVaultId, getDelegatedAccessesByWalletId,
        getDelegatedAccessesByDelegateEmail in Hin.
      destruct Hin as [Hin|[Hin|Hin]]; apply List.filter_In in Hin;
        destruct Hin as [_ Hin]; apply andb_true_iff in Hin; tauto. }
    unfold is_active in Hact.
    destruct (status r) as [| | |st'| |]; try discriminate.
    apply String.eqb_eq in Hact. now subst st'.
  - unfold GET_all, filter_by, getAllDelegatedAccesses.
    cbn [delegatedAccesses set_delegatedAccesses body json_ok].
    now rewrite Hall'.
Qed.

End ActiveListings.

(** ** The policy rules sent to Dynamic Labs *)

Section PolicyRules.
Import JsText PolicyFormat.
Variable Number_toString : Z -> string.

(** X22. [convertPolicyToDynamicLabsFormat] knows four policy types and
    answers [null] to any other without looking at the configuration. For a
    known type it throws on a [null] configuration and otherwise builds a
    rule that always allows, on the chain ['EVM'], for the wallet address when
    one is given and for all addresses when not, on the chain ids of the
    configuration or else on the three default ones. *)
Theorem convertPolicy_rules_always_allow (policyType : string)
  (policyConfig : Json) (walletAddress : option string) :
  let known :=
    List.existsb (String.eqb policyType)
      ["spending_limit"; "multi_sig"; "time_lock"; "approval_required"] in
  match convertPolicyToDynamicLabsFormat Number_toString policyType
          policyConfig walletAddress with
  | Return None => known = false
  | Throw _ => known = true /\ policyConfig = JNull
  | Return (Some rule_) =>
      known = true /\ policyConfig <> JNull
      /\ exists fields,
           rule_ = JObj fields
           /\ assoc "ruleType" fields = Some (JStr "allow")
           /\ assoc "chain" fields = Some (JStr "EVM")
           /\ assoc "chainIds" fields
              = Some (chainIds_of (get_prop_opt (Some policyConfig) "chainIds"))
           /\ assoc "addresses" fields
              = Some (match walletAddress with
                      | Some a => if truthy_string a then JArr [JStr a]
                                  else JArr []
                      | None => JArr []
                      end)
  end.
Proof.
  assert (Haddr : addresses_of walletAddress
                  = match walletAddress with
                    | Some a => if truthy_string a then JArr [JStr a]
                                else JArr []
                    | None => JArr []
                    end).
  { unfold addresses_of. destruct walletAddress as [a|]; [|reflexivity].
    cbn [or_else]. now destruct (truthy_string a). }
  unfold convertPolicyToDynamicLabsFormat. cbn [List.existsb].
  destruct (String.eqb policyType "spending_limit");
    [|destruct (String.eqb policyType "multi_sig");
      [|destruct (String.eqb policyType "time_lock");
        [|destruct (String.eqb policyType "approval_required");
          [|reflexivity]]]];
    (destruct policyConfig as [| b | z | str | items | cfg];
     [ cbn; now split
     | cbn; split; [reflexivity|]; split; [discriminate|];
       eexists; split; [reflexivity|]; cbn; rewrite <- Haddr; now repeat split
       .. ]).
Qed.

(** X23. A spending-limit policy puts a limit on the rule only when the
    configured limit is truthy: a limit of zero, like one that is missing,
    gives a rule that allows without any [valueLimit]. A limit that is there
    is sent as a string, with the asset when one is configured. *)
Theorem spending_limit_of_zero_is_no_limit (cfg : list (string * Json))
  (walletAddress : option string) :
  exists fields,
    convertPolicyToDynamicLabsFormat Number_toString "spending_limit"
      (JObj cfg) walletAddress
    = Return (Some (JObj fields))
    /\ assoc "ruleType" fields = Some (JStr "allow")
    /\ assoc "valueLimit" fields
       = match assoc "spendingLimit" cfg with
         | Some limit =>
             if truthy limit
             then Some (JObj
                    (match assoc "asset" cfg with
                     | Some asset =>
                         if truthy asset then [("asset", asset)] else []
                     | None => []
                     end
                     ++ [("maxPerCall",
                          JStr (js_String Number_toString limit))])%list)
             else None
         | None => None
         end.
Proof.
  unfold convertPolicyToDynamicLabsFormat. cbn [String.eqb Ascii.eqb
    Bool.eqb get_prop bind].
  eexists. split; [reflexivity|]. split; [reflexivity|].
  cbn [rule app assoc String.eqb Ascii.eqb Bool.eqb].
  destruct (assoc "spendingLimit" cfg) as [limit|]; cbn [or_else].
  - destruct (truthy limit).
    + destruct (assoc "asset" cfg) as [asset|]; cbn [or_else optional app].
      * destruct (truthy asset); cbn [optional app assoc String.eqb Ascii.eqb
          Bool.eqb]; reflexivity.
      * reflexivity.
    + cbn [app].
      destruct (or_else truthy (assoc "currency" cfg)
                  (or_else truthy (assoc "timeWindow" cfg) None));
        reflexivity.
  - cbn [app].
    destruct (or_else truthy (assoc "currency" cfg)
                (or_else truthy (assoc "timeWindow" cfg) None));
      reflexivity.
Qed.

End PolicyRules.

(** ** The buttons of the list and the handlers behind them *)

Section ShownButtons.
Import AddressCodec PendingTransactions PendingView.
Variable keccak256 : string -> list Z.
Variable T : Type.
Variable X : Externals T.
Variable session : Session.

Lemma execute_calls_iff (u : Ui) (tx : SafeTransaction) :
  calls (handleExecuteTransaction keccak256 X session u tx) <> []
  <-> viemAccount session <> None /\ walletClient session <> None
      /\ (threshold session <=? List.length (confirmations_or_empty tx))%nat
         = true.
Proof.
  unfold handleExecuteTransaction.
  destruct (viemAccount session) as [account|];
    [|split; [intros H; now contradiction H | intros (H & _); congruence]].
  destruct (walletClient session) as [wc|];
    [|split; [intros H; now contradiction H | intros (_ & H & _); congruence]].
  cbv zeta.
  destruct (Nat.ltb_spec (List.length (confirmations_or_empty tx))
              (threshold session)) as [Hlt|Hge].
  - split; [intros H; now contradiction H|].
    intros (_ & _ & H). apply Nat.leb_le in H. lia.
  - split; [intros _; repeat split; try discriminate; now apply Nat.leb_le|].
    intros _.
    pose proof (@execute_body_trace keccak256 T X session account tx
                  (confirmations_or_empty tx)) as B.
    cbv zeta in B.
    destruct (execute_body keccak256 X session account tx _)
      as [tr [hash|err]]; cbn [fst snd] in B; destruct B as (Hne & _).
    + unfold loadPendingTransactions. cbv zeta. cbn [calls done].
      now destruct tr.
    + exact Hne.
Qed.

Lemma sign_calls_when_unsigned (u : Ui) (tx : SafeTransaction)
  (account : Account) (wc : WalletClient) (a : string) :
  viemAccount session = Some account ->
  walletClient session = Some wc ->
  getAddress keccak256 (address account) = Return a ->
  List.existsb (String.eqb a) (owners session) = true ->
  hasAlreadySigned keccak256 a (confirmations_or_empty tx) = Return false ->
  calls (handleSignTransaction keccak256 X session u tx) <> [].
Proof.
  intros Hacc Hwc Ha Ho Hs. unfold handleSignTransaction.
  rewrite Hacc, Hwc, Ha, Ho. cbn [negb]. cbv zeta. rewrite Hs.
  pose proof (@sign_body_trace keccak256 T X session account tx) as B.
  cbv zeta in B.
  destruct (sign_body X session account tx) as [tr [[]|err]];
    cbn [fst snd] in B; destruct B as (Hne & _).
  - unfold loadPendingTransactions. cbv zeta. cbn [calls done].
    now destruct tr.
  - exact Hne.
Qed.

Lemma sign_calls_when_signed (u : Ui) (tx : SafeTransaction)
  (account : Account) (a : string) :
  viemAccount session = Some account ->
  getAddress keccak256 (address account) = Return a ->
  hasAlreadySigned keccak256 a (confirmations_or_empty tx) = Return true ->
  calls (handleSignTransaction keccak256 X session u tx) = [].
Proof.
  intros Hacc Ha Hs. unfold handleSignTransaction.
  rewrite Hacc, Ha. destruct (walletClient session); [|reflexivity].
  destruct (negb _); [reflexivity|]. cbv zeta. now rewrite Hs.
Qed.

(** X24. The buttons agree with the guards of the handlers. With the wallet
    client there, a Sign button that is shown starts the signing, and a
    transaction marked as signed shows no Sign button and its handler makes no
    call. The Execute button is shown exactly when the confirmations reach
    the threshold: shown, with a wallet connected, the handler goes to the
    outside; not shown, the handler would make no call. *)
Theorem shown_buttons_pass_the_guards (u : Ui) (tx : SafeTransaction)
  (current : option string) (b : Buttons) :
  currentAddress keccak256 session = Return current ->
  buttons keccak256 session current tx = Return b ->
  walletClient session <> None ->
  (canSign b = true ->
   calls (handleSignTransaction keccak256 X session u tx) <> [])
  /\ (hasSigned b = true ->
      canSign b = false
      /\ calls (handleSignTransaction keccak256 X session u tx) = [])
  /\ (canExecute b = true -> viemAccount session <> None ->
      calls (handleExecuteTransaction keccak256 X session u tx) <> [])
  /\ (canExecute b = false ->
      calls (handleExecuteTransaction keccak256 X session u tx) = []).
Proof.
  intros Hcur Hb Hwc.
  assert (Hexec :
    (canExecute b = true -> viemAccount session <> None ->
     calls (handleExecuteTransaction keccak256 X session u tx) <> [])
    /\ (canExecute b = false ->
        calls (handleExecuteTransaction keccak256 X session u tx) = [])).
  { assert (Hc : canExecute b
                 = (threshold session
                    <=? List.length (confirmations_or_empty tx))%nat).
    { unfold buttons, bind in Hb. cbv zeta in Hb.
      destruct current as [a|].
      - destruct (truthy_string a).
        + destruct (hasAlreadySigned keccak256 a _); [|discriminate].
          now injection Hb as <-.
        + now injection Hb as <-.
      - now injection Hb as <-. }
    rewrite Hc. split.
    - intros Hle Hacc. apply execute_calls_iff. auto.
    - intros Hle.
      destruct (calls (handleExecuteTransaction keccak256 X session u tx))
        as [|c rest] eqn:Ec; [reflexivity|].
      assert (Hne : calls (handleExecuteTransaction keccak256 X session u tx)
                    <> []) by (rewrite Ec; discriminate).
      apply execute_calls_iff in Hne. destruct Hne as (_ & _ & Hne).
      congruence. }
  split; [|split; [|exact Hexec]].
  - intros Hcan. unfold currentAddress in Hcur.
    unfold buttons, bind in Hb. cbv zeta in Hb.
    destruct (viemAccount session) as [account|] eqn:Hacc.
    + unfold bind in Hcur.
      destruct (getAddress keccak256 (address account)) as [a|e] eqn:Ea;
        [|discriminate].
      injection Hcur as <-. cbn [isOwner] in Hb.
      destruct (walletClient session) as [wc|] eqn:Ewc; [|congruence].
      destruct (truthy_string a).
      * destruct (hasAlreadySigned keccak256 a (confirmations_or_empty tx))
          as [signed_|e] eqn:Es; [|discriminate].
        injection Hb as <-. cbn [canSign] in Hcan.
        apply andb_true_iff in Hcan. destruct Hcan as [Ho Hs].
        destruct signed_; [discriminate|].
        now apply (sign_calls_when_unsigned u tx Hacc Ewc Ea).
      * injection Hb as <-. discriminate.
    + injection Hcur as <-. injection Hb as <-. discriminate.
  - intros Hsigned. unfold currentAddress in Hcur.
    unfold buttons, bind in Hb. cbv zeta in Hb.
    destruct (viemAccount session) as [account|] eqn:Hacc.
    + unfold bind in Hcur.
      destruct (getAddress keccak256 (address account)) as [a|e] eqn:Ea;
        [|discriminate].
      injection Hcur as <-.
      destruct (truthy_string a).
      * destruct (hasAlreadySigned keccak256 a (confirmations_or_empty tx))
          as [signed_|e] eqn:Es; [|discriminate].
        injection Hb as <-. cbn [canSign hasSigned] in *. subst signed_.
        split; [now rewrite andb_false_r|].
        now apply (sign_calls_when_signed u tx Hacc Ea).
      * injection Hb as <-. discriminate.
    + injection Hcur as <-. injection Hb as <-. discriminate.
Qed.

End ShownButtons.

(** ** POST /api/vaults/[id]/delegate *)

Section DelegateRouteFacts.
Import Store DelegatedAccessesApi DynamicLabsService DynamicLabsUsers.
Import VaultStore DelegateRoute.
Variable env : ProcessEnv.
Variable fetch : string -> FetchRequest -> result FetchResponse.
Variable JSON_parse : string -> result Json.
Variable Number_toString : Z -> string.
Variable now : string.
Variable createdAt_ : string.

Lemma updateVault_delegatedAccesses (s : Store) (id_ : string)
  (updates : list (string * Json)) :
  delegatedAccesses (fst (updateVault s id_ updates)) = delegatedAccesses s.
Proof.
  unfold updateVault. destruct (map_get (vaults s) id_) as [v|]; [|reflexivity].
  now destruct (negb (truthy v)).
Qed.

(** What the route does to the store once the user was found. *)
Lemma delegate_cases (s : Store) (params_id : string)
  (dynamicUser : DynamicUser) (email : string) (body_ : DelegateRequest) :
  let out :=
    delegate env fetch now createdAt_ s params_id dynamicUser email body_ in
  let localVault :=
    List.find (has_dynamicVaultId params_id) (getAllVaults s) in
  let vid := match localVault with Some v => vault_id v | None => "" end in
  (exists v, localVault = Some v
             /\ includes (vault_delegateEmails v) email = true
             /\ out = (s, already_delegated))
  \/ (match localVault with
      | Some v => includes (vault_delegateEmails v) email = false
      | None => True
      end
      /\ status_code (snd out) = 200
      /\ vaults (fst out)
         = match localVault with
           | Some v =>
               vaults (fst (updateVault s (vault_id v)
                              [("delegateEmails",
                                JArr (vault_delegateEmails v
                                      ++ [JStr email])%list)]))
           | None => vaults s
           end
      /\ delegatedAccesses (fst out)
         = match or_else truthy_string (body_walletId body_) None with
           | Some w =>
               delegatedAccesses
                 (step s (CreatePending now createdAt_ vid w params_id email))
           | None => delegatedAccesses s
           end).
Proof.
  unfold delegate. cbv zeta.
  destruct (List.find (has_dynamicVaultId params_id) (getAllVaults s))
    as [v|] eqn:F.
  - destruct (includes (vault_delegateEmails v) email) eqn:I.
    + left. now exists v.
    + right. split; [reflexivity|].
      pose proof (updateVault_delegatedAccesses s (vault_id v)
                    [("delegateEmails",
                      JArr (vault_delegateEmails v ++ [JStr email])%list)])
        as Hda.
      destruct (updateVault s (vault_id v) _) as [s1 updatedVault].
      cbn [fst] in *.
      destruct (or_else truthy_string (body_walletId body_) None) as [w|];
        cbn [fst snd status_code json_ok step createDelegatedAccess
               vaults delegatedAccesses set_delegatedAccesses];
        rewrite ?Hda; repeat split.
  - right. split; [exact I|].
    destruct (or_else truthy_string (body_walletId body_) None) as [w|];
      cbn [fst snd status_code json_ok step createDelegatedAccess
             vaults delegatedAccesses set_delegatedAccesses];
      repeat split.
Qed.

(** X25. The answers of the route, on a store of well-typed vaults: 500
    when the body cannot be read, 400 when [delegateEmail] is missing or
    empty, before anything is asked of Dynamic Labs; then 500 with the
    message of the service when the user lookup throws, 404 when there is no
    such user, 400 when the local vault already lists the e-mail, and 200
    otherwise, whatever becomes of the attempt to trigger the delegation. An
    answer other than 200 leaves the store as it was. *)
Theorem POST_delegate_answers (s : Store) (params_id : string)
  (request_json : result DelegateRequest) :
  match POST env fetch JSON_parse Number_toString now createdAt_ s params_id
          request_json with
  | None => List.forallb vault_typed (getAllVaults s) = false
  | Some (s', r) =>
      List.forallb vault_typed (getAllVaults s) = true
      /\ (status_code r <> 200 -> s' = s)
      /\ match request_json with
         | Throw error => r = server_error error
         | Return body_ =>
             match or_else truthy_string (body_delegateEmail body_) None with
             | None => r = email_required
             | Some email =>
                 match getUserById env fetch JSON_parse Number_toString
                         params_id with
                 | Throw error => r = server_error error
                 | Return None => r = user_not_found params_id
                 | Return (Some _) =>
                     status_code r
                     = match List.find (has_dynamicVaultId params_id)
                               (getAllVaults s) with
                       | Some v =>
                           if includes (vault_delegateEmails v) email
                           then 400 else 200
                       | None => 200
                       end
                 end
             end
         end
  end.
Proof.
  unfold POST.
  destruct (List.forallb vault_typed (getAllVaults s)); cbn [negb];
    [|reflexivity].
  destruct request_json as [body_|error];
    [|split; [reflexivity|]; now split].
  destruct (or_else truthy_string (body_delegateEmail body_) None)
    as [email|]; [|split; [reflexivity|]; now split].
  destruct (getUserById env fetch JSON_parse Number_toString params_id)
    as [[dynamicUser|]|error];
    [|split; [reflexivity|]; now split|split; [reflexivity|]; now split].
  pose proof (delegate_cases s params_id dynamicUser email body_) as D.
  cbv zeta in D.
  destruct (delegate env fetch now createdAt_ s params_id dynamicUser email
              body_) as [s' r].
  split; [reflexivity|].
  destruct D as [(v & -> & Hin & [= -> ->]) | (Hnot & Hcode & _)].
  - rewrite Hin. now split.
  - cbn [snd] in Hcode. split; [congruence|]. rewrite Hcode.
    destruct (List.find _ _) as [v|]; [now rewrite Hnot | reflexivity].
Qed.

(** X26. A request that is answered 200 and names a wallet leaves one
    temporary record, keyed by the time of the request: the record of the
    ledger operation [CreatePending], pending, without event id and with
    neither share nor API key, which none of the listings of active accesses
    shows. Without a wallet id the delegated accesses stay as they were. *)
Theorem POST_delegate_stores_a_pending_record (s s' : Store)
  (params_id : string) (body_ : DelegateRequest) (r : Response) :
  POST env fetch JSON_parse Number_toString now createdAt_ s params_id
    (Return body_) = Some (s', r) ->
  status_code r = 200 ->
  let vid :=
    match List.find (has_dynamicVaultId params_id) (getAllVaults s) with
    | Some v => vault_id v
    | None => ""
    end in
  exists email,
    or_else truthy_string (body_delegateEmail body_) None = Some email
    /\ match or_else truthy_string (body_walletId body_) None with
       | Some w =>
           let record :=
             tempDelegation now createdAt_ vid w params_id email in
           delegatedAccesses s'
           = delegatedAccesses
               (step s (CreatePending now createdAt_ vid w params_id email))
           /\ getDelegatedAccess s' ("temp-" ++ now) = Some record
           /\ delegatedShare record = JNull
           /\ walletApiKey record = ""
           /\ (forall q,
                 ~ List.In record (getDelegatedAccessesByVaultId s' q)
                 /\ ~ List.In record (getDelegatedAccessesByWalletId s' q)
                 /\ ~ List.In record
                        (getDelegatedAccessesByDelegateEmail s' q))
       | None => delegatedAccesses s' = delegatedAccesses s
       end.
Proof.
  unfold POST.
  destruct (List.forallb vault_typed (getAllVaults s)); cbn [negb];
    [|discriminate].
  destruct (or_else truthy_string (body_delegateEmail body_) None)
    as [email|]; [|intros [= <- <-]; discriminate].
  destruct (getUserById env fetch JSON_parse Number_toString params_id)
    as [[dynamicUser|]|error]; try (intros [= <- <-]; discriminate).
  pose proof (delegate_cases s params_id dynamicUser email body_) as D.
  cbv zeta in D. intros [= E] Hcode. rewrite E in D. cbn [fst snd] in D.
  destruct D as [(v & _ & _ & [= _ ->]) | (_ & _ & _ & Hda)];
    [discriminate|].
  cbv zeta. exists email. split; [reflexivity|].
  destruct (or_else truthy_string (body_walletId body_) None) as [w|];
    [|exact Hda].
  split; [exact Hda|].
  split.
  { unfold getDelegatedAccess. rewrite Hda.
    cbn [step createDelegatedAccess fst delegatedAccesses
           set_delegatedAccesses].
    apply map_get_set_same. }
  split; [reflexivity|]. split; [reflexivity|].
  intros q.
  unfold getDelegatedAccessesByVaultId, getDelegatedAccessesByWalletId,
    getDelegatedAccessesByDelegateEmail.
  repeat split; intros Hin; apply List.filter_In in Hin;
    destruct Hin as [_ Hin]; apply andb_true_iff in Hin;
    destruct Hin as [_ Hin]; discriminate.
Qed.

Lemma entries_split (m : JsMap Json) (p : Json -> bool) (v : Json) :
  List.find p (map_values m) = Some v ->
  exists pre k post,
    m = (pre ++ (k, v) :: post)%list
    /\ List.forallb (fun kv => negb (p (snd kv))) pre = true
    /\ p v = true.
Proof.
  unfold map_values. induction m as [|[k0 v0] m IH]; simpl; [discriminate|].
  destruct (p v0) eqn:E.
  - intros [= ->]. exists [], k0, m. now repeat split.
  - intros H. destruct (IH H) as (pre & k & post & -> & Hpre & Hv).
    exists ((k0, v0) :: pre), k, post. simpl. rewrite E, Hpre. now repeat split.
Qed.

Lemma map_get_fresh_prefix (V : Type) (pre post : JsMap V) (k : string)
  (v : V) :
  ~ List.In k (map_keys pre) ->
  map_get (pre ++ (k, v) :: post)%list k = Some v
  /\ forall v', map_set (pre ++ (k, v) :: post)%list k v'
                = (pre ++ (k, v') :: post)%list.
Proof.
  unfold map_get, map_keys. induction pre as [|[k0 v0] pre IH]; simpl.
  - intros _. rewrite String.eqb_refl. now split.
  - intros Hnot.
    assert (E : String.eqb k k0 = false).
    { apply String.eqb_neq. intros ->. apply Hnot. now left. }
    rewrite E. destruct IH as [IH1 IH2]; [tauto|].
    split; [exact IH1|]. intros v'. now rewrite IH2.
Qed.

Lemma find_after_prefix (pre post : JsMap Json) (p : Json -> bool)
  (k : string) (v : Json) :
  List.forallb (fun kv => negb (p (snd kv))) pre = true ->
  p v = true ->
  List.find p (map_values (pre ++ (k, v) :: post)%list) = Some v.
Proof.
  intros Hpre Hv. unfold map_values.
  induction pre as [|[k0 v0] pre IH]; simpl in *.
  - now rewrite Hv.
  - apply andb_true_iff in Hpre. destruct Hpre as [H0 Hpre].
    apply negb_true_iff in H0. rewrite H0. now apply IH.
Qed.

Lemma includes_appended (emails : list Json) (email : string) :
  includes (emails ++ [JStr email])%list email = true.
Proof.
  unfold includes. rewrite List.existsb_app. simpl.
  rewrite String.eqb_refl. now rewrite orb_true_r.
Qed.

Lemma assoc_set_other (fields : list (string * Json)) (k key : string)
  (x : Json) :
  key <> k -> assoc key (map_set fields k x) = assoc key fields.
Proof. intros H. now apply (@map_get_set_other Json fields k key x). Qed.

Lemma assoc_set_same (fields : list (string * Json)) (k : string) (x : Json) :
  assoc k (map_set fields k x) = Some x.
Proof. apply (@map_get_set_same Json fields k x). Qed.

(** X27. On a store that keeps each vault under its own id, a request
    answered 200 for a user with a local vault adds the e-mail at the end of
    the vault's [delegateEmails] and changes nothing else of the vault or of
    the other vaults; the same e-mail a second time, at any later time and
    with any wallet id, is answered 400 and changes nothing. *)
Theorem POST_delegate_adds_the_delegate_once (s s' : Store)
  (params_id : string) (body_ : DelegateRequest) (r : Response) (v : Json) :
  vaults_keyed_by_id s ->
  List.find (has_dynamicVaultId params_id) (getAllVaults s) = Some v ->
  POST env fetch JSON_parse Number_toString now createdAt_ s params_id
    (Return body_) = Some (s', r) ->
  status_code r = 200 ->
  exists email v',
    or_else truthy_string (body_delegateEmail body_) None = Some email
    /\ getVault s' (vault_id v) = Some v'
    /\ vault_delegateEmails v'
       = (vault_delegateEmails v ++ [JStr email])%list
    /\ (forall key, key <> "delegateEmails" ->
                    get_prop_opt (Some v') key = get_prop_opt (Some v) key)
    /\ map_keys (vaults s') = map_keys (vaults s)
    /\ (forall k, k <> vault_id v -> getVault s' k = getVault s k)
    /\ forall now' createdAt' body',
         or_else truthy_string (body_delegateEmail body') None = Some email ->
         POST env fetch JSON_parse Number_toString now' createdAt' s'
           params_id (Return body')
         = Some (s', already_delegated).
Proof.
  intros [Hnodup Hkeyed] Hfind. unfold POST.
  destruct (List.forallb vault_typed (getAllVaults s)) eqn:Htyped;
    cbn [negb]; [|discriminate].
  destruct (or_else truthy_string (body_delegateEmail body_) None)
    as [email|]; [|intros [= <- <-]; discriminate].
  destruct (getUserById env fetch JSON_parse Number_toString params_id)
    as [[dynamicUser|]|error] eqn:Huser;
    try (intros [= <- <-]; discriminate).
  pose proof (delegate_cases s params_id dynamicUser email body_) as D.
  cbv zeta in D. intros [= E] Hcode. rewrite E, Hfind in D.
  cbn [fst snd] in D.
  destruct D as [(v0 & _ & _ & [= _ ->]) | (Hnot & _ & Hvaults & Hda)];
    [discriminate|].
  (* where the vault stands in the map *)
  unfold getAllVaults in *.
  destruct (entries_split _ _ Hfind) as (pre & k & post & Hm & Hpre & Hpv).
  assert (Hk : k = vault_id v).
  { rewrite Hm in Hkeyed. apply List.Forall_app in Hkeyed.
    destruct Hkeyed as [_ Hkeyed]. now inversion Hkeyed. }
  subst k.
  assert (Hfresh : ~ List.In (vault_id v) (map_keys pre)).
  { unfold map_keys in *. rewrite Hm, List.map_app in Hnodup.
    cbn [List.map fst] in Hnodup.
    apply List.NoDup_remove_2 in Hnodup. intros Hin. apply Hnodup.
    apply List.in_or_app. now left. }
  destruct (@map_get_fresh_prefix Json pre post (vault_id v) v Hfresh)
    as [Hget Hset].
  rewrite <- Hm in Hget, Hset.
  (* the vault is an object with the two fields *)
  assert (Hv : vault_typed v = true).
  { rewrite List.forallb_forall in Htyped. apply Htyped.
    unfold map_values. rewrite Hm, List.map_app. apply List.in_or_app.
    right. now left. }
  destruct v as [| | | | |fields]; try discriminate.
  cbn [vault_typed] in Hv.
  destruct (assoc "id" fields) as [[| | |i| |]|] eqn:Hid; try discriminate.
  destruct (assoc "delegateEmails" fields) as [[| | | |emails|]|] eqn:Hem;
    try discriminate.
  assert (Hvid : vault_id (JObj fields) = i).
  { unfold vault_id. cbn [get_prop_opt]. now rewrite Hid. }
  assert (Hvem : vault_delegateEmails (JObj fields) = emails).
  { unfold vault_delegateEmails. cbn [get_prop_opt]. now rewrite Hem. }
  rewrite Hvid, Hvem in *.
  set (v' := JObj (map_set fields "delegateEmails"
                     (JArr (emails ++ [JStr email])%list))).
  assert (Hs' : vaults s' = map_set (vaults s) i v').
  { rewrite Hvaults. unfold updateVault. rewrite Hget. reflexivity. }
  assert (Hv'em : vault_delegateEmails v' = (emails ++ [JStr email])%list).
  { unfold vault_delegateEmails, v'. cbn [get_prop_opt].
    now rewrite assoc_set_same. }
  assert (Hother : forall key, key <> "delegateEmails" ->
            get_prop_opt (Some v') key = get_prop_opt (Some (JObj fields)) key).
  { intros key Hkey. unfold v'. cbn [get_prop_opt].
    now apply assoc_set_other. }
  assert (Hv'p : has_dynamicVaultId params_id v' = true).
  { unfold has_dynamicVaultId in *. rewrite Hother; [exact Hpv|discriminate]. }
  assert (Hv't : vault_typed v' = true).
  { unfold vault_typed, v'. rewrite assoc_set_other by discriminate.
    now rewrite Hid, assoc_set_same. }
  exists email, v'.
  split; [reflexivity|].
  split; [unfold getVault; rewrite Hs'; apply map_get_set_same|].
  split; [exact Hv'em|].
  split; [exact Hother|].
  split; [rewrite Hs'; now apply (@map_keys_set_present Json _ _ _ (JObj fields))|].
  split; [intros k Hk; unfold getVault; rewrite Hs';
          now apply map_get_set_other|].
  intros now' createdAt' body' Hemail.
  rewrite Hs', Hset.
  assert (Htyped' :
    List.forallb vault_typed (map_values (pre ++ (i, v') :: post)%list) = true).
  { unfold map_values in *. rewrite Hm in Htyped.
    rewrite List.map_app, List.forallb_app in *. cbn [List.map List.forallb snd] in *.
    apply andb_true_iff in Htyped. destruct Htyped as [H1 H2].
    apply andb_true_iff in H2. destruct H2 as [_ H2].
    now rewrite H1, Hv't, H2. }
  rewrite Htyped'. cbn [negb]. rewrite Hemail.
  unfold delegate. cbv zeta. unfold getAllVaults. rewrite Hs', Hset.
  rewrite (@find_after_prefix pre post (has_dynamicVaultId params_id) i v'
             Hpre Hv'p).
  rewrite Hv'em, includes_appended. reflexivity.
Qed.

Lemma map_get_none_fresh (V : Type) (m : JsMap V) (k : string) :
  map_get m k = None -> ~ List.In k (map_keys m).
Proof.
  unfold map_get, map_keys. induction m as [|[k0 v0] m IH]; simpl; [tauto|].
  destruct (String.eqb k k0) eqn:E; [discriminate|].
  intros H [Hk|Hin]; [|now apply IH].
  subst k0. now rewrite String.eqb_refl in E.
Qed.

Lemma map_set_keeps_keyed (m : JsMap Json) (k : string) (v : Json) :
  List.NoDup (map_keys m) ->
  List.Forall (fun kv => vault_id (snd kv) = fst kv) m ->
  vault_id v = k ->
  List.NoDup (map_keys (map_set m k v))
  /\ List.Forall (fun kv => vault_id (snd kv) = fst kv) (map_set m k v).
Proof.
  intros Hnodup Hkeyed Hv. split.
  - destruct (map_get m k) as [old|] eqn:G.
    + now rewrite (@map_keys_set_present Json m k v old G).
    + rewrite (@map_keys_set_absent Json m k v G).
      apply List.NoDup_app.
      * exact Hnodup.
      * repeat constructor. intros [].
      * intros x Hx [<-|[]]. now apply (map_get_none_fresh _ _ G).
  - clear Hnodup. induction Hkeyed as [|[k0 v0] m H0 Htail IH]; simpl.
    + now repeat constructor.
    + destruct (String.eqb k k0) eqn:E.
      * apply String.eqb_eq in E. subst k0. constructor; [exact Hv | exact Htail].
      * constructor; [exact H0 | exact IH].
Qed.

Lemma forallb_values_set (m : JsMap Json) (p : Json -> bool) (k : string)
  (v : Json) :
  List.forallb p (map_values m) = true -> p v = true ->
  List.forallb p (map_values (map_set m k v)) = true.
Proof.
  unfold map_values. intros Hm Hv.
  induction m as [|[k0 v0] m IH]; simpl in *.
  - now rewrite Hv.
  - apply andb_true_iff in Hm. destruct Hm as [H0 Hm].
    destruct (String.eqb k k0); simpl.
    + now rewrite Hv, Hm.
    + now rewrite H0, IH.
Qed.

Lemma found_vault_lookup (s : Store) (p : Json -> bool) (v : Json) :
  vaults_keyed_by_id s ->
  List.find p (getAllVaults s) = Some v ->
  map_get (vaults s) (vault_id v) = Some v.
Proof.
  intros [Hnodup Hkeyed] Hfind. unfold getAllVaults in Hfind.
  destruct (entries_split _ _ Hfind) as (pre & k & post & Hm & _ & _).
  assert (Hk : k = vault_id v).
  { rewrite Hm in Hkeyed. apply List.Forall_app in Hkeyed.
    destruct Hkeyed as [_ Hkeyed]. now inversion Hkeyed. }
  subst k.
  assert (Hfresh : ~ List.In (vault_id v) (map_keys pre)).
  { unfold map_keys in *. rewrite Hm, List.map_app in Hnodup.
    cbn [List.map fst] in Hnodup.
    apply List.NoDup_remove_2 in Hnodup. intros Hin. apply Hnodup.
    apply List.in_or_app. now left. }
  rewrite Hm. apply (@map_get_fresh_prefix Json pre post (vault_id v) v Hfresh).
Qed.

(** X28. The store keeps its vaults well-typed and each under its own id:
    from a store that does, [createVault] of a well-typed vault, which puts
    the vault under its id and returns it, and any request to the delegate
    route, whatever its answer, lead to a store that does again. *)
Theorem vaults_stay_keyed_by_id (s : Store) :
  vaults_keyed_by_id s ->
  List.forallb vault_typed (getAllVaults s) = true ->
  (forall vault s' r,
      vault_typed vault = true ->
      createVault s vault = Some (s', r) ->
      r = vault
      /\ getVault s' (vault_id vault) = Some vault
      /\ vaults_keyed_by_id s'
      /\ List.forallb vault_typed (getAllVaults s') = true)
  /\ (forall params_id request_json s' r,
        POST env fetch JSON_parse Number_toString now createdAt_ s params_id
          request_json = Some (s', r) ->
        vaults_keyed_by_id s'
        /\ List.forallb vault_typed (getAllVaults s') = true).
Proof.
  intros Hkeyed Htyped. split.
  - intros vault s' r Hv. unfold createVault, vault_id.
    destruct (get_prop_opt (Some vault) "id") as [[| | |i| |]|] eqn:Hid;
      try discriminate.
    intros [= <- <-]. split; [reflexivity|].
    split; [apply map_get_set_same|].
    destruct Hkeyed as [Hnodup Hk].
    split.
    + unfold vaults_keyed_by_id. cbn [vaults set_vaults].
      apply map_set_keeps_keyed; auto. unfold vault_id. now rewrite Hid.
    + unfold getAllVaults. cbn [vaults set_vaults].
      now apply forallb_values_set.
  - intros params_id request_json s' r. unfold POST. rewrite Htyped.
    cbn [negb].
    destruct request_json as [body_|error]; [|now intros [= <- <-]].
    destruct (or_else truthy_string (body_delegateEmail body_) None)
      as [email|]; [|now intros [= <- <-]].
    destruct (getUserById env fetch JSON_parse Number_toString params_id)
      as [[dynamicUser|]|error]; try (now intros [= <- <-]).
    pose proof (delegate_cases s params_id dynamicUser email body_) as D.
    cbv zeta in D. intros [= E]. rewrite E in D. cbn [fst snd] in D.
    destruct D as [(v0 & _ & _ & [= -> _]) | (_ & _ & Hvaults & _)];
      [now split|].
    assert (Hgoal : vaults_keyed_by_id s
                    /\ List.forallb vault_typed (getAllVaults s) = true)
      by now split.
    unfold vaults_keyed_by_id, getAllVaults in *.
    destruct (List.find (has_dynamicVaultId params_id) (map_values (vaults s)))
      as [v|] eqn:Hfind; [|now rewrite Hvaults].
    pose proof (@found_vault_lookup s (has_dynamicVaultId params_id) v
                  Hkeyed Hfind) as Hget.
    assert (Hv : vault_typed v = true).
    { rewrite List.forallb_forall in Htyped. apply Htyped.
      apply List.find_some in Hfind. tauto. }
    destruct v as [| | | | |fields]; try discriminate.
    cbn [vault_typed] in Hv.
    destruct (assoc "id" fields) as [[| | |i| |]|] eqn:Hid; try discriminate.
    destruct (assoc "delegateEmails" fields) as [[| | | |emails|]|] eqn:Hem;
      try discriminate.
    assert (Hvid : vault_id (JObj fields) = i).
    { unfold vault_id. cbn [get_prop_opt]. now rewrite Hid. }
    rewrite Hvid in *.
    unfold updateVault in Hvaults. rewrite Hget in Hvaults.
    cbn [truthy negb fst vaults set_vaults own_entries object_spread
           List.fold_left fst snd] in Hvaults.
    rewrite Hvaults. destruct Hkeyed as [Hnodup Hk].
    split.
    + apply map_set_keeps_keyed; auto.
      unfold vault_id. cbn [get_prop_opt].
      rewrite assoc_set_other by discriminate. now rewrite Hid.
    + apply forallb_values_set; [exact Htyped|].
      unfold vault_typed. rewrite assoc_set_other by discriminate.
      now rewrite Hid, assoc_set_same.
Qed.

End DelegateRouteFacts.

(** ** The further properties on sample values *)

Section OnScenarios.
Import Samples Scenarios.
Import DynamicLabsService DynamicLabsQueries DynamicLabsUsers.

(** With the network down, no endpoint answers and the delegation is left to
    the client. *)
Lemma triggerDelegation_with_the_network_down :
  triggerDelegation sample_env fetch_down "wallet-1" "delegate@example.org"
    None
  = Return client_side_required.
Proof.
  apply (@triggerDelegation_when_no_endpoint_answers sample_env fetch_down
           "wallet-1" "delegate@example.org" None sample_credentials).
  - reflexivity.
  - intros apiUrl _. exact I.
Defined.

(** The first endpoint answers 404 and the second answers with an id. *)
Lemma triggerDelegation_on_the_second_endpoint :
  triggerDelegation sample_env fetch_waas "wallet-1" "delegate@example.org"
    None
  = Return {| success := true;
              trigger_message :=
                "Delegation triggered successfully via server-side API";
              delegationId := Some (JStr "delegation-1");
              requiresClientSide := None |}.
Proof.
  apply (@triggerDelegation_first_answer_wins sample_env fetch_waas
           "wallet-1" "delegate@example.org" None sample_credentials
           ["https://app.dynamic.xyz/api/v0/environments/env-1/wallets/wallet-1/delegate"]
           ["https://app.dynamic.xyz/api/v0/environments/env-1/users/wallet-1/delegate";
            "https://app.dynamicauth.com/api/v0/environments/env-1/wallets/wallet-1/delegate"]
           waas_url
           (answer 200 (JObj [("id", JStr "delegation-1")]))
           (JObj [("id", JStr "delegation-1")])).
  - reflexivity.
  - reflexivity.
  - intros u [<-|[]]. vm_compute. left. reflexivity.
  - reflexivity.
  - reflexivity.
  - reflexivity.
  - discriminate.
Defined.

(** A user that Dynamic Labs knows by first name only. *)
Lemma getUserById_on_samples :
  getUserById sample_env fetch_user parse_nothing digits "user-1"
  = Return (Some {| user_id := JStr "user-1";
                    user_email := JStr "";
                    firstName := Some (JStr "Ada");
                    lastName := None |}).
Proof.
  apply (proj2 (proj2
           (@getUserById_outcomes sample_env fetch_user parse_nothing digits
              "user-1" sample_credentials known_user eq_refl eq_refl))
           [("firstName", JStr "Ada")]); reflexivity.
Defined.

Import Store DelegatedAccessesApi VaultStore.

(** An object given as status is stored as it is. *)
Lemma PATCH_with_an_object_as_status :
  getDelegatedAccess
    (fst (PATCH (sample_store JNull "k") "da-1"
            (Return (JObj [("status", JObj [("revoked", JBool true)])]))))
    "da-1"
  = Some (with_status (sample_record JNull "k")
            (JObj [("revoked", JBool true)])).
Proof.
  apply (@PATCH_stores_any_truthy_status (sample_store JNull "k") "da-1"
           (JObj [("status", JObj [("revoked", JBool true)])])
           (sample_record JNull "k") (JObj [("revoked", JBool true)]));
    reflexivity.
Defined.

(** Revoking the only record empties the listing of its vault. *)
Lemma revoked_record_on_samples :
  getDelegatedAccessesByVaultId (sample_store JNull "k") "vault-1"
  = [sample_record JNull "k"]
  /\ getDelegatedAccessesByVaultId
       (fst (PATCH (sample_store JNull "k") "da-1"
               (Return (JObj [("status", JStr "revoked")])))) "vault-1"
     = []
  /\ exists before after,
       getAllDelegatedAccesses
         (fst (PATCH (sample_store JNull "k") "da-1"
                 (Return (JObj [("status", JStr "revoked")]))))
       = (before ++ with_status (sample_record JNull "k") (JStr "revoked")
                 :: after)%list.
Proof.
  split; [reflexivity|]. split; [reflexivity|].
  destruct (@PATCH_to_inactive_hides_the_record (sample_store JNull "k")
              "da-1" (JObj [("status", JStr "revoked")])
              (sample_record JNull "k") (JStr "revoked")
              eq_refl eq_refl eq_refl)
    as (before & after & _ & H & _).
  - discriminate.
  - exists before, after. exact H.
Defined.

Import DelegateRoute.

(** The sample request stores one temporary record, without secrets. *)
Lemma POST_delegate_on_samples :
  exists email,
    or_else truthy_string (body_delegateEmail delegate_request) None
    = Some email
    /\ getDelegatedAccess (fst delegated) "temp-1700000000000"
       = Some (tempDelegation "1700000000000" "2023-11-14T22:13:20.000Z"
                 "vault-1" "wallet-1" "user-1" email)
    /\ getDelegatedAccessesByWalletId (fst delegated) "wallet-1" = [].
Proof.
  destruct (@POST_delegate_stores_a_pending_record sample_env fetch_user
              parse_nothing digits "1700000000000"
              "2023-11-14T22:13:20.000Z" store_with_vault (fst delegated)
              "user-1" delegate_request (snd delegated)
              eq_refl eq_refl)
    as (email & He & _ & Hget & _).
  exists email. split; [exact He|]. split; [exact Hget | reflexivity].
Defined.

(** The sample request adds the delegate to the vault, and a second one for
    the same e-mail is turned away. *)
Lemma POST_delegate_twice_on_samples :
  exists email v',
    getVault (fst delegated) "vault-1" = Some v'
    /\ vault_delegateEmails v' = [JStr email]
    /\ POST sample_env fetch_user parse_nothing digits "1700000000001"
         "2023-11-14T22:13:20.001Z" (fst delegated) "user-1"
         (Return delegate_request)
       = Some (fst delegated, already_delegated).
Proof.
  destruct (@POST_delegate_adds_the_delegate_once sample_env fetch_user
              parse_nothing digits "1700000000000"
              "2023-11-14T22:13:20.000Z" store_with_vault (fst delegated)
              "user-1" delegate_request (snd delegated) sample_vault)
    as (email & v' & He & Hget & Hem & _ & _ & _ & Hagain).
  - split.
    + repeat constructor. intros [].
    + repeat constructor.
  - reflexivity.
  - reflexivity.
  - reflexivity.
  - exists email, v'. split; [exact Hget|]. split; [exact Hem|].
    apply Hagain. exact He.
Defined.

Import PendingTransactions PendingView.

(** A quorum of one, met, with a second confirmation of a malformed owner:
    nothing is submitted. *)
Lemma execute_with_a_malformed_owner_on_samples :
  submitted
    (calls (handleExecuteTransaction sample_keccak256 sample_externals
              (session_of walletA client 1) idle
              (sample_tx [byA; malformed])))
  = []
  /\ error
       (ui (handleExecuteTransaction sample_keccak256 sample_externals
              (session_of walletA client 1) idle
              (sample_tx [byA; malformed])))
     = error_text malformed_error "Failed to execute transaction".
Proof.
  destruct (@execute_stops_on_a_malformed_owner sample_keccak256
              EthSafeTransaction sample_externals
              (session_of walletA client 1) idle
              (sample_tx [byA; malformed]) (sample_tx [])
              {| address := ownerA |} ViemWalletClient
              {| tx_data := meta_of (sample_tx []); signatures := [] |}
              malformed_error)
    as (H1 & H2 & _);
    try reflexivity.
  - simpl. lia.
  - split; [exact H1 | exact H2].
Defined.

(** Owner A sees both buttons on a transaction that B has confirmed, and both
    handlers go to the outside. *)
Lemma shown_buttons_on_samples :
  calls (handleSignTransaction sample_keccak256 sample_externals
           (session_of walletA client 1) idle (sample_tx [byB])) <> []
  /\ calls (handleExecuteTransaction sample_keccak256 sample_externals
              (session_of walletA client 1) idle (sample_tx [byB])) <> [].
Proof.
  destruct (@shown_buttons_pass_the_guards sample_keccak256
              EthSafeTransaction sample_externals
              (session_of walletA client 1) idle (sample_tx [byB])
              (Some ownerA)
              {| hasSigned := false; canSign := true; canExecute := true |})
    as (Hsign & _ & Hexec & _).
  - reflexivity.
  - reflexivity.
  - discriminate.
  - split; [now apply Hsign | apply Hexec; [reflexivity | discriminate]].
Defined.

Import DelegationService.

(** A wrong private key, and a forged tag on the share. *)
Lemma decryptMaterials_errors_on_samples :
  decryptMaterials sample_crypto "WRONG KEY" good_share good_api_key
  = Throw (Error
      "Failed to decrypt delegation materials: Failed to decrypt content-encryption key: oaep decoding error")
  /\ decryptMaterials sample_crypto "PRIVATE KEY" forged_share good_api_key
     = Throw (Error
         "Failed to decrypt delegation materials: Unsupported state or unable to authenticate data")
  /\ decryptMaterials sample_crypto "PRIVATE KEY" good_share
       (sealed "apikey" "forged")
     = Throw (Error
         "Failed to decrypt delegation materials: Unsupported state or unable to authenticate data").
Proof.
  split; [|split].
  - apply (proj1 (@decryptMaterials_error_messages sample_crypto "WRONG KEY"
                    good_share good_api_key)
             (Error "oaep decoding error")).
    reflexivity.
  - apply (proj2 (proj2 (proj1
             (proj1 (proj2 (proj2 (@decryptMaterials_error_messages
                                     sample_crypto "PRIVATE KEY" forged_share
                                     good_api_key)))
                (codes "key") (codes "key") eq_refl eq_refl))));
      reflexivity.
  - apply (proj2 (proj2 (proj1
             (proj2
                (proj1 (proj2 (proj2 (@decryptMaterials_error_messages
                                        sample_crypto "PRIVATE KEY" good_share
                                        (sealed "apikey" "forged"))))
                   (codes "key") (codes "key") eq_refl eq_refl)
                (codes "share") eq_refl))));
      reflexivity.
Defined.

(** Owner A signs a transaction that only B has confirmed. *)
Lemma sign_starts_on_samples :
  calls (handleSignTransaction sample_keccak256 sample_externals
           (session_of walletA client 2) idle (sample_tx [byB])) <> [].
Proof.
  apply (proj2 (@handleSignTransaction_starts_iff sample_keccak256
                  EthSafeTransaction sample_externals
                  (session_of walletA client 2) idle (sample_tx [byB]))).
  exists {| address := ownerA |}, ownerA.
  split; [reflexivity|]. split; [discriminate|]. split; [reflexivity|].
  split; [now left | reflexivity].
Defined.

(** The sample store is as [createVault] leaves it, and so is the store after
    the sample request. *)
Lemma vaults_on_samples :
  vaults_keyed_by_id (fst delegated)
  /\ List.forallb vault_typed (getAllVaults (fst delegated)) = true.
Proof.
  destruct (@vaults_stay_keyed_by_id sample_env fetch_user parse_nothing digits
              "1700000000000" "2023-11-14T22:13:20.000Z" store_with_vault)
    as [_ H].
  - split.
    + repeat constructor. intros [].
    + repeat constructor.
  - reflexivity.
  - apply (H "user-1" (Return delegate_request) (fst delegated)
             (snd delegated)).
    reflexivity.
Defined.

End OnScenarios.
